(** * LODManager: a shallow embedding of the level-of-detail manager

    The development follows [LODManager.ts]: the decimator
    ([decimateVertices]), the synthesis of the levels of a model
    ([createLODLevel], [simplifyGeometry], [adjustMaterial]), the
    registry ([createLODForModel], [removeLODForModel], [dispose]), the
    manual override ([setLODLevel]) and the queries
    ([getCurrentLODLevel], [getMemoryUsage]).  [updateLOD] only hands
    over to [LOD.update] of three.js and is left out.

    The file imports [Object3D], [LOD], [Mesh], [BufferGeometry],
    [MeshLambertMaterial] and [Vector3] from three.js by name and binds
    no identifier [THREE].  As a type ([THREE.Camera]) the name is
    erased; as a value, in [new THREE.BufferAttribute(..)] at the end of
    [decimateVertices], its evaluation throws a [ReferenceError].  That
    is how the method is modelled: the loop runs, and then the method
    throws.

    JavaScript numbers are rationals ([Q]) where the code computes with
    fractions and [Z] or [nat] where it only ever holds integers
    (indices, counts).  The product [originalCount * ratio] is rounded
    as binary64 arithmetic rounds it ([Num.mul]).  The quotients
    [positions.length / 3] and [originalCount / targetCount] are only
    compared with integers or rounded down to one, which their rounding
    does not change for a buffer of fewer than 2^50 elements; they are
    exact here.  The opacity [1.0 - levelIndex * 0.2] is exact as well.
    [NaN] and the infinities are named where they arise.

    The calls into three.js follow that library: [Object3D.clone],
    [Object3D.add], [Object3D.removeFromParent], [Object3D.traverse] and
    [LOD.addLevel]. *)

From Stdlib Require Import ZArith QArith Qround Qabs Lia Lqa Sorted.
From stdpp Require Import gmap list.

Local Open Scope Z_scope.


(** ** Numbers *)

Module Num.

(** [x < y] on JavaScript numbers. *)
Definition ltb (x y : Q) : bool := negb (Qle_bool y x).

(** [x >= y] on JavaScript numbers. *)
Definition geb (x y : Q) : bool := Qle_bool y x.

(** [Math.max(x, y)] on finite numbers. *)
Definition max (x y : Q) : Q := if Qle_bool x y then y else x.

Definition ofNat (n : nat) : Q := inject_Z (Z.of_nat n).

(** [2 ^ e] for any integer [e]. *)
Definition pow2 (e : Z) : Q :=
  if 0 <=? e then inject_Z (2 ^ e) else 1 # Z.to_pos (2 ^ (- e)).

(** The integer nearest to [x], the even one of the two when [x] lies
    half-way between them. *)
Definition nearestEven (x : Q) : Z :=
  let f := Qfloor x in
  match (x - inject_Z f ?= 1 # 2)%Q with
  | Lt => f
  | Gt => f + 1
  | Eq => if Z.even f then f else f + 1
  end.

(** The binary64 number nearest to [x], ties to even: 53 significant
    bits.  The exponent is not bounded, so that overflow and subnormal
    numbers are not represented. *)
Definition double (x : Q) : Q :=
  if Qeq_bool x 0 then 0%Q
  else
    let a := Qabs x in
    let e0 := Z.log2 (Qnum a) - Z.log2 (Zpos (Qden a)) in
    let e := if Qle_bool (pow2 e0) a then e0 else e0 - 1 in
    let m := nearestEven (a * pow2 (52 - e)) in
    let r := Qred (inject_Z m * pow2 (e - 52)) in
    if Qle_bool 0 x then r else (- r)%Q.

(** [x * y] on binary64 numbers. *)
Definition mul (x y : Q) : Q := double (double x * double y).

(** [x] is an integer, as an array index is. *)
Definition isInteger (x : Q) : bool := Qeq_bool (inject_Z (Qfloor x)) x.

End Num.


(** ** Geometry decimator *)

Section Decimate.

Context {A : Type}.

(** [positions.length / 3] *)
Definition originalCount (positions : list A) : Q :=
  (Num.ofNat (length positions) / 3)%Q.

(** [Math.max(1, Math.floor(originalCount / targetCount))].  The quotient
    is not finite when [targetCount] is [0] ([Infinity], or [NaN] for an
    empty buffer); [None] stands for both, since the only use of the
    step is [i += step] followed by the test [i < originalCount], which
    is false for either value. *)
Definition decimateStep (positions : list A) (targetCount : Z) : option nat :=
  if targetCount =? 0 then None
  else Some (Z.to_nat (Z.max 1 (Qfloor (originalCount positions / inject_Z targetCount)))).

(** The [for] loop of [decimateVertices], one iteration per unit of
    [fuel]; [collected] is [newPositions] so far.
    [positions[index], positions[index + 1], positions[index + 2]]
    are read under the guard [index + 2 < positions.length], where they
    are the three elements from [index] on. *)
Fixpoint decimateLoop (fuel : nat) (positions : list A) (step : option nat)
    (i : nat) (collected : list A) : option (list A) :=
  match fuel with
  | O => None
  | S fuel' =>
      if Num.ltb (Num.ofNat i) (originalCount positions) then
        let index := (i * 3)%nat in
        let collected' :=
          if (index + 2 <? length positions)%nat
          then collected ++ take 3 (drop index positions)
          else collected in
        match step with
        | Some s => decimateLoop fuel' positions step (i + s)%nat collected'
        | None => Some collected'
        end
      else Some collected
  end.

(** The array [newPositions] when the loop of [decimateVertices] has
    ended (lines 96 to 110), the loop being bounded by the buffer
    length: every iteration advances [i] by at least one.  [None] is a
    loop that has not ended, which does not happen
    ([newPositions_total]). *)
Definition newPositions (positions : list A) (targetCount : Z) : option (list A) :=
  decimateLoop (S (length positions)) positions
    (decimateStep positions targetCount) 0 [].

(** The 3D points of a flat coordinate array. *)
Fixpoint points (positions : list A) : list (A * A * A) :=
  match positions with
  | x :: y :: z :: rest => (x, y, z) :: points rest
  | _ => []
  end.

End Decimate.


(** ** Every [s]-th point of a list of points *)

Section Stride.

Context {P : Type}.

(** Keeps the first element, then every [s]-th one; [skip] counts the
    elements to pass over before the next one that is kept. *)
Fixpoint strideFrom (s skip : nat) (pts : list P) : list P :=
  match pts with
  | [] => []
  | p :: rest =>
      match skip with
      | O => p :: strideFrom s (s - 1) rest
      | S k => strideFrom s k rest
      end
  end.

End Stride.

(** The flat coordinate array of a list of points. *)
Definition unpoints {A : Type} (pts : list (A * A * A)) : list A :=
  flat_map (fun p => [p.1.1; p.1.2; p.2]) pts.

(** [Math.ceil(a / b)] for integers [a], [b]. *)
Definition ceilDiv (a b : Z) : Z := Qceiling (inject_Z a / inject_Z b).

(** The stride of the decimator on [n] whole points:
    [max(1, floor(n / targetCount))]. *)
Definition stride (n : nat) (targetCount : Z) : Z :=
  Z.max 1 (Z.of_nat n / targetCount).

(** ** The three.js objects the manager works on

    Scene objects are trees held by value, each node carrying the [id]
    three.js gives every [Object3D].  What the code shares between
    objects is kept by identity in the state: [BufferGeometry] objects
    live in a store and a mesh only holds a reference into it, and the
    [parent] link of the root of a tree is looked up by object id. *)

Module Three.

Record Vector3 := mkVector3 { x : Q; y : Q; z : Q }.

(** A [BufferGeometry]: the array of [attributes.position], if the
    attribute exists, and the position array from which
    [computeVertexNormals] last derived the normals, if it ever did. *)
Record BufferGeometry := mkBufferGeometry {
  position : option (list Q);
  normalsOf : option (list Q)
}.

Record Material := mkMaterial {
  isMeshLambertMaterial : bool;
  transparent : bool;
  opacity : Q;
  wireframe : bool
}.

(** [Mesh.material] is absent, one material or an array of materials. *)
Inductive MaterialSlot :=
| NoMaterial
| OneMaterial (m : Material)
| MaterialArray (ms : list Material).

#[local] Unset Elimination Schemes.
Inductive Object3D := mkObject3D {
  id : nat;
  isMesh : bool;                 (* instanceof Mesh *)
  visible : bool;
  geometry : option nat;         (* reference into the geometry store *)
  material : MaterialSlot;
  children : list Object3D
}.
#[local] Set Elimination Schemes.

Definition setVisible (v : bool) (o : Object3D) : Object3D :=
  mkObject3D (id o) (isMesh o) v (geometry o) (material o) (children o).

Definition setMaterial (m : MaterialSlot) (o : Object3D) : Object3D :=
  mkObject3D (id o) (isMesh o) (visible o) (geometry o) m (children o).

Definition setChildren (cs : list Object3D) (o : Object3D) : Object3D :=
  mkObject3D (id o) (isMesh o) (visible o) (geometry o) (material o) cs.

(** The nodes of a tree in the order [traverse] visits them. *)
Fixpoint nodes (o : Object3D) : list Object3D :=
  match o with
  | mkObject3D _ _ _ _ _ cs => o :: flat_map nodes cs
  end.

(** [Object3D.clone()], recursive: a new object with a new id for every
    node.  [Mesh.copy] assigns [geometry] and [material] from the
    source, so a clone refers to the geometry of its source; a material
    array is sliced, which keeps the materials in it.  [next] is the
    next free object id. *)
Fixpoint clone (o : Object3D) (next : nat) : Object3D * nat :=
  match o with
  | mkObject3D _ mesh vis geo mat cs =>
      let '(cs', next') :=
        (fix cloneAll (l : list Object3D) (n : nat) : list Object3D * nat :=
           match l with
           | [] => ([], n)
           | c :: l' =>
               let '(c', n1) := clone c n in
               let '(r, n2) := cloneAll l' n1 in
               (c' :: r, n2)
           end) cs (S next) in
      (mkObject3D next mesh vis geo mat cs', next')
  end.

(** An [LOD] node: [levels] holds, by ascending distance, the distance
    and the object id of each level; [children] the level objects in the
    order they were added. *)
Record LOD := mkLOD {
  lodId : nat;
  lodPosition : Vector3;
  levels : list (Q * nat);
  lodChildren : list Object3D
}.

Definition setLevels (ls : list (Q * nat)) (l : LOD) : LOD :=
  mkLOD (lodId l) (lodPosition l) ls (lodChildren l).

Definition setLodChildren (cs : list Object3D) (l : LOD) : LOD :=
  mkLOD (lodId l) (lodPosition l) (levels l) cs.

Record Camera := mkCamera { cameraPosition : Vector3 }.

(** The insertion of [addLevel]: before the first level that lies
    strictly further away. *)
Fixpoint insertLevel (distance : Q) (object : nat) (ls : list (Q * nat))
    : list (Q * nat) :=
  match ls with
  | [] => [(distance, object)]
  | l :: rest =>
      if Num.ltb distance l.1 then (distance, object) :: ls
      else l :: insertLevel distance object rest
  end.

End Three.

(** ** Configuration *)

Record LODLevel := mkLODLevel {
  distance : Q;
  simplificationRatio : Q;
  visible : bool
}.

Record LODConfig := mkLODConfig {
  levels : list LODLevel;
  autoSwitch : bool;
  distanceThreshold : Q
}.

(** [Partial<LODConfig>]: each key is absent or holds a value of the
    type of the field.  A key that is present with the value
    [undefined], which the type admits unless optional properties are
    exact, is not represented. *)
Record PartialLODConfig := mkPartialLODConfig {
  levels_opt : option (list LODLevel);
  autoSwitch_opt : option bool;
  distanceThreshold_opt : option Q
}.

Definition defaultConfig : LODConfig :=
  mkLODConfig
    [ mkLODLevel 0 1 true;
      mkLODLevel 50 (1 # 2) true;
      mkLODLevel 200 (2 # 10) true;
      mkLODLevel 500 (5 # 100) false ]
    true 1000.

(** [{ ...this.config, ...config }]: the keys present in [partial]
    replace those of [base]. *)
Definition mergeConfig (base : LODConfig) (partial : PartialLODConfig) : LODConfig :=
  mkLODConfig
    (default (levels base) (levels_opt partial))
    (default (autoSwitch base) (autoSwitch_opt partial))
    (default (distanceThreshold base) (distanceThreshold_opt partial)).

(** [IFCModel], of which the manager reads [modelID] and [mesh]. *)
Record IFCModel := mkIFCModel {
  modelID : Z;
  mesh : Three.Object3D
}.

(** ** State, failures and the monad of the methods *)

(** What the methods throw. *)
Inductive JsError :=
| ThreeNotDefined     (* ReferenceError: THREE is not defined *)
| NotAFunction        (* TypeError: child.material.clone is not a function *)
| UndefinedLevel.     (* TypeError: this.config.levels[level] is undefined *)

Inductive ConsoleEntry :=
| WarnLevelFailed (levelIndex : nat) (error : JsError)
                                       (* console.warn of createLODLevel *)
| ErrorAddToItself.                    (* console.error of Object3D.add *)

(** The manager's own fields, [lodObjects] and [config], and the part of
    the heap its methods read and write. *)
Record State := mkState {
  lodObjects : gmap Z Three.LOD;
  config : LODConfig;
  geometries : gmap nat Three.BufferGeometry;
  parents : gmap nat nat;          (* [parent], by object id *)
  disposed : gset nat;             (* geometries that received [dispose()] *)
  nextId : nat;                    (* object id counter of three.js *)
  console : list ConsoleEntry
}.

Definition setLodObjects (m : gmap Z Three.LOD) (s : State) : State :=
  mkState m (config s) (geometries s) (parents s) (disposed s) (nextId s) (console s).

Definition setConfigField (c : LODConfig) (s : State) : State :=
  mkState (lodObjects s) c (geometries s) (parents s) (disposed s) (nextId s) (console s).

Definition setGeometries (g : gmap nat Three.BufferGeometry) (s : State) : State :=
  mkState (lodObjects s) (config s) g (parents s) (disposed s) (nextId s) (console s).

Definition setParents (p : gmap nat nat) (s : State) : State :=
  mkState (lodObjects s) (config s) (geometries s) p (disposed s) (nextId s) (console s).

Definition setDisposed (d : gset nat) (s : State) : State :=
  mkState (lodObjects s) (config s) (geometries s) (parents s) d (nextId s) (console s).

Definition setNextId (n : nat) (s : State) : State :=
  mkState (lodObjects s) (config s) (geometries s) (parents s) (disposed s) n (console s).

Definition logEntry (e : ConsoleEntry) (s : State) : State :=
  mkState (lodObjects s) (config s) (geometries s) (parents s) (disposed s) (nextId s)
    (console s ++ [e]).

Inductive Outcome (T : Type) :=
| Return (v : T)
| Throw (e : JsError).
Arguments Return {T} v.
Arguments Throw {T} e.

(** A method: it returns or throws, and leaves a state either way. *)
Definition M (T : Type) : Type := State -> Outcome T * State.

Definition ret {T} (v : T) : M T := fun s => (Return v, s).

Definition throw {T} (e : JsError) : M T := fun s => (Throw e, s).

Definition bind {T U} (m : M T) (k : T -> M U) : M U :=
  fun s =>
    match m s with
    | (Return v, s') => k v s'
    | (Throw e, s') => (Throw e, s')
    end.

Definition gets {T} (f : State -> T) : M T := fun s => (Return (f s), s).

Definition modify (f : State -> State) : M unit := fun s => (Return tt, f s).

(** [try { body } catch (error) { handler }] *)
Definition tryCatch {T} (body : M T) (handler : JsError -> M T) : M T :=
  fun s =>
    match body s with
    | (Return v, s') => (Return v, s')
    | (Throw e, s') => handler e s'
    end.

Notation "'let*' x := m 'in' k" := (bind m (fun x => k))
  (at level 10, x name, m at level 100, k at level 200).

(** [forEach] over an array, with the index, threading a local value. *)
Fixpoint forEachFrom {T V} (f : V -> T -> nat -> M V) (index : nat)
    (l : list T) (v : V) : M V :=
  match l with
  | [] => ret v
  | a :: rest => let* v' := f v a index in forEachFrom f (S index) rest v'
  end.

(** ** Calls into three.js that touch the state *)

(** [Object3D.traverse(callback)]: the callback on the node itself, then
    the traversal of each child in turn.  The callbacks of this file
    assign fields of the node they are given and leave its children
    alone; [callback] returns the node as it leaves it. *)
Fixpoint traverse (callback : Three.Object3D -> M Three.Object3D)
    (o : Three.Object3D) : M Three.Object3D :=
  match o with
  | Three.mkObject3D _ _ _ _ _ cs =>
      let* o' := callback o in
      let* cs' :=
        (fix each (l : list Three.Object3D) : M (list Three.Object3D) :=
           match l with
           | [] => ret []
           | c :: l' =>
               let* c' := traverse callback c in
               let* r := each l' in
               ret (c' :: r)
           end) cs in
      ret (Three.setChildren cs' o')
  end.

(** [originalMesh.clone()] *)
Definition clone (o : Three.Object3D) : M Three.Object3D :=
  fun s =>
    let '(o', next) := Three.clone o (nextId s) in
    (Return o', setNextId next s).

(** [new LOD()]: a node at the origin, without levels. *)
Definition newLOD : M Three.LOD :=
  fun s =>
    (Return (Three.mkLOD (nextId s) (Three.mkVector3 0 0 0) [] []),
     setNextId (S (nextId s)) s).

(** [this.add(object)] on an LOD node: refused for the node itself;
    otherwise the object leaves its present parent, gets this node as
    parent and is appended to the children.  Only LOD nodes have their
    children represented: a parent that is not the LOD node at hand is a
    node of the surrounding scene. *)
Definition add (lod : Three.LOD) (object : Three.Object3D) : M Three.LOD :=
  if (Three.id object =? Three.lodId lod)%nat then
    let* _ := modify (logEntry ErrorAddToItself) in
    ret lod
  else
    let* parent := gets (fun s => parents s !! Three.id object) in
    let kept :=
      match parent with
      | Some p =>
          if (p =? Three.lodId lod)%nat
          then filter (fun c => Three.id c <> Three.id object) (Three.lodChildren lod)
          else Three.lodChildren lod
      | None => Three.lodChildren lod
      end in
    let* _ := modify (fun s =>
      setParents (<[Three.id object := Three.lodId lod]> (parents s)) s) in
    ret (Three.setLodChildren (kept ++ [object]) lod).

(** [lodObject.addLevel(object, distance)] *)
Definition addLevel (lod : Three.LOD) (object : Three.Object3D) (distance : Q)
    : M Three.LOD :=
  let distance := Qabs distance in
  let lod :=
    Three.setLevels
      (Three.insertLevel distance (Three.id object) (Three.levels lod)) lod in
  add lod object.

(** [parent.add(lodObject)], for the parent [p] of the original mesh. *)
Definition addTo (p : nat) (lod : Three.LOD) : M Three.LOD :=
  if (Three.lodId lod =? p)%nat then
    let* _ := modify (logEntry ErrorAddToItself) in
    ret lod
  else
    let* _ := modify (fun s =>
      setParents (<[Three.lodId lod := p]> (parents s)) s) in
    ret lod.

(** [object.removeFromParent()], where [lod] is the LOD node at hand. *)
Definition removeFromParent (object : Three.Object3D) (lod : Three.LOD)
    : M Three.LOD :=
  let* parent := gets (fun s => parents s !! Three.id object) in
  match parent with
  | None => ret lod
  | Some p =>
      let* _ := modify (fun s => setParents (delete (Three.id object) (parents s)) s) in
      if (p =? Three.lodId lod)%nat
      then ret (Three.setLodChildren
                  (filter (fun c => Three.id c <> Three.id object)
                     (Three.lodChildren lod)) lod)
      else ret lod
  end.

(** [lodObject.removeFromParent()] *)
Definition detach (lod : Three.LOD) : State -> State :=
  fun s => setParents (delete (Three.lodId lod) (parents s)) s.

(** ** The methods of [LODManager] *)

(** [constructor(config?)] *)
Definition constructor (update : option PartialLODConfig) : State -> State :=
  fun heap =>
    let this := setConfigField defaultConfig (setLodObjects ∅ heap) in
    match update with
    | Some update => setConfigField (mergeConfig (config this) update) this
    | None => this
    end.

(** [decimateVertices]: the loop, and then
    [return new THREE.BufferAttribute(new Float32Array(newPositions), 3)],
    where the evaluation of [THREE] throws before an array or an
    attribute is made. *)
Definition decimateVertices {A : Type} (positions : list A) (targetCount : Z)
    : M (list A) :=
  match newPositions positions targetCount with
  | Some newPositions => throw ThreeNotDefined
  | None => ret []      (* a loop that has not ended: [newPositions_total] *)
  end.

(** [Math.max(3, Math.floor(originalCount * ratio))] *)
Definition targetCountOf (positions : list Q) (ratio : Q) : Z :=
  Z.max 3 (Qfloor (Num.mul (originalCount positions) ratio)).

(** [geometry.setAttribute('position', simplified)] followed by
    [geometry.computeVertexNormals()] on the geometry [g]. *)
Definition replacePositions (g : nat) (simplified : list Q) : M unit :=
  modify (fun s =>
    setGeometries
      (<[g := Three.mkBufferGeometry (Some simplified) (Some simplified)]>
         (geometries s)) s).

(** The callback of [simplifyGeometry]. *)
Definition simplifyChild (ratio : Q) (child : Three.Object3D) : M Three.Object3D :=
  if Three.isMesh child then
    match Three.geometry child with
    | Some g =>
        let* geometry := gets (fun s => geometries s !! g) in
        match geometry ≫= Three.position with
        | Some positions =>
            let targetCount := targetCountOf positions ratio in
            if Num.ltb (inject_Z targetCount) (originalCount positions) then
              let* simplified := decimateVertices positions targetCount in
              let* _ := replacePositions g simplified in
              ret child
            else ret child
        | None => ret child
        end
    | None => ret child
    end
  else ret child.

Definition simplifyGeometry (mesh : Three.Object3D) (ratio : Q) : M unit :=
  let* _ := traverse (simplifyChild ratio) mesh in
  ret tt.

(** The callback of [adjustMaterial].  An array has no [clone] method, so
    [child.material.clone()] on a material array is a [TypeError].  The
    node is returned with the material assigned to it. *)
Definition adjustChild (levelIndex : nat) (child : Three.Object3D)
    : M Three.Object3D :=
  let alpha := Num.max (3 # 10) (1 - Num.ofNat levelIndex * (2 # 10)) in
  if Three.isMesh child then
    match Three.material child with
    | Three.NoMaterial => ret child
    | Three.MaterialArray _ => throw NotAFunction
    | Three.OneMaterial m =>
        let material :=
          if Three.isMeshLambertMaterial m then
            Three.mkMaterial true (0 <? levelIndex)%nat alpha
              (if (2 <? levelIndex)%nat then true else Three.wireframe m)
          else m in
        ret (Three.setMaterial (Three.OneMaterial material) child)
    end
  else ret child.

(** The mesh is the clone that [createLODLevel] has just made and drops
    when this method throws; what the method has assigned to the nodes it
    visited before it threw is dropped with it. *)
Definition adjustMaterial (mesh : Three.Object3D) (levelIndex : nat)
    : M Three.Object3D :=
  traverse (adjustChild levelIndex) mesh.

(** The [try] block of [createLODLevel]. *)
Definition createLODLevelBody (originalMesh : Three.Object3D) (level : LODLevel)
    (levelIndex : nat) : M (option Three.Object3D) :=
  let* levelMesh := clone originalMesh in
  let* _ :=
    if Num.ltb (simplificationRatio level) 1 && (0 <? levelIndex)%nat
    then simplifyGeometry levelMesh (simplificationRatio level)
    else ret tt in
  let* levelMesh := adjustMaterial levelMesh levelIndex in
  ret (Some levelMesh).

Definition createLODLevel (originalMesh : Three.Object3D) (level : LODLevel)
    (levelIndex : nat) : M (option Three.Object3D) :=
  if negb (visible level) then ret None
  else
    tryCatch (createLODLevelBody originalMesh level levelIndex)
      (fun error =>
         let* _ := modify (logEntry (WarnLevelFailed levelIndex error)) in
         ret (if (levelIndex =? 0)%nat then Some originalMesh else None)).

Definition removeLODForModel (modelID : Z) : M unit :=
  let* lodObject := gets (fun s => lodObjects s !! modelID) in
  match lodObject with
  | Some lodObject =>
      let* _ := modify (detach lodObject) in
      modify (fun s => setLodObjects (delete modelID (lodObjects s)) s)
  | None => ret tt
  end.

Definition createLODForModel (model : IFCModel) (camera : Three.Camera) : M unit :=
  let* managed := gets (fun s => lodObjects s !! modelID model) in
  let* _ := if managed is Some _ then removeLODForModel (modelID model) else ret tt in
  let* lodObject := newLOD in
  let originalMesh := mesh model in
  let* levels := gets (fun s => levels (config s)) in
  let* lodObject :=
    forEachFrom
      (fun lodObject level index =>
         let* levelMesh := createLODLevel originalMesh level index in
         match levelMesh with
         | Some levelMesh => addLevel lodObject levelMesh (distance level)
         | None => ret lodObject
         end) 0 levels lodObject in
  let* parent := gets (fun s => parents s !! Three.id originalMesh) in
  let* lodObject :=
    match parent with
    | Some p => addTo p lodObject
    | None => ret lodObject
    end in
  let* lodObject := removeFromParent originalMesh lodObject in
  modify (fun s => setLodObjects (<[modelID model := lodObject]> (lodObjects s)) s).

(** [array[index]] for a number [index]: the element at an index that
    is a whole number within the bounds, [undefined] at any other
    number. *)
Definition elementAt {T : Type} (array : list T) (index : Q) : option T :=
  if Num.isInteger index && Num.geb index 0
  then array !! Z.to_nat (Qfloor index)
  else None.

(** [level] is any finite number; [NaN] and the infinities fail the
    test of the range as a number out of the range does. *)
Definition setLODLevel (modelID : Z) (level : Q) : M unit :=
  let* lodObject := gets (fun s => lodObjects s !! modelID) in
  match lodObject with
  | None => ret tt
  | Some lodObject =>
      let* levels := gets (fun s => levels (config s)) in
      if Num.geb level 0 && Num.ltb level (Num.ofNat (length levels)) then
        match elementAt levels level with
        | None => throw UndefinedLevel
        | Some levelSpec =>
            let distance := distance levelSpec in
            let children :=
              imap (fun index child =>
                      Three.setVisible (Qeq_bool (Num.ofNat index) level) child)
                (Three.lodChildren lodObject) in
            modify (fun s =>
              setLodObjects
                (<[modelID := Three.setLodChildren children lodObject]>
                   (lodObjects s)) s)
        end
      else ret tt
  end.

(** The loop of [getCurrentLODLevel], from index [i - 1] down to [0]. *)
Fixpoint scanLevels (levels : list LODLevel) (d : Q) (i : nat) : nat :=
  match i with
  | O => O
  | S j =>
      match levels !! j with
      | Some level =>
          if Num.geb d (distance level) then j
          else scanLevels levels d j
      | None => scanLevels levels d j
      end
  end.

Section Distance.

(** [Vector3.distanceTo] of three.js, the Euclidean distance. *)
Variable distanceTo : Three.Vector3 -> Three.Vector3 -> Q.

Definition getCurrentLODLevel (modelID : Z) (camera : Three.Camera) : M nat :=
  let* lodObject := gets (fun s => lodObjects s !! modelID) in
  match lodObject with
  | None => ret O
  | Some lodObject =>
      let d := distanceTo (Three.cameraPosition camera) (Three.lodPosition lodObject) in
      let* levels := gets (fun s => levels (config s)) in
      ret (scanLevels levels d (length levels))
  end.

End Distance.

(** [byLevel[index] += memory].  An entry that is not a number (a hole
    of the array, or [NaN]) is [None]: reading it and adding to it gives
    [NaN].  Past the end the array grows up to [index]. *)
Definition addAt (index : nat) (memory : Z) (byLevel : list (option Z))
    : list (option Z) :=
  if (index <? length byLevel)%nat
  then alter (fmap (fun b => b + memory)) index byLevel
  else byLevel ++ replicate (index - length byLevel) None ++ [None].

(** [positions ? positions.array.byteLength : 0], four bytes to a
    [Float32Array] element. *)
Definition byteLength (geometry : option Three.BufferGeometry) : Z :=
  match geometry ≫= Three.position with
  | Some array => 4 * Z.of_nat (length array)
  | None => 0
  end.

(** One [lodObject] of the outer [forEach] of [getMemoryUsage]. *)
Fixpoint memoryOfChildren (store : gmap nat Three.BufferGeometry)
    (children : list Three.Object3D) (index : nat)
    (acc : Z * list (option Z)) : Z * list (option Z) :=
  match children with
  | [] => acc
  | child :: rest =>
      let acc' :=
        if Three.isMesh child then
          match Three.geometry child with
          | Some g =>
              let memory := byteLength (store !! g) in
              (acc.1 + memory, addAt index memory acc.2)
          | None => acc
          end
        else acc in
      memoryOfChildren store rest (S index) acc'
  end.

(** Returns [(total, byLevel)].  The registry is folded in the order of
    its keys; the sums do not depend on the order. *)
Definition getMemoryUsage : M (Z * list (option Z)) :=
  gets (fun s =>
    map_fold
      (fun _ lodObject acc =>
         memoryOfChildren (geometries s) (Three.lodChildren lodObject) 0 acc)
      (0, replicate (length (levels (config s))) (Some 0))
      (lodObjects s)).

Definition setConfig (update : PartialLODConfig) : M unit :=
  modify (fun s => setConfigField (mergeConfig (config s) update) s).

Definition getConfig : M LODConfig := gets config.

(** One [lodObject] of the [forEach] of [dispose]: [geometry.dispose()]
    on every mesh child, then [removeFromParent()].  Disposing of a
    material frees renderer resources only and leaves no trace here. *)
Definition disposeLOD (lodObject : Three.LOD) (s : State) : State :=
  let released :=
    flat_map
      (fun child =>
         if Three.isMesh child then option_list (Three.geometry child) else [])
      (Three.lodChildren lodObject) in
  detach lodObject (setDisposed (list_to_set released ∪ disposed s) s).

(** The registry is folded in the order of its keys; what [disposeLOD]
    does for one node does not depend on the others. *)
Definition dispose : M unit :=
  modify (fun s =>
    setLodObjects ∅ (map_fold (fun _ => disposeLOD) s (lodObjects s))).

(** ** Concrete data for the examples *)

(** A distance for the examples: the Euclidean distance rounded down to a
    multiple of the denominator of its square, exact where that square is
    the square of an integer. *)
Definition exampleDistanceTo (a b : Three.Vector3) : Q :=
  let dx := (Three.x a - Three.x b)%Q in
  let dy := (Three.y a - Three.y b)%Q in
  let dz := (Three.z a - Three.z b)%Q in
  let sq := (dx * dx + dy * dy + dz * dz)%Q in
  Z.sqrt (Qnum sq * Zpos (Qden sq)) # Qden sq.

Definition lambert : Three.Material := Three.mkMaterial true false 1 false.

(** [n] points [(k, k, k)], [k] from [0]. *)
Definition diagonal (n : nat) : list Q :=
  flat_map (fun k => [Num.ofNat k; Num.ofNat k; Num.ofNat k]) (seq 0 n).

(** A heap holding one geometry, number [7], of twelve points, and a
    manager with the default configuration. *)
Definition sceneState : State :=
  mkState ∅ defaultConfig
    {[ 7%nat := Three.mkBufferGeometry (Some (diagonal 12)) None ]}
    {[ 1%nat := 0%nat ]} ∅ 100 [].

(** The mesh of model [42]: object [1], a child of the scene node [0],
    with geometry [7] and one Lambert material. *)
Definition exampleMesh : Three.Object3D :=
  Three.mkObject3D 1 true true (Some 7%nat) (Three.OneMaterial lambert) [].

Definition exampleModel : IFCModel := mkIFCModel 42 exampleMesh.

(** The same mesh with an array of materials. *)
Definition multiMaterialMesh : Three.Object3D :=
  Three.mkObject3D 1 true true (Some 7%nat) (Three.MaterialArray [lambert; lambert]) [].

Definition multiMaterialModel : IFCModel := mkIFCModel 42 multiMaterialMesh.

Definition cameraAt (x : Q) : Three.Camera :=
  Three.mkCamera (Three.mkVector3 x 0 0).

(** ** Notions used to state the properties *)

(** Level [i] of [levels] qualifies at distance [d] when its threshold is
    at most [d]; with [enabledOnly], only an enabled level qualifies. *)
Definition qualifies (enabledOnly : bool) (levels : list LODLevel) (d : Q)
    (i : nat) : Prop :=
  exists level,
    levels !! i = Some level /\
    (distance level <= d)%Q /\
    (enabledOnly = true -> visible level = true).

(** [r] is the highest qualifying index, or [0] when no level qualifies. *)
Definition highestQualifying (enabledOnly : bool) (levels : list LODLevel)
    (d : Q) (r : nat) : Prop :=
  (qualifies enabledOnly levels d r /\
   forall j, (r < j)%nat -> ~ qualifies enabledOnly levels d j)
  \/ (r = O /\ forall j, ~ qualifies enabledOnly levels d j).

(** The property C1 asks of a query: it returns the highest enabled
    qualifying level of a managed model, and [0] for an unmanaged one. *)
Definition returnsHighestEnabled
    (distanceTo : Three.Vector3 -> Three.Vector3 -> Q)
    (modelID : Z) (camera : Three.Camera) (s : State) : Prop :=
  exists r,
    (getCurrentLODLevel distanceTo modelID camera s).1 = Return r /\
    match lodObjects s !! modelID with
    | None => r = O
    | Some lodObject =>
        highestQualifying true (levels (config s))
          (distanceTo (Three.cameraPosition camera) (Three.lodPosition lodObject)) r
    end.

(** A count of points lies within one stride of the target. *)
Definition withinOneStride (count targetCount step : Z) : Prop :=
  Z.abs (count - targetCount) <= step.

(** What C2 asks of the decimator on [n] whole points: it returns a
    sequence with a count within one stride of the target, a subsequence
    of the input. *)
Definition nearTargetSubsample {A} (positions : list A) (n : nat)
    (targetCount : Z) (s : State) : Prop :=
  exists out,
    (decimateVertices positions targetCount s).1 = Return out /\
    withinOneStride (Z.of_nat (length (points out))) targetCount
      (stride n targetCount) /\
    sublist (points out) (points positions).

(** The child at position [level] is visible and no other child is. *)
Definition showsOnly (level : Z) (children : list Three.Object3D) : Prop :=
  (exists child,
     children !! Z.to_nat level = Some child /\ Three.visible child = true) /\
  forall i child,
    children !! i = Some child -> Z.of_nat i <> level ->
    Three.visible child = false.

(** What [setLODLevel] is to do when a level count [levelCount] bounds the
    valid indices: nothing for an unmanaged model or an index out of
    range, and otherwise show the level at that index alone. *)
Definition setLevelShowsOnly (levelCount : Z) (modelID level : Z) (s : State)
    : Prop :=
  let s' := (setLODLevel modelID (inject_Z level) s).2 in
  match lodObjects s !! modelID with
  | None => s' = s
  | Some _ =>
      if (0 <=? level) && (level <? levelCount)
      then exists lodObject,
             lodObjects s' !! modelID = Some lodObject /\
             showsOnly level (Three.lodChildren lodObject)
      else s' = s
  end.

(** The geometry reference a node offers to [simplifyGeometry]. *)
Definition meshGeometry (child : Three.Object3D) : option nat :=
  if Three.isMesh child then Three.geometry child else None.

(** The geometry [after] is [before] decimated at [ratio]: the position
    buffer replaced by what the decimator collects, the normals
    recomputed from it. *)
Definition decimatedAt (ratio : Q) (before after : Three.BufferGeometry) : Prop :=
  exists positions simplified,
    Three.position before = Some positions /\
    newPositions positions (targetCountOf positions ratio) = Some simplified /\
    Three.position after = Some simplified /\
    Three.normalsOf after = Some simplified.

(** The number of registry entries for [modelID]. *)
Definition entriesFor (modelID : Z) (s : State) : nat :=
  length (filter (fun entry => entry.1 = modelID) (map_to_list (lodObjects s))).

(** The state a method leaves. *)
Definition after {T} (m : M T) (s : State) : State := (m s).2.

(** The state after registering the example model in [sceneState]. *)
Definition registeredState : State :=
  after (createLODForModel exampleModel (cameraAt 0)) sceneState.

(** A heap with one triangle, geometry [7], without computed normals. *)
Definition triangleState : State :=
  mkState ∅ defaultConfig
    {[ 7%nat := Three.mkBufferGeometry (Some (diagonal 3)) None ]}
    {[ 1%nat := 0%nat ]} ∅ 100 [].

(** A method leaves [f] of the state as it found it. *)
Definition preserves {T V} (f : State -> V) (m : M T) : Prop :=
  forall s, f (after m s) = f s.

(** A method never throws. *)
Definition returns {T} (m : M T) : Prop :=
  forall s, exists v, (m s).1 = Return v.

(** The geometry of [originalMesh] comes out of [createLODLevel]
    decimated at the ratio of the level. *)
Definition levelDecimated (originalMesh : Three.Object3D) (level : LODLevel)
    (levelIndex : nat) (s : State) : Prop :=
  exists g before after',
    meshGeometry originalMesh = Some g /\
    geometries s !! g = Some before /\
    geometries (after (createLODLevel originalMesh level levelIndex) s) !! g
    = Some after' /\
    decimatedAt (simplificationRatio level) before after'.

(** Level 1 of the default configuration. *)
Definition halfLevel : LODLevel := mkLODLevel 50 (1 # 2) true.

(** [createLODForModel] from [new LOD()] to the last
    [removeFromParent()]: the LOD node that is then registered. *)
Definition buildLOD (model : IFCModel) : M Three.LOD :=
  let* lodObject := newLOD in
  let originalMesh := mesh model in
  let* levels := gets (fun s => levels (config s)) in
  let* lodObject :=
    forEachFrom
      (fun lodObject level index =>
         let* levelMesh := createLODLevel originalMesh level index in
         match levelMesh with
         | Some levelMesh => addLevel lodObject levelMesh (distance level)
         | None => ret lodObject
         end) 0 levels lodObject in
  let* parent := gets (fun s => parents s !! Three.id originalMesh) in
  let* lodObject :=
    match parent with
    | Some p => addTo p lodObject
    | None => ret lodObject
    end in
  removeFromParent originalMesh lodObject.

(** Registrations and removals, to be run in sequence. *)
Inductive Operation :=
| Register (model : IFCModel) (camera : Three.Camera)
| Unregister (modelID : Z).

Definition runOperation (op : Operation) (s : State) : State :=
  match op with
  | Register model camera => after (createLODForModel model camera) s
  | Unregister modelID => after (removeLODForModel modelID) s
  end.

Definition runOperations (ops : list Operation) (s : State) : State :=
  fold_left (fun s op => runOperation op s) ops s.

(** ** Notions used by the further properties *)

(** The buffer cut back to its whole points: what is left when the one
    or two stray coordinates at the end are dropped. *)
Definition wholePoints {A : Type} (positions : list A) : list A :=
  unpoints (points positions).

Definition isMaterialArray (m : Three.MaterialSlot) : bool :=
  match m with
  | Three.MaterialArray _ => true
  | _ => false
  end.

(** Some mesh of the tree carries an array of materials. *)
Definition hasMaterialArray (o : Three.Object3D) : bool :=
  existsb (fun child => Three.isMesh child && isMaterialArray (Three.material child))
    (Three.nodes o).

(** A node as [adjustMaterial] at [levelIndex] leaves it: the Lambert
    material of a mesh gets the look of the level, and nothing else
    changes. *)
Definition adjustedNode (levelIndex : nat) (before after : Three.Object3D) : Prop :=
  Three.id after = Three.id before /\
  Three.isMesh after = Three.isMesh before /\
  Three.visible after = Three.visible before /\
  Three.geometry after = Three.geometry before /\
  match Three.material before with
  | Three.OneMaterial m =>
      if Three.isMesh before && Three.isMeshLambertMaterial m then
        exists m',
          Three.material after = Three.OneMaterial m' /\
          Three.isMeshLambertMaterial m' = true /\
          Three.transparent m' = (0 <? levelIndex)%nat /\
          Three.opacity m'
          = Num.max (3 # 10) (1 - Num.ofNat levelIndex * (2 # 10)) /\
          Three.wireframe m' = (2 <? levelIndex)%nat || Three.wireframe m
      else Three.material after = Three.material before
  | _ => Three.material after = Three.material before
  end.

(** The callback of the [forEach] of [createLODForModel]. *)
Definition registerLevel (originalMesh : Three.Object3D)
    (lodObject : Three.LOD) (level : LODLevel) (index : nat) : M Three.LOD :=
  let* levelMesh := createLODLevel originalMesh level index in
  match levelMesh with
  | Some levelMesh => addLevel lodObject levelMesh (distance level)
  | None => ret lodObject
  end.

(** A node and a copy of it: the same kind, visibility, geometry and
    material. *)
Definition sameFields (a b : Three.Object3D) : Prop :=
  Three.isMesh b = Three.isMesh a /\
  Three.visible b = Three.visible a /\
  Three.geometry b = Three.geometry a /\
  Three.material b = Three.material a.

(** A node and the node of a level made from it: the same kind and
    visibility, and a reference to the same geometry. *)
Definition sameGeometry (a c : Three.Object3D) : Prop :=
  Three.isMesh c = Three.isMesh a /\
  Three.visible c = Three.visible a /\
  Three.geometry c = Three.geometry a.

(** A level instance made from [originalMesh]: node for node the same
    tree, each node referring to the geometry of the node it was made
    from. *)
Definition levelInstanceOf (originalMesh levelMesh : Three.Object3D) : Prop :=
  Forall2 sameGeometry (Three.nodes originalMesh) (Three.nodes levelMesh).

(** The number of enabled levels of a configuration. *)
Definition enabledCount (levels : list LODLevel) : nat :=
  length (filter (fun level => visible level = true) levels).

(** The end of [createLODForModel]: the LOD node is added to the parent
    of the original mesh, and the original mesh removed from its
    parent. *)
Definition placeInScene (originalMesh : Three.Object3D) (lodObject : Three.LOD)
    : M Three.LOD :=
  let* parent := gets (fun s => parents s !! Three.id originalMesh) in
  let* lodObject :=
    match parent with
    | Some p => addTo p lodObject
    | None => ret lodObject
    end in
  removeFromParent originalMesh lodObject.

(** An LOD node with two levels, both meshes on geometry [7]. *)
Definition exampleLOD : Three.LOD :=
  Three.mkLOD 100 (Three.mkVector3 0 0 0) [(0%Q, 101%nat); (50%Q, 102%nat)]
    [ Three.mkObject3D 101 true true (Some 7%nat) (Three.OneMaterial lambert) [];
      Three.mkObject3D 102 true true (Some 7%nat) (Three.OneMaterial lambert) [] ].

(** [sceneState] with model [42] managed by [exampleLOD]. *)
Definition managedState : State :=
  setLodObjects {[ 42 := exampleLOD ]} sceneState.

(** The sum of the entries of [byLevel]. *)
Definition sumList (l : list Z) : Z := foldr Z.add 0 l.

(** Two nodes that differ in their [visible] flag at most. *)
Definition sameButVisible (a b : Three.Object3D) : Prop :=
  b = Three.setVisible (Three.visible b) a.

(** The sums kept by [getMemoryUsage]: a total and, for every level,
    a number, the total being the sum of these. *)
Definition balanced (n : nat) (acc : Z * list (option Z)) : Prop :=
  exists byLevel,
    acc = (sumList byLevel, Some <$> byLevel) /\
    length byLevel = n /\
    Forall (fun b => 0 <= b) byLevel.

(** From index [n] on, every entry of [byLevel] is a hole or [NaN]. *)
Definition notNumbersFrom (n : nat) (byLevel : list (option Z)) : Prop :=
  forall i, (n <= i)%nat -> (i < length byLevel)%nat -> byLevel !! i = Some None.

(** [managedState] after the levels were cut down to the first one. *)
Definition oneLevelState : State :=
  after (setConfig (mkPartialLODConfig (Some [mkLODLevel 0 1 true]) None None))
    managedState.

(** The simplification at [ratio] reaches the decimator at this node: a
    mesh whose geometry has a position buffer with
    [targetCount < originalCount]. *)
Definition decimates (ratio : Q) (store : gmap nat Three.BufferGeometry)
    (child : Three.Object3D) : bool :=
  match meshGeometry child with
  | Some g =>
      match store !! g ≫= Three.position with
      | Some positions =>
          Num.ltb (inject_Z (targetCountOf positions ratio)) (originalCount positions)
      | None => false
      end
  | None => false
  end.

(** The simplification of the tree at [ratio] reaches the decimator. *)
Definition needsDecimation (ratio : Q) (store : gmap nat Three.BufferGeometry)
    (o : Three.Object3D) : bool :=
  existsb (decimates ratio store) (Three.nodes o).

(** The level takes the simplification step. *)
Definition reduces (level : LODLevel) (index : nat) : bool :=
  Num.ltb (simplificationRatio level) 1 && (0 <? index)%nat.

(** The error that ends the [try] block of [createLODLevel], if one
    does: that of the decimator, or else that of a material array. *)
Definition levelError (originalMesh : Three.Object3D)
    (store : gmap nat Three.BufferGeometry) (level : LODLevel) (index : nat)
    : option JsError :=
  if reduces level index
     && needsDecimation (simplificationRatio level) store originalMesh
  then Some ThreeNotDefined
  else if hasMaterialArray originalMesh then Some NotAFunction
  else None.

(** The level is enabled and its [try] block ends without an error. *)
Definition builds (originalMesh : Three.Object3D)
    (store : gmap nat Three.BufferGeometry) (level : LODLevel) (index : nat)
    : bool :=
  visible level && bool_decide (levelError originalMesh store level index = None).

(** The levels, from [index] on, that are enabled and whose [try] block
    ends without an error, in their order. *)
Fixpoint builtFrom (originalMesh : Three.Object3D)
    (store : gmap nat Three.BufferGeometry) (index : nat)
    (levels : list LODLevel) : list LODLevel :=
  match levels with
  | [] => []
  | level :: rest =>
      (if builds originalMesh store level index then [level] else [])
      ++ builtFrom originalMesh store (S index) rest
  end.

(** The warnings of the levels from [index] on: one for every enabled
    level whose [try] block ends with an error. *)
Fixpoint warningsFrom (originalMesh : Three.Object3D)
    (store : gmap nat Three.BufferGeometry) (index : nat)
    (levels : list LODLevel) : list ConsoleEntry :=
  match levels with
  | [] => []
  | level :: rest =>
      (if visible level then
         match levelError originalMesh store level index with
         | Some error => [WarnLevelFailed index error]
         | None => []
         end
       else [])
      ++ warningsFrom originalMesh store (S index) rest
  end.

(** [LOD.levels] after [addLevel] for each level and its instance in
    turn. *)
Definition levelsAdded (entries : list (LODLevel * Three.Object3D))
    (ls : list (Q * nat)) : list (Q * nat) :=
  fold_left
    (fun ls entry =>
       Three.insertLevel (Qabs (distance entry.1)) (Three.id entry.2) ls)
    entries ls.

(** [sceneState] with three enabled levels, of which the one in the
    middle halves the geometry and the last keeps it whole. *)
Definition gapState : State :=
  setConfigField
    (mkLODConfig
       [ mkLODLevel 0 1 true; mkLODLevel 50 (1 # 2) true; mkLODLevel 200 1 true ]
       true 1000)
    sceneState.

(** * Theorems *)

Example decimate_6_by_3 :
  newPositions [1; 2; 3; 4; 5; 6; 7; 8; 9; 10; 11; 12; 13; 14; 15; 16; 17; 18] 3
  = Some [1; 2; 3; 7; 8; 9; 13; 14; 15].
Proof. reflexivity. Qed.

Example decimate_5_by_3 :
  newPositions [1; 2; 3; 4; 5; 6; 7; 8; 9; 10; 11; 12; 13; 14; 15] 3
  = Some [1; 2; 3; 4; 5; 6; 7; 8; 9; 10; 11; 12; 13; 14; 15].
Proof. reflexivity. Qed.

Example decimate_ragged :
  newPositions [1; 2; 3; 4; 5; 6; 7; 8; 9; 10] 1 = Some [1; 2; 3].
Proof. vm_compute. reflexivity. Qed.

(** ** Properties of the decimator *)

Section DecimateFacts.

Context {A : Type}.
Implicit Types (positions : list A) (n s i fuel : nat).

Lemma ltb_originalCount positions i :
  Num.ltb (Num.ofNat i) (originalCount positions)
  = (3 * i <? length positions)%nat.
Proof.
  unfold Num.ltb, Num.ofNat, originalCount.
  destruct (3 * i <? length positions)%nat eqn:E.
  - apply Nat.ltb_lt in E. apply negb_true_iff.
    destruct (Qle_bool _ _) eqn:F; [|done].
    apply Qle_bool_iff in F. unfold Qle, Qdiv, Qmult, Qinv in F. simpl in F. lia.
  - apply Nat.ltb_ge in E. apply negb_false_iff.
    apply Qle_bool_iff. unfold Qle, Qdiv, Qmult, Qinv. simpl. lia.
Qed.

Lemma floor_originalCount positions (t : Z) :
  0 < t ->
  Qfloor (originalCount positions / inject_Z t)
  = Z.of_nat (length positions) / (3 * t).
Proof.
  intros Ht. rewrite Zdiv_Qdiv. apply Qfloor_comp.
  unfold originalCount, Num.ofNat. rewrite inject_Z_mult.
  field. intros H. apply (inject_Z_injective t 0) in H. lia.
Qed.

Lemma decimateStep_pos positions (t : Z) :
  0 < t ->
  decimateStep positions t
  = Some (Z.to_nat (Z.max 1 (Z.of_nat (length positions) / (3 * t)))).
Proof.
  intros Ht. unfold decimateStep.
  destruct (Z.eqb_spec t 0) as [->|_]; [lia|].
  by rewrite floor_originalCount.
Qed.

Lemma points_unpoints (pts : list (A * A * A)) : points (unpoints pts) = pts.
Proof.
  induction pts as [|[[x y] z] pts IH]; simpl; [done|]. by rewrite IH.
Qed.

Lemma triples_inv positions n :
  length positions = (3 * n)%nat ->
  (positions = [] /\ n = O) \/
  exists x y z rest m,
    positions = x :: y :: z :: rest /\ n = S m /\ length rest = (3 * m)%nat.
Proof.
  intros H. destruct positions as [|x [|y [|z rest]]]; simpl in H.
  - left. split; [done|lia].
  - lia.
  - lia.
  - right. destruct n as [|m]; [lia|]. exists x, y, z, rest, m.
    repeat split. lia.
Qed.


Lemma points_length positions n :
  length positions = (3 * n)%nat -> length (points positions) = n.
Proof.
  revert positions. induction n as [|n IH]; intros positions H.
  - destruct positions; [done|simpl in H; lia].
  - destruct (triples_inv _ _ H) as [[_ ?]|(x & y & z & rest & m & -> & Hm & Hr)];
      [lia|].
    simpl. f_equal. apply IH. lia.
Qed.

Lemma unpoints_length (pts : list (A * A * A)) :
  length (unpoints pts) = (3 * length pts)%nat.
Proof. induction pts as [|p pts IH]; simpl; [done|]. rewrite IH. lia. Qed.

Lemma points_drop positions i :
  points (drop (3 * i) positions) = drop i (points positions).
Proof.
  revert positions. induction i as [|i IH]; intros positions; [done|].
  replace (3 * S i)%nat with (S (S (S (3 * i)))) by lia.
  destruct positions as [|x [|y [|z rest]]]; simpl; done.
Qed.

End DecimateFacts.

Section StrideFacts.

Context {P : Type}.
Implicit Types (pts : list P) (s k : nat).

Lemma strideFrom_skip s k pts :
  strideFrom s k pts = strideFrom s 0 (drop k pts).
Proof.
  revert k. induction pts as [|p rest IH]; intros [|k]; simpl; auto.
Qed.

Lemma strideFrom_sublist s k pts : sublist (strideFrom s k pts) pts.
Proof.
  revert k. induction pts as [|p rest IH]; intros [|k]; simpl;
    constructor; auto.
Qed.

Lemma strideFrom_one pts : strideFrom 1 0 pts = pts.
Proof. induction pts as [|p rest IH]; simpl; [done|]. by rewrite IH. Qed.

Lemma strideFrom_length s pts :
  (1 <= s)%nat ->
  length (strideFrom s 0 pts) = ((length pts + s - 1) / s)%nat.
Proof.
  intros Hs. remember (length pts) as m eqn:Hm.
  revert pts Hm. induction (lt_wf m) as [m _ IH]. intros pts Hm.
  destruct pts as [|p rest]; simpl in *.
  - subst m. symmetry. apply Nat.div_small. lia.
  - rewrite strideFrom_skip.
    rewrite (IH (length (drop (s - 1) rest))) by (rewrite ?length_drop; lia || done).
    rewrite length_drop. subst m.
    replace (S (length rest) + s - 1)%nat with (length rest + 1 * s)%nat by lia.
    rewrite Nat.div_add by lia.
    destruct (le_lt_dec (s - 1) (length rest)) as [Hle|Hlt].
    + replace (length rest - (s - 1) + s - 1)%nat with (length rest) by lia. lia.
    + replace (length rest - (s - 1) + s - 1)%nat with (s - 1)%nat by lia.
      rewrite !Nat.div_small by lia. lia.
Qed.

End StrideFacts.

Section DecimateLoop.

Context {A : Type}.
Implicit Types (positions acc : list A) (n s i fuel : nat).

(** The loop always leaves through its test: the fuel given by
    [newPositions] is never used up. *)
Lemma decimateLoop_terminates positions step fuel i acc :
  (forall s, step = Some s -> (1 <= s)%nat) ->
  (length positions < 3 * i + fuel)%nat -> (1 <= fuel)%nat ->
  is_Some (decimateLoop fuel positions step i acc).
Proof.
  intros Hstep. revert i acc.
  induction fuel as [|fuel IH]; intros i acc Hlen Hfuel; [lia|].
  simpl. rewrite ltb_originalCount.
  destruct (3 * i <? length positions)%nat eqn:E; [|by eexists].
  apply Nat.ltb_lt in E.
  destruct step as [s|]; [|by eexists].
  specialize (Hstep s eq_refl). apply IH; lia.
Qed.

Lemma decimateStep_ge_1 positions (t : Z) s :
  decimateStep positions t = Some s -> (1 <= s)%nat.
Proof.
  unfold decimateStep. destruct (t =? 0); [done|].
  intros [= <-]. lia.
Qed.

Lemma newPositions_total positions (t : Z) :
  is_Some (newPositions positions t).
Proof.
  apply decimateLoop_terminates; [apply decimateStep_ge_1|lia..].
Qed.

(** The method throws once the loop has ended, whatever the loop has
    collected, and leaves the state alone. *)
Lemma decimateVertices_throws positions (t : Z) (s : State) :
  decimateVertices positions t s = (Throw ThreeNotDefined, s).
Proof.
  unfold decimateVertices.
  by destruct (newPositions_total positions t) as [out ->].
Qed.

(** On a buffer of whole points the loop emits every [s]-th point,
    starting with the point at [i]. *)
Lemma decimateLoop_stride positions n s :
  length positions = (3 * n)%nat -> (1 <= s)%nat ->
  forall fuel i acc,
    (n - i < fuel)%nat ->
    decimateLoop fuel positions (Some s) i acc
    = Some (acc ++ unpoints (strideFrom s 0 (drop i (points positions)))).
Proof.
  intros Hlen Hs.
  induction fuel as [|fuel IH]; intros i acc Hfuel; [lia|].
  simpl. rewrite ltb_originalCount.
  destruct (3 * i <? length positions)%nat eqn:E.
  - apply Nat.ltb_lt in E.
    assert (Hg : (i * 3 + 2 <? length positions)%nat = true)
      by (apply Nat.ltb_lt; lia).
    rewrite Hg, IH by lia. f_equal. rewrite <- app_assoc. f_equal.
    replace (i * 3)%nat with (3 * i)%nat by lia.
    replace (i + s)%nat with (S i + (s - 1))%nat by lia.
    rewrite <- drop_drop, <- (points_drop positions i).
    assert (Hd : length (drop (3 * i) positions) = (3 * (n - i))%nat)
      by (rewrite length_drop; lia).
    destruct (triples_inv _ _ Hd)
      as [[_ ?]|(x & y & z & rest & m & Hrest & Hm & Hr)]; [lia|].
    replace (drop (S i) (points positions))
      with (drop 1 (drop i (points positions)))
      by (rewrite drop_drop; f_equal; lia).
    rewrite <- (points_drop positions i), Hrest. simpl.
    by rewrite (strideFrom_skip s (s - 1)).
  - apply Nat.ltb_ge in E.
    rewrite drop_ge by (rewrite (points_length positions n); lia).
    simpl. by rewrite app_nil_r.
Qed.

Lemma newPositions_stride positions n (t : Z) :
  length positions = (3 * n)%nat -> 0 < t ->
  newPositions positions t
  = Some (unpoints (strideFrom (Z.to_nat (Z.max 1 (Z.of_nat n / t))) 0
                      (points positions))).
Proof.
  intros Hlen Ht. unfold newPositions.
  rewrite decimateStep_pos by done.
  rewrite Hlen.
  replace (Z.of_nat (3 * n) / (3 * t)) with (Z.of_nat n / t).
  - rewrite <- Hlen.
    rewrite (decimateLoop_stride positions n) by lia. done.
  - rewrite Nat2Z.inj_mul. change (Z.of_nat 3) with 3.
    rewrite Z.div_mul_cancel_l by lia. done.
Qed.

End DecimateLoop.

Lemma ceilDiv_pos (a b : Z) :
  0 < b -> ceilDiv a b = (a + b - 1) / b.
Proof.
  intros Hb. unfold ceilDiv, Qceiling.
  assert (E : (- (inject_Z a / inject_Z b) == inject_Z (- a) / inject_Z b)%Q).
  { rewrite inject_Z_opp. field. intros H.
    apply (inject_Z_injective b 0) in H. lia. }
  rewrite (Qfloor_comp _ _ E), <- Zdiv_Qdiv.
  apply Z.div_unique with (r := (b - 1) - (- a) mod b).
  - left. pose proof (Z.mod_pos_bound (- a) b Hb). lia.
  - pose proof (Z.div_mod (- a) b ltac:(lia)). nia.
Qed.

Lemma ceilDiv_nat (n s : nat) :
  (1 <= s)%nat ->
  ceilDiv (Z.of_nat n) (Z.of_nat s) = Z.of_nat ((n + s - 1) / s).
Proof.
  intros Hs. rewrite ceilDiv_pos by lia.
  rewrite Nat2Z.inj_div, Nat2Z.inj_sub, Nat2Z.inj_add by lia. done.
Qed.

Lemma ceilDiv_stride_bounds (a t : Z) :
  1 <= t <= a ->
  t <= ceilDiv a (Z.max 1 (a / t)) <= 2 * t - 1.
Proof.
  intros Ht.
  assert (Hq : 1 <= a / t) by (apply Z.div_le_lower_bound; lia).
  rewrite Z.max_r by lia.
  pose proof (Z.mul_div_le a t ltac:(lia)).
  pose proof (Z.mul_succ_div_gt a t ltac:(lia)).
  rewrite ceilDiv_pos by lia.
  set (s := a / t) in *. split.
  - apply Z.div_le_lower_bound; nia.
  - apply Z.lt_succ_r. apply Z.div_lt_upper_bound; nia.
Qed.

Section DecimateClaims.

Context {A : Type}.
Implicit Types (positions out : list A) (n : nat) (targetCount : Z).

Lemma decimate_points positions n targetCount :
  length positions = (3 * n)%nat -> 0 < targetCount ->
  exists out,
    newPositions positions targetCount = Some out /\
    points out
    = strideFrom (Z.to_nat (stride n targetCount)) 0 (points positions) /\
    length out = (3 * length (points out))%nat.
Proof.
  intros Hlen Ht. eexists. split; [by apply newPositions_stride|].
  rewrite points_unpoints. split; [done|]. apply unpoints_length.
Qed.

Lemma decimate_count positions n targetCount out :
  length positions = (3 * n)%nat -> 0 < targetCount ->
  points out
  = strideFrom (Z.to_nat (stride n targetCount)) 0 (points positions) ->
  Z.of_nat (length (points out)) = ceilDiv (Z.of_nat n) (stride n targetCount).
Proof.
  intros Hlen Ht Hpts.
  assert (Hs : (1 <= Z.to_nat (stride n targetCount))%nat)
    by (unfold stride; lia).
  rewrite Hpts, strideFrom_length, (points_length positions n) by done.
  rewrite <- (Z2Nat.id (stride n targetCount)) at 3 by (unfold stride; lia).
  by rewrite ceilDiv_nat.
Qed.

(** C10: on a buffer of [n >= 1] whole points and for [targetCount >= 1],
    the loop of [decimateVertices] collects exactly [ceil(n / step)]
    points, with [step = max(1, floor(n / targetCount))], not none, and
    the first of them is the first point of the input; the method then
    throws at [new THREE.BufferAttribute] and returns nothing. *)
Theorem decimateVertices_count positions n targetCount (s : State) :
  length positions = (3 * n)%nat -> (1 <= n)%nat -> 1 <= targetCount ->
  (exists out,
     newPositions positions targetCount = Some out /\
     Z.of_nat (length (points out)) = ceilDiv (Z.of_nat n) (stride n targetCount) /\
     length out = (3 * length (points out))%nat /\
     out <> [] /\
     head (points out) = head (points positions)) /\
  decimateVertices positions targetCount s = (Throw ThreeNotDefined, s).
Proof.
  intros Hlen Hn Ht. split; [|apply decimateVertices_throws].
  destruct (decimate_points positions n targetCount Hlen) as (out & Hrun & Hpts & Hout);
    [lia|].
  exists out. split; [done|].
  split; [apply (decimate_count positions); by try lia|].
  split; [done|].
  destruct (triples_inv _ _ Hlen)
    as [[_ ?]|(x & y & z & rest & m & -> & Hm & Hr)]; [lia|].
  simpl in Hpts. split.
  - intros ->. simpl in Hpts. discriminate.
  - by rewrite Hpts.
Qed.


(** C2, as amended: for [3 <= targetCount < originalCount] the decimator
    selects exactly [ceil(originalCount / stride)] points.  That count
    lies between [targetCount] and [2 * targetCount - 1] and never
    exceeds [originalCount]; the points selected are a subsequence of the
    input: in the original order and all taken from the input. *)
Theorem decimateVertices_subsample positions n targetCount :
  length positions = (3 * n)%nat -> 3 <= targetCount < Z.of_nat n ->
  exists out,
    newPositions positions targetCount = Some out /\
    Z.of_nat (length (points out)) = ceilDiv (Z.of_nat n) (stride n targetCount) /\
    targetCount <= Z.of_nat (length (points out)) <= 2 * targetCount - 1 /\
    (length (points out) <= n)%nat /\
    sublist (points out) (points positions).
Proof.
  intros Hlen Ht.
  destruct (decimate_points positions n targetCount Hlen)
    as (out & Hrun & Hpts & _); [lia|].
  assert (Hcount := decimate_count positions n targetCount out Hlen
                      ltac:(lia) Hpts).
  exists out. split; [done|]. split; [done|].
  assert (Hsub : sublist (points out) (points positions))
    by (rewrite Hpts; apply strideFrom_sublist).
  split; [|split; [|done]].
  - rewrite Hcount. unfold stride. apply ceilDiv_stride_bounds. lia.
  - rewrite <- (points_length positions n) by done.
    by apply sublist_length.
Qed.

End DecimateClaims.

Lemma decimateVertices_count_witness :
  (exists out,
     newPositions (diagonal 6) 3 = Some out /\
     Z.of_nat (length (points out)) = ceilDiv (Z.of_nat 6) (stride 6 3) /\
     length out = (3 * length (points out))%nat /\
     out <> [] /\
     head (points out) = head (points (diagonal 6))) /\
  decimateVertices (diagonal 6) 3 sceneState = (Throw ThreeNotDefined, sceneState).
Proof.
  apply (decimateVertices_count (diagonal 6) 6 3 sceneState); [reflexivity|lia|lia].
Defined.


(** C2, counterexample: eleven points decimated to a target of six.  The
    stride is 1 and the loop selects all eleven points, five more than
    the target and so not within one stride of it; and the method, which
    throws in the end, returns no sequence at all. *)
Lemma decimate_count_far_from_target :
  length (diagonal 11) = (3 * 11)%nat /\ 3 <= 6 < Z.of_nat 11 /\
  newPositions (diagonal 11) 6 = Some (diagonal 11) /\
  stride 11 6 = 1 /\
  ~ withinOneStride (Z.of_nat (length (points (diagonal 11)))) 6 (stride 11 6) /\
  ~ nearTargetSubsample (diagonal 11) 11 6 sceneState.
Proof.
  split; [reflexivity|]. split; [lia|]. split; [by vm_compute|].
  split; [reflexivity|]. split.
  - vm_compute. intros H. by apply H.
  - intros (out & Hrun & _). by rewrite decimateVertices_throws in Hrun.
Qed.

Lemma decimateVertices_subsample_witness :
  exists out,
    newPositions (diagonal 11) 6 = Some out /\
    Z.of_nat (length (points out)) = ceilDiv (Z.of_nat 11) (stride 11 6) /\
    6 <= Z.of_nat (length (points out)) <= 2 * 6 - 1 /\
    (length (points out) <= 11)%nat /\
    sublist (points out) (points (diagonal 11)).
Proof.
  apply (decimateVertices_subsample (diagonal 11) 11 6); [reflexivity|lia].
Defined.


(** ** Selection of the current level *)

Section CurrentLevel.

Implicit Types (levels : list LODLevel) (d : Q) (i j r : nat).

Lemma geb_qualifies levels d j level :
  levels !! j = Some level ->
  Num.geb d (distance level) = true <-> qualifies false levels d j.
Proof.
  intros Hj. unfold Num.geb. rewrite Qle_bool_iff. split.
  - intros Hle. exists level. by repeat split.
  - intros (level' & Hj' & Hle & _). congruence.
Qed.

Lemma scanLevels_highest levels d i :
  let r := scanLevels levels d i in
  ((r < i)%nat /\ qualifies false levels d r /\
   forall j, (r < j < i)%nat -> ~ qualifies false levels d j)
  \/ (r = O /\ forall j, (j < i)%nat -> ~ qualifies false levels d j).
Proof.
  induction i as [|i IH]; simpl.
  - right. split; [done|]. intros j Hj. lia.
  - assert (Hstep : ~ qualifies false levels d i ->
      let r := scanLevels levels d i in
      ((r < S i)%nat /\ qualifies false levels d r /\
       forall j, (r < j < S i)%nat -> ~ qualifies false levels d j)
      \/ (r = O /\ forall j, (j < S i)%nat -> ~ qualifies false levels d j)).
    { intros Hno. simpl in IH. destruct IH as [(Hr & Hq & Hmax)|[Hr Hnone]].
      - left. split; [lia|]. split; [done|]. intros j Hj.
        destruct (decide (j = i)) as [->|Hne]; [done|]. apply Hmax. lia.
      - right. split; [done|]. intros j Hj.
        destruct (decide (j = i)) as [->|Hne]; [done|]. apply Hnone. lia. }
    destruct (levels !! i) as [level|] eqn:Hi.
    + destruct (Num.geb d (distance level)) eqn:Hge.
      * left. split; [lia|]. split; [by apply (geb_qualifies levels d i level)|].
        intros j Hj. lia.
      * apply Hstep. intros Hq.
        apply (geb_qualifies levels d i level Hi) in Hq. congruence.
    + apply Hstep. intros (level & Hi' & _). congruence.
Qed.

Lemma scanLevels_all levels d :
  highestQualifying false levels d (scanLevels levels d (length levels)).
Proof.
  assert (Hout : forall j, (length levels <= j)%nat -> ~ qualifies false levels d j).
  { intros j Hj (level & Hl & _). apply lookup_lt_Some in Hl. lia. }
  destruct (scanLevels_highest levels d (length levels))
    as [(Hr & Hq & Hmax)|[Hr Hnone]].
  - left. split; [done|]. intros j Hj.
    destruct (le_lt_dec (length levels) j); [by apply Hout|]. apply Hmax. lia.
  - right. split; [done|]. intros j.
    destruct (le_lt_dec (length levels) j); [by apply Hout|]. by apply Hnone.
Qed.

End CurrentLevel.

(** C1, counterexample: with the default configuration, whose level 3 is
    disabled, the query at distance 600 answers 3. *)
Lemma getCurrentLODLevel_disabled_level :
  (getCurrentLODLevel exampleDistanceTo 42 (cameraAt 600) registeredState).1
  = Return 3%nat /\
  ~ returnsHighestEnabled exampleDistanceTo 42 (cameraAt 600) registeredState.
Proof.
  assert (Hquery :
    (getCurrentLODLevel exampleDistanceTo 42 (cameraAt 600) registeredState).1
    = Return 3%nat) by (by vm_compute).
  assert (Hlevel : levels (config registeredState) !! 3%nat
                   = Some (mkLODLevel 500 (5 # 100) false)) by (by vm_compute).
  split; [exact Hquery|].
  intros (r & Hr & H).
  rewrite Hquery in Hr. injection Hr as <-.
  destruct (lodObjects registeredState !! 42) as [lodObject|]; [|done].
  destruct H as [[(level & Hl & _ & Hv) _]|[? _]]; [|done].
  rewrite Hlevel in Hl. injection Hl as <-. by specialize (Hv eq_refl).
Qed.

(** C1, as amended: the query returns the highest index of the configured
    levels, enabled or not, whose threshold is at most the distance from
    the camera to the LOD node of the model, and [0] when the distance is
    below every threshold; it returns [0] for an unmanaged model; and it
    leaves the state as it was. *)
Theorem getCurrentLODLevel_highest
    (distanceTo : Three.Vector3 -> Three.Vector3 -> Q)
    (modelID : Z) (camera : Three.Camera) (s : State) :
  exists r,
    getCurrentLODLevel distanceTo modelID camera s = (Return r, s) /\
    match lodObjects s !! modelID with
    | None => r = O
    | Some lodObject =>
        highestQualifying false (levels (config s))
          (distanceTo (Three.cameraPosition camera) (Three.lodPosition lodObject)) r
    end.
Proof.
  unfold getCurrentLODLevel, bind, gets, ret.
  destruct (lodObjects s !! modelID) as [lodObject|].
  - eexists. split; [done|]. apply scanLevels_all.
  - by exists O.
Qed.

(** ** Manual override *)

Section SetLevel.

Implicit Types (modelID level : Z) (s : State).

Lemma imap_setVisible_lookup (level : Z) (children : list Three.Object3D) i child' :
  imap (fun index child => Three.setVisible (Z.of_nat index =? level) child)
    children !! i = Some child' ->
  exists child,
    children !! i = Some child /\
    child' = Three.setVisible (Z.of_nat i =? level) child.
Proof.
  rewrite list_lookup_imap.
  destruct (children !! i) as [child|]; simpl; [|done].
  intros [= <-]. by exists child.
Qed.

Lemma imap_setVisible_showsOnly (level : Z) (children : list Three.Object3D) :
  0 <= level < Z.of_nat (length children) ->
  showsOnly level
    (imap (fun index child => Three.setVisible (Z.of_nat index =? level) child)
       children).
Proof.
  intros Hlevel. split.
  - destruct (lookup_lt_is_Some_2 children (Z.to_nat level)) as [child Hc]; [lia|].
    exists (Three.setVisible true child). split; [|done].
    rewrite list_lookup_imap, Hc. simpl.
    by rewrite Z2Nat.id, Z.eqb_refl by lia.
  - intros i child' Hi Hne.
    destruct (imap_setVisible_lookup _ _ _ _ Hi) as (child & _ & ->).
    simpl. by apply Z.eqb_neq.
Qed.

Lemma geb_inject_Z (level : Z) : Num.geb (inject_Z level) 0 = (0 <=? level).
Proof.
  unfold Num.geb. destruct (0 <=? level) eqn:E.
  - apply Qle_bool_iff. change 0%Q with (inject_Z 0). rewrite <- Zle_Qle. lia.
  - destruct (Qle_bool _ _) eqn:F; [|done]. apply Qle_bool_iff in F.
    change 0%Q with (inject_Z 0) in F. rewrite <- Zle_Qle in F. lia.
Qed.

Lemma ltb_inject_Z (level : Z) (n : nat) :
  Num.ltb (inject_Z level) (Num.ofNat n) = (level <? Z.of_nat n).
Proof.
  unfold Num.ltb, Num.ofNat. destruct (level <? Z.of_nat n) eqn:E.
  - apply negb_true_iff. destruct (Qle_bool _ _) eqn:F; [|done].
    apply Qle_bool_iff in F. rewrite <- Zle_Qle in F. lia.
  - apply negb_false_iff, Qle_bool_iff. rewrite <- Zle_Qle. lia.
Qed.

Lemma eqb_inject_Z (index : nat) (level : Z) :
  Qeq_bool (Num.ofNat index) (inject_Z level) = (Z.of_nat index =? level).
Proof.
  unfold Num.ofNat. destruct (Z.of_nat index =? level) eqn:E.
  - apply Qeq_bool_iff. apply Z.eqb_eq in E. by rewrite E.
  - destruct (Qeq_bool _ _) eqn:F; [|done]. apply Qeq_bool_iff in F.
    apply (proj1 (inject_Z_injective _ _)) in F. apply Z.eqb_neq in E. lia.
Qed.

Lemma elementAt_inject_Z {T} (array : list T) (level : Z) :
  0 <= level -> elementAt array (inject_Z level) = array !! Z.to_nat level.
Proof.
  intros Hlevel. unfold elementAt, Num.isInteger.
  rewrite Qfloor_Z, geb_inject_Z.
  replace (Qeq_bool (inject_Z level) (inject_Z level)) with true
    by (symmetry; by apply Qeq_bool_iff).
  by replace (0 <=? level) with true by lia.
Qed.

(** On an integer [level] the method reads an element of [levels] that
    is there, and compares the indices of the children with [level] as
    integers. *)
Lemma setLODLevel_integer modelID level s :
  setLODLevel modelID (inject_Z level) s
  = match lodObjects s !! modelID with
    | None => (Return tt, s)
    | Some lodObject =>
        if (0 <=? level) && (level <? Z.of_nat (length (levels (config s))))
        then (Return tt,
              setLodObjects
                (<[modelID :=
                     Three.setLodChildren
                       (imap (fun index child =>
                                Three.setVisible (Z.of_nat index =? level) child)
                          (Three.lodChildren lodObject)) lodObject]>
                   (lodObjects s)) s)
        else (Return tt, s)
    end.
Proof.
  unfold setLODLevel, bind, gets, ret, modify, throw. simpl.
  destruct (lodObjects s !! modelID) as [lodObject|]; [|done]. simpl.
  rewrite geb_inject_Z, ltb_inject_Z.
  destruct ((0 <=? level) && (level <? Z.of_nat (length (levels (config s)))))
    eqn:Hrange; [|done].
  apply andb_true_iff in Hrange as [H0 H1].
  apply Z.leb_le in H0. apply Z.ltb_lt in H1.
  rewrite elementAt_inject_Z by done.
  destruct (lookup_lt_is_Some_2 (levels (config s)) (Z.to_nat level)) as [l ->];
    [lia|].
  do 4 f_equal. apply imap_ext. intros index child _. simpl.
  by rewrite eqb_inject_Z.
Qed.

End SetLevel.

(** A state in which level 3 is within the range of the configuration
    while the LOD node of the model has one child, which is visible:
    [setLODLevel] at 3 hides that child, so that it neither shows a
    level 3 nor leaves the flags alone, whatever count bounds the valid
    indices. *)
Lemma setLevelShowsOnly_one_child (modelID : Z) (s : State) (levelCount : Z) :
  lodObjects s !! modelID <> None ->
  Three.visible
    <$> (lodObjects s !! modelID
         ≫= fun lodObject => head (Three.lodChildren lodObject))
  = Some true ->
  Three.visible
    <$> (lodObjects (setLODLevel modelID (inject_Z 3) s).2 !! modelID
         ≫= fun lodObject => head (Three.lodChildren lodObject))
  = Some false ->
  (fun lodObject => length (Three.lodChildren lodObject))
    <$> lodObjects (setLODLevel modelID (inject_Z 3) s).2 !! modelID
  = Some 1%nat ->
  ~ setLevelShowsOnly levelCount modelID 3 s.
Proof.
  intros Hman Hbefore Hafter Hcount H. unfold setLevelShowsOnly in H.
  destruct (lodObjects s !! modelID) eqn:Hl; [|done].
  destruct ((0 <=? 3) && (3 <? levelCount)); cbv beta iota zeta in H.
  - destruct H as (lodObject & Hl' & (child & Hc & _) & _).
    rewrite Hl' in Hcount. injection Hcount as Hlen.
    apply lookup_lt_Some in Hc. change (Z.to_nat 3) with 3%nat in Hc. lia.
  - rewrite H, Hl in Hafter. congruence.
Qed.

(** C7, counterexample: in [registeredState] the default configuration
    has four levels, of which three are enabled and one was built.
    [setLODLevel 42 3] hides every level: it neither shows a level 3,
    whichever of these counts bounds the valid indices, nor leaves the
    flags alone. *)
Lemma setLODLevel_hides_all :
  ~ setLevelShowsOnly 4 42 3 registeredState /\
  ~ setLevelShowsOnly 3 42 3 registeredState /\
  ~ setLevelShowsOnly 1 42 3 registeredState.
Proof.
  split; [|split];
    apply (setLevelShowsOnly_one_child 42 registeredState); by vm_compute.
Qed.

(** C7, as amended: [setLODLevel] never fails.  For an unmanaged model,
    or a level outside [0, config.levels.length), it changes nothing.
    Otherwise every child of the LOD node of the model is made visible
    exactly when its position among the children is [level], so that the
    level instance at that position, when there is one, is the only one
    shown; the other models and the configuration are left alone, and
    [autoSwitch] plays no part. *)
Theorem setLODLevel_visibility (modelID level : Z) (s : State) :
  let s' := after (setLODLevel modelID (inject_Z level)) s in
  let inRange := 0 <= level < Z.of_nat (length (levels (config s))) in
  (setLODLevel modelID (inject_Z level) s).1 = Return tt /\
  config s' = config s /\
  delete modelID (lodObjects s') = delete modelID (lodObjects s) /\
  (forall autoSwitch',
     lodObjects
       (after (setLODLevel modelID (inject_Z level))
          (setConfigField
             (mkLODConfig (levels (config s)) autoSwitch'
                (distanceThreshold (config s))) s))
     = lodObjects s') /\
  (lodObjects s !! modelID = None \/ ~ inRange -> s' = s) /\
  (forall lodObject,
     lodObjects s !! modelID = Some lodObject -> inRange ->
     exists lodObject',
       lodObjects s' !! modelID = Some lodObject' /\
       length (Three.lodChildren lodObject')
       = length (Three.lodChildren lodObject) /\
       (forall i child',
          Three.lodChildren lodObject' !! i = Some child' ->
          exists child,
            Three.lodChildren lodObject !! i = Some child /\
            child' = Three.setVisible (Z.of_nat i =? level) child) /\
       (level < Z.of_nat (length (Three.lodChildren lodObject)) ->
        showsOnly level (Three.lodChildren lodObject'))).
Proof.
  unfold after. setoid_rewrite setLODLevel_integer. simpl.
  destruct (lodObjects s !! modelID) as [lodObject|] eqn:Hl; simpl.
  - destruct ((0 <=? level) && (level <? Z.of_nat (length (levels (config s)))))
      eqn:Hrange; simpl.
    + apply andb_true_iff in Hrange as [H0 H1].
      apply Z.leb_le in H0. apply Z.ltb_lt in H1.
      repeat split; try done.
      * by rewrite delete_insert_eq.
      * intros [?|Hout]; [done|]. destruct Hout. lia.
      * intros ? [= <-] _.
        eexists. split; [by rewrite lookup_insert_eq|]. simpl.
        split; [by rewrite length_imap|].
        split; [apply imap_setVisible_lookup|].
        intros Hlt. apply imap_setVisible_showsOnly. lia.
    + repeat split; try done.
      intros ? _ [H0 H1]. apply andb_false_iff in Hrange as [H|H].
      * apply Z.leb_gt in H. lia.
      * apply Z.ltb_ge in H. lia.
  - repeat split; done.
Qed.

Lemma setLODLevel_visibility_witness :
  exists lodObject',
    lodObjects (after (setLODLevel 42 (inject_Z 1)) managedState) !! 42
    = Some lodObject' /\
    showsOnly 1 (Three.lodChildren lodObject').
Proof.
  destruct (setLODLevel_visibility 42 1 managedState)
    as (_ & _ & _ & _ & _ & Hshow).
  destruct (Hshow exampleLOD eq_refl ltac:(simpl; lia))
    as (lodObject' & Hl' & _ & _ & Honly).
  exists lodObject'. split; [done|]. apply Honly. simpl. lia.
Defined.

(** ** Reasoning about methods *)

Section MethodFacts.

Context {T U V : Type}.
Implicit Types (f : State -> V) (s : State).

Lemma preserves_ret f (v : T) : preserves f (ret v).
Proof. by intros s. Qed.

Lemma preserves_throw f e : preserves f (@throw T e).
Proof. by intros s. Qed.

Lemma preserves_gets f (g : State -> T) : preserves f (gets g).
Proof. by intros s. Qed.

Lemma preserves_modify f (g : State -> State) :
  (forall s, f (g s) = f s) -> preserves f (modify g).
Proof. intros H s. apply H. Qed.

Lemma preserves_bind f (m : M T) (k : T -> M U) :
  preserves f m -> (forall v, preserves f (k v)) -> preserves f (bind m k).
Proof.
  intros Hm Hk s. unfold after, bind. specialize (Hm s). unfold after in Hm.
  destruct (m s) as [[v|e] s1]; simpl in *; [|done].
  rewrite <- Hm. apply Hk.
Qed.

Lemma preserves_tryCatch f (body : M T) (handler : JsError -> M T) :
  preserves f body -> (forall e, preserves f (handler e)) ->
  preserves f (tryCatch body handler).
Proof.
  intros Hm Hk s. unfold after, tryCatch. specialize (Hm s). unfold after in Hm.
  destruct (body s) as [[v|e] s1]; simpl in *; [done|].
  rewrite <- Hm. apply Hk.
Qed.

Lemma bind_assoc {W} (m : M T) (k : T -> M U) (h : U -> M W) s :
  bind (bind m k) h s = bind m (fun v => bind (k v) h) s.
Proof. unfold bind. by destruct (m s) as [[v|e] s1]. Qed.

Lemma bind_ext (m : M T) (k k' : T -> M U) s :
  (forall v s1, k v s1 = k' v s1) -> bind m k s = bind m k' s.
Proof. intros H. unfold bind. by destruct (m s) as [[v|e] s1]. Qed.

Lemma returns_ret (v : T) : returns (ret v).
Proof. intros s. by exists v. Qed.

Lemma returns_gets (g : State -> T) : returns (gets g).
Proof. intros s. by eexists. Qed.

Lemma returns_bind (m : M T) (k : T -> M U) :
  returns m -> (forall v, returns (k v)) -> returns (bind m k).
Proof.
  intros Hm Hk s. unfold bind. destruct (Hm s) as [v Hv].
  destruct (m s) as [[v'|e] s1]; simpl in *; [|done]. apply Hk.
Qed.

Lemma returns_tryCatch (body : M T) (handler : JsError -> M T) :
  (forall e, returns (handler e)) -> returns (tryCatch body handler).
Proof.
  intros Hk s. unfold tryCatch.
  destruct (body s) as [[v|e] s1]; simpl; [by eexists|]. apply Hk.
Qed.

End MethodFacts.

Lemma returns_modify (g : State -> State) : returns (modify g).
Proof. intros s. by exists tt. Qed.

Lemma preserves_forEachFrom {T L V} (f : State -> V)
    (body : L -> T -> nat -> M L) (l : list T) :
  (forall v a index, preserves f (body v a index)) ->
  forall index v, preserves f (forEachFrom body index l v).
Proof.
  intros Hbody. induction l as [|a rest IH]; intros index v; simpl.
  - apply preserves_ret.
  - apply preserves_bind; [apply Hbody|]. intros v'. apply IH.
Qed.

Lemma returns_forEachFrom {T L} (body : L -> T -> nat -> M L) (l : list T) :
  (forall v a index, returns (body v a index)) ->
  forall index v, returns (forEachFrom body index l v).
Proof.
  intros Hbody. induction l as [|a rest IH]; intros index v; simpl.
  - apply returns_ret.
  - apply returns_bind; [apply Hbody|]. intros v'. apply IH.
Qed.

Lemma bind_returned {T U} (m : M T) (k : T -> M U) s v s1 :
  m s = (Return v, s1) -> bind m k s = k v s1.
Proof. intros H. unfold bind. by rewrite H. Qed.

Lemma bind_gets {T U} (f : State -> T) (k : T -> M U) s :
  bind (gets f) k s = k (f s) s.
Proof. done. Qed.

Lemma bind_ret {T U} (v : T) (k : T -> M U) s : bind (ret v) k s = k v s.
Proof. done. Qed.

(** ** Trees of scene objects *)

Lemma Object3D_ind (P : Three.Object3D -> Prop) :
  (forall id mesh vis geo mat cs,
     Forall P cs -> P (Three.mkObject3D id mesh vis geo mat cs)) ->
  forall o, P o.
Proof.
  intros H. fix IH 1. intros [id mesh vis geo mat cs]. apply H.
  induction cs as [|c cs IHcs]; constructor; [apply IH|apply IHcs].
Qed.

Lemma preserves_traverse {V} (f : State -> V)
    (callback : Three.Object3D -> M Three.Object3D) :
  (forall child, preserves f (callback child)) ->
  forall o, preserves f (traverse callback o).
Proof.
  intros Hcb o. induction o as [id mesh vis geo mat cs IH] using Object3D_ind.
  simpl. apply preserves_bind; [apply Hcb|]. intros o'.
  apply preserves_bind; [|intros; apply preserves_ret].
  induction IH as [|c cs Hc _ IHcs]; [apply preserves_ret|].
  apply preserves_bind; [apply Hc|]. intros c'.
  apply preserves_bind; [apply IHcs|]. intros; apply preserves_ret.
Qed.

(** A clone offers [simplifyGeometry] the geometries of its source. *)
Lemma clone_meshGeometry o next :
  map meshGeometry (Three.nodes (Three.clone o next).1)
  = map meshGeometry (Three.nodes o).
Proof.
  revert next. induction o as [id mesh vis geo mat cs IH] using Object3D_ind.
  intros next. simpl.
  set (cloneAll := fix cloneAll (l : list Three.Object3D) (n : nat) :=
         match l with
         | [] => ([], n)
         | c :: l' =>
             let '(c', n1) := Three.clone c n in
             let '(r, n2) := cloneAll l' n1 in (c' :: r, n2)
         end).
  assert (Hall : forall n,
    map meshGeometry (flat_map Three.nodes (cloneAll cs n).1)
    = map meshGeometry (flat_map Three.nodes cs)).
  { induction IH as [|c cs Hc _ IHcs]; intros n; [done|]. simpl.
    specialize (Hc n). destruct (Three.clone c n) as [c' n1].
    specialize (IHcs n1). destruct (cloneAll cs n1) as [r n2]. simpl in *.
    by rewrite !map_app, Hc, IHcs. }
  specialize (Hall (S next)). destruct (cloneAll cs (S next)) as [cs' next'].
  simpl in *. by rewrite Hall.
Qed.

Lemma clone_fields o next :
  Three.id (Three.clone o next).1 = next /\
  (next < (Three.clone o next).2)%nat /\
  Forall2 sameFields (Three.nodes o) (Three.nodes (Three.clone o next).1).
Proof.
  revert next. induction o as [id mesh vis geo mat cs IH] using Object3D_ind.
  intros next. simpl.
  set (cloneAll := fix cloneAll (l : list Three.Object3D) (n : nat) :=
         match l with
         | [] => ([], n)
         | c :: l' =>
             let '(c', n1) := Three.clone c n in
             let '(r, n2) := cloneAll l' n1 in (c' :: r, n2)
         end).
  assert (Hall : forall n,
    (n <= (cloneAll cs n).2)%nat /\
    Forall2 sameFields (flat_map Three.nodes cs)
      (flat_map Three.nodes (cloneAll cs n).1)).
  { induction IH as [|c cs0 Hc _ IHcs]; intros n; [by split|]. simpl.
    destruct (Hc n) as (_ & Hn & Hf). destruct (Three.clone c n) as [c' n1].
    destruct (IHcs n1) as (Hn1 & Hf1). destruct (cloneAll cs0 n1) as [r n2].
    simpl in *. split; [lia|]. by apply Forall2_app. }
  destruct (Hall (S next)) as (Hn & Hf).
  destruct (cloneAll cs (S next)) as [cs' next']. simpl in *.
  split; [done|]. split; [lia|]. constructor; [done|]. exact Hf.
Qed.

Lemma sameFields_hasMaterialArray (l1 l2 : list Three.Object3D) :
  Forall2 sameFields l1 l2 ->
  existsb (fun child => Three.isMesh child && isMaterialArray (Three.material child)) l2
  = existsb (fun child => Three.isMesh child && isMaterialArray (Three.material child)) l1.
Proof.
  induction 1 as [|a b l1 l2 (Hm & _ & _ & Hmat) _ IH]; [done|].
  simpl. by rewrite Hm, Hmat, IH.
Qed.

Lemma sameFields_adjustedNode levelIndex (l1 l2 l3 : list Three.Object3D) :
  Forall2 sameFields l1 l2 ->
  Forall2 (adjustedNode levelIndex) l2 l3 ->
  Forall2 sameGeometry l1 l3.
Proof.
  intros H12. revert l3. induction H12 as [|a b l1 l2 Hab _ IH]; intros l3 H23.
  - inversion H23. constructor.
  - inversion H23 as [|b' c l2' l3' Hbc Hrest]; subst. constructor; [|by apply IH].
    destruct Hab as (? & ? & ? & ?). destruct Hbc as (_ & ? & ? & ? & _).
    repeat split; congruence.
Qed.

(** ** Level synthesis *)

Section Materials.

Implicit Types (s : State) (o child : Three.Object3D) (levelIndex : nat).

Lemma adjustChild_run levelIndex child s :
  if Three.isMesh child && isMaterialArray (Three.material child)
  then adjustChild levelIndex child s = (Throw NotAFunction, s)
  else exists child',
         adjustChild levelIndex child s = (Return child', s) /\
         adjustedNode levelIndex child child' /\
         Three.children child' = Three.children child.
Proof.
  unfold adjustChild, adjustedNode.
  destruct (Three.isMesh child) eqn:Hmesh; simpl.
  - destruct (Three.material child) as [|m|ms] eqn:Hmat; simpl; [|..|done].
    + exists child. by rewrite Hmat.
    + eexists. split; [done|]. simpl.
      split; [|done]. repeat split; try done.
      destruct (Three.isMeshLambertMaterial m) eqn:Hl; [|done].
      eexists. split; [done|]. simpl. by repeat split.
  - exists child. rewrite Hmesh. repeat split. by destruct (Three.material child).
Qed.

Lemma adjustMaterial_run o levelIndex s :
  if hasMaterialArray o
  then adjustMaterial o levelIndex s = (Throw NotAFunction, s)
  else exists o',
         adjustMaterial o levelIndex s = (Return o', s) /\
         Forall2 (adjustedNode levelIndex) (Three.nodes o) (Three.nodes o').
Proof.
  unfold adjustMaterial, hasMaterialArray. revert s.
  induction o as [id mesh vis geo mat cs IH] using Object3D_ind. intros s.
  set (arr := fun child =>
    Three.isMesh child && isMaterialArray (Three.material child)).
  pose proof (adjustChild_run levelIndex
                (Three.mkObject3D id mesh vis geo mat cs) s) as Hcb.
  simpl in Hcb. simpl.
  set (o := Three.mkObject3D id mesh vis geo mat cs) in *.
  change (mesh && isMaterialArray mat) with (arr o) in Hcb.
  destruct (arr o); simpl; [unfold bind at 1; by rewrite Hcb|].
  destruct Hcb as (o1 & Hcb & Hadj & Hkids).
  set (each := fix each (l : list Three.Object3D) : M (list Three.Object3D) :=
         match l with
         | [] => ret []
         | c :: l' =>
             let* c' := traverse (adjustChild levelIndex) c in
             let* r := each l' in ret (c' :: r)
         end).
  assert (Heach : forall s1,
    if existsb arr (flat_map Three.nodes cs)
    then each cs s1 = (Throw NotAFunction, s1)
    else exists cs',
           each cs s1 = (Return cs', s1) /\
           Forall2 (adjustedNode levelIndex)
             (flat_map Three.nodes cs) (flat_map Three.nodes cs')).
  { clear Hadj Hkids Hcb o. induction IH as [|c cs0 Hc _ IHcs]; intros s1.
    - simpl. by exists [].
    - cbn [flat_map]. rewrite existsb_app. cbn [each]. fold each.
      specialize (Hc s1). fold arr in Hc. specialize (IHcs s1).
      destruct (existsb arr (Three.nodes c)); simpl.
      { unfold bind at 1. by rewrite Hc. }
      destruct Hc as (c' & Hc & Hc').
      destruct (existsb arr (flat_map Three.nodes cs0)).
      { unfold bind at 1. rewrite Hc. unfold bind at 1. by rewrite IHcs. }
      destruct IHcs as (cs' & Hcs & Hcs').
      exists (c' :: cs'). split; [|simpl; by apply Forall2_app].
      unfold bind at 1. rewrite Hc. unfold bind at 1. by rewrite Hcs. }
  specialize (Heach s).
  destruct (existsb arr (flat_map Three.nodes cs)).
  { unfold bind at 1. rewrite Hcb. unfold bind at 1. by rewrite Heach. }
  destruct Heach as (cs' & Heach & Hcs').
  eexists. split.
  { unfold bind at 1. rewrite Hcb. unfold bind at 1. by rewrite Heach. }
  destruct o1 as [id1 mesh1 vis1 geo1 mat1 cs1]. simpl.
  constructor; [|done]. exact Hadj.
Qed.

End Materials.

Section Synthesis.

Implicit Types (s : State) (ratio : Q) (o child : Three.Object3D).
Implicit Types (store : gmap nat Three.BufferGeometry).

(** The callback of [simplifyGeometry] reaches the decimator or leaves
    the node alone; it changes nothing either way. *)
Lemma simplifyChild_run ratio child s :
  simplifyChild ratio child s
  = (if decimates ratio (geometries s) child
     then Throw ThreeNotDefined else Return child, s).
Proof.
  unfold simplifyChild, decimates, meshGeometry.
  destruct (Three.isMesh child); [|done].
  destruct (Three.geometry child) as [g|]; [|done].
  unfold bind at 1. unfold gets at 1.
  destruct (geometries s !! g ≫= Three.position) as [positions|]; [|done].
  destruct (Num.ltb _ _); [|done].
  unfold bind at 1. by rewrite decimateVertices_throws.
Qed.

Lemma traverse_simplify ratio o s :
  traverse (simplifyChild ratio) o s
  = (if needsDecimation ratio (geometries s) o
     then Throw ThreeNotDefined else Return o, s).
Proof.
  unfold needsDecimation. revert s.
  induction o as [id mesh vis geo mat cs IH] using Object3D_ind.
  intros s. simpl. unfold bind at 1. rewrite simplifyChild_run.
  set (o := Three.mkObject3D id mesh vis geo mat cs).
  destruct (decimates ratio (geometries s) o); [done|]. simpl.
  set (each := fix each (l : list Three.Object3D) : M (list Three.Object3D) :=
         match l with
         | [] => ret []
         | c :: l' =>
             let* c' := traverse (simplifyChild ratio) c in
             let* r := each l' in ret (c' :: r)
         end).
  assert (Heach :
    each cs s
    = (if existsb (decimates ratio (geometries s)) (flat_map Three.nodes cs)
       then Throw ThreeNotDefined else Return cs, s)).
  { induction IH as [|c cs' Hc _ IHcs]; [done|].
    cbn [each flat_map]. fold each. rewrite existsb_app.
    unfold bind at 1. rewrite Hc.
    destruct (existsb _ (Three.nodes c)); [done|]. simpl.
    unfold bind at 1. rewrite IHcs.
    by destruct (existsb _ (flat_map Three.nodes cs')). }
  unfold bind at 1. rewrite Heach.
  by destruct (existsb _ (flat_map Three.nodes cs)).
Qed.

Lemma simplifyGeometry_run o ratio s :
  simplifyGeometry o ratio s
  = (if needsDecimation ratio (geometries s) o
     then Throw ThreeNotDefined else Return tt, s).
Proof.
  unfold simplifyGeometry, bind. rewrite traverse_simplify.
  by destruct (needsDecimation _ _ _).
Qed.

Lemma decimates_meshGeometry ratio store (a b : Three.Object3D) :
  meshGeometry a = meshGeometry b ->
  decimates ratio store a = decimates ratio store b.
Proof. intros H. unfold decimates. by rewrite H. Qed.

Lemma needsDecimation_meshGeometry ratio store o o' :
  map meshGeometry (Three.nodes o') = map meshGeometry (Three.nodes o) ->
  needsDecimation ratio store o' = needsDecimation ratio store o.
Proof.
  unfold needsDecimation. generalize (Three.nodes o) as l.
  induction (Three.nodes o') as [|a l' IH]; intros [|b l] H; simpl in *;
    try done.
  injection H as Hab Hrest.
  by rewrite (decimates_meshGeometry _ _ _ _ Hab), (IH _ Hrest).
Qed.

Lemma createLODLevelBody_cloned originalMesh level levelIndex s :
  createLODLevelBody originalMesh level levelIndex s
  = (let levelMesh := (Three.clone originalMesh (nextId s)).1 in
     let* _ :=
       if Num.ltb (simplificationRatio level) 1 && (0 <? levelIndex)%nat
       then simplifyGeometry levelMesh (simplificationRatio level)
       else ret tt in
     let* levelMesh := adjustMaterial levelMesh levelIndex in
     ret (Some levelMesh))
      (setNextId (Three.clone originalMesh (nextId s)).2 s).
Proof.
  unfold createLODLevelBody, clone. unfold bind at 1.
  by destruct (Three.clone originalMesh (nextId s)).
Qed.

(** The [try] block of [createLODLevel]: the error it ends with, or the
    level instance it returns, a clone under the next free id. *)
Lemma createLODLevelBody_run originalMesh level levelIndex s :
  let s1 := setNextId (Three.clone originalMesh (nextId s)).2 s in
  (nextId s < nextId s1)%nat /\
  match levelError originalMesh (geometries s) level levelIndex with
  | Some error =>
      createLODLevelBody originalMesh level levelIndex s = (Throw error, s1)
  | None =>
      exists levelMesh,
        createLODLevelBody originalMesh level levelIndex s
        = (Return (Some levelMesh), s1) /\
        Three.id levelMesh = nextId s /\
        levelInstanceOf originalMesh levelMesh
  end.
Proof.
  simpl. rewrite createLODLevelBody_cloned. unfold levelError, reduces.
  destruct (clone_fields originalMesh (nextId s)) as (Hid & Hnext & Hsame).
  pose proof (clone_meshGeometry originalMesh (nextId s)) as Hgeo.
  destruct (Three.clone originalMesh (nextId s)) as [cloned next].
  simpl in Hid, Hnext, Hsame, Hgeo. simpl. split; [done|].
  pose proof (adjustMaterial_run cloned levelIndex (setNextId next s)) as Hadj.
  unfold hasMaterialArray in Hadj |- *.
  rewrite (sameFields_hasMaterialArray _ _ Hsame) in Hadj.
  pose proof (needsDecimation_meshGeometry (simplificationRatio level)
                (geometries s) originalMesh cloned Hgeo) as Hneeds.
  assert (Hinst : forall levelMesh,
    Forall2 (adjustedNode levelIndex) (Three.nodes cloned) (Three.nodes levelMesh) ->
    Three.id levelMesh = nextId s /\ levelInstanceOf originalMesh levelMesh).
  { intros levelMesh Hnodes. split.
    - destruct cloned, levelMesh. simpl in *.
      inversion Hnodes as [|? ? ? ? (Hid' & _) _]; subst. done.
    - by apply sameFields_adjustedNode with levelIndex (Three.nodes cloned). }
  destruct (Num.ltb (simplificationRatio level) 1 && (0 <? levelIndex)%nat); simpl.
  - destruct (needsDecimation _ _ originalMesh); simpl.
    { unfold bind. rewrite simplifyGeometry_run. simpl. by rewrite Hneeds. }
    destruct (existsb _ (Three.nodes originalMesh)).
    { unfold bind. rewrite simplifyGeometry_run. simpl. by rewrite Hneeds, Hadj. }
    destruct Hadj as (levelMesh & Hrun & Hadj). exists levelMesh.
    split; [|by apply Hinst].
    unfold bind. rewrite simplifyGeometry_run. simpl. by rewrite Hneeds, Hrun.
  - destruct (existsb _ (Three.nodes originalMesh)).
    { unfold bind, ret. by rewrite Hadj. }
    destruct Hadj as (levelMesh & Hrun & Hadj). exists levelMesh.
    split; [|by apply Hinst].
    unfold bind, ret. by rewrite Hrun.
Qed.

(** [createLODLevel], case by case. *)
Lemma createLODLevel_run originalMesh level levelIndex s :
  let s1 := setNextId (Three.clone originalMesh (nextId s)).2 s in
  if visible level then
    match levelError originalMesh (geometries s) level levelIndex with
    | Some error =>
        createLODLevel originalMesh level levelIndex s
        = (Return (if (levelIndex =? 0)%nat then Some originalMesh else None),
           logEntry (WarnLevelFailed levelIndex error) s1)
    | None =>
        exists levelMesh,
          createLODLevel originalMesh level levelIndex s
          = (Return (Some levelMesh), s1) /\
          Three.id levelMesh = nextId s /\
          levelInstanceOf originalMesh levelMesh
    end
  else createLODLevel originalMesh level levelIndex s = (Return None, s).
Proof.
  simpl. unfold createLODLevel. destruct (visible level); simpl; [|done].
  destruct (createLODLevelBody_run originalMesh level levelIndex s) as [_ Hbody].
  unfold tryCatch.
  destruct (levelError originalMesh (geometries s) level levelIndex) as [error|].
  - by rewrite Hbody.
  - destruct Hbody as (levelMesh & -> & Hid & Hinst). by exists levelMesh.
Qed.

Lemma createLODLevel_disabled originalMesh level levelIndex s :
  visible level = false ->
  createLODLevel originalMesh level levelIndex s = (Return None, s).
Proof. intros H. unfold createLODLevel. by rewrite H. Qed.

(** No level ever changes a geometry. *)
Lemma createLODLevel_geometries originalMesh level levelIndex s :
  geometries (after (createLODLevel originalMesh level levelIndex) s)
  = geometries s.
Proof.
  pose proof (createLODLevel_run originalMesh level levelIndex s) as Hrun.
  simpl in Hrun. unfold after. destruct (visible level); [|by rewrite Hrun].
  destruct (levelError _ _ _ _) as [error|].
  - by rewrite Hrun.
  - by destruct Hrun as (levelMesh & -> & _).
Qed.

End Synthesis.

(** C5, counterexample: level 1 at ratio 1/2 on a triangle is enabled,
    has a ratio below 1 and an index above 0, yet the geometry is not
    decimated: the decimator is not called, no buffer is put in place
    and no normals are computed, and the level is built. *)
Lemma createLODLevel_triangle_untouched :
  visible halfLevel = true /\
  Num.ltb (simplificationRatio halfLevel) 1 = true /\
  targetCountOf (diagonal 3) (simplificationRatio halfLevel) = 3 /\
  levelError exampleMesh (geometries triangleState) halfLevel 1 = None /\
  ~ levelDecimated exampleMesh halfLevel 1 triangleState.
Proof.
  split; [done|]. split; [done|]. split; [by vm_compute|].
  split; [by vm_compute|].
  intros (g & before & after' & Hg & Hb & Ha & (positions & simplified & Hp & _ & Hpos & Hn)).
  vm_compute in Hg. injection Hg as <-.
  vm_compute in Ha. injection Ha as <-.
  discriminate.
Qed.

(** C5, as amended: [createLODLevel] returns null for a disabled level
    and changes nothing.  The [try] block of an enabled level ends with
    the error of the decimator exactly when the level takes the
    simplification step, [simplificationRatio < 1.0] and
    [levelIndex > 0], and some node of the mesh is one at which the step
    calls the decimator.  At a node with a position buffer the step
    takes [targetCount = max(3, floor(originalCount * ratio))] and calls
    the decimator, whose error ends it, exactly when
    [targetCount < originalCount]; otherwise it leaves the node and its
    geometry untouched. *)
Theorem createLODLevel_simplifies :
  (forall originalMesh level levelIndex s,
     visible level = false ->
     createLODLevel originalMesh level levelIndex s = (Return None, s)) /\
  (forall originalMesh level levelIndex s,
     (createLODLevelBody originalMesh level levelIndex s).1 = Throw ThreeNotDefined
     <-> Num.ltb (simplificationRatio level) 1 && (0 <? levelIndex)%nat = true /\
         exists child,
           child ∈ Three.nodes originalMesh /\
           decimates (simplificationRatio level) (geometries s) child = true) /\
  (forall ratio child g before positions s,
     meshGeometry child = Some g ->
     geometries s !! g = Some before ->
     Three.position before = Some positions ->
     decimates ratio (geometries s) child
     = Num.ltb (inject_Z (Z.max 3 (Qfloor (Num.mul (originalCount positions) ratio))))
         (originalCount positions) /\
     simplifyChild ratio child s
     = (if decimates ratio (geometries s) child
        then Throw ThreeNotDefined else Return child, s)).
Proof.
  split; [apply createLODLevel_disabled|]. split.
  - intros originalMesh level levelIndex s.
    destruct (createLODLevelBody_run originalMesh level levelIndex s) as [_ Hbody].
    unfold levelError, reduces, needsDecimation in Hbody.
    assert (Hex : existsb (decimates (simplificationRatio level) (geometries s))
                    (Three.nodes originalMesh) = true
                  <-> exists child,
                        child ∈ Three.nodes originalMesh /\
                        decimates (simplificationRatio level) (geometries s) child
                        = true).
    { rewrite existsb_exists. by setoid_rewrite list_elem_of_In. }
    destruct (Num.ltb (simplificationRatio level) 1 && (0 <? levelIndex)%nat);
      simpl in Hbody.
    + destruct (existsb _ (Three.nodes originalMesh)) eqn:Hneeds.
      * rewrite Hbody. simpl. split; [|done]. intros _. split; [done|].
        by apply Hex.
      * assert (Hnot : (createLODLevelBody originalMesh level levelIndex s).1
                       <> Throw ThreeNotDefined).
        { destruct (hasMaterialArray originalMesh).
          - by rewrite Hbody.
          - by destruct Hbody as (levelMesh & -> & _). }
        split; [done|]. intros [_ Hchild]. apply Hex in Hchild. done.
    + assert (Hnot : (createLODLevelBody originalMesh level levelIndex s).1
                     <> Throw ThreeNotDefined).
      { destruct (hasMaterialArray originalMesh).
        - by rewrite Hbody.
        - by destruct Hbody as (levelMesh & -> & _). }
      split; [done|]. by intros [? _].
  - intros ratio child g before positions s Hg Hb Hp.
    split; [|apply simplifyChild_run].
    unfold decimates. by rewrite Hg, Hb; simpl; rewrite Hp.
Qed.

Lemma createLODLevel_simplifies_witness :
  decimates (1 # 2) (geometries sceneState) exampleMesh
  = Num.ltb (inject_Z (Z.max 3 (Qfloor (Num.mul (originalCount (diagonal 12)) (1 # 2)))))
      (originalCount (diagonal 12)) /\
  simplifyChild (1 # 2) exampleMesh sceneState
  = (if decimates (1 # 2) (geometries sceneState) exampleMesh
     then Throw ThreeNotDefined else Return exampleMesh, sceneState).
Proof.
  exact (proj2 (proj2 createLODLevel_simplifies) (1 # 2) exampleMesh 7%nat
           (Three.mkBufferGeometry (Some (diagonal 12)) None) (diagonal 12)
           sceneState eq_refl eq_refl eq_refl).
Defined.

(** The number [floor(originalCount * ratio)] is that of binary64
    arithmetic: 200 points at ratio 0.145 give 28, where the product of
    the real numbers is 29. *)
Example targetCount_binary64 :
  targetCountOf (diagonal 200) (145 # 1000) = 28 /\
  Qfloor (originalCount (diagonal 200) * (145 # 1000)) = 29.
Proof. by vm_compute. Qed.

(** ** Registration, level by level *)

Ltac preserves_step :=
  match goal with
  | |- preserves _ (bind _ _) => apply preserves_bind; [|intros ?]
  | |- preserves _ (ret _) => apply preserves_ret
  | |- preserves _ (throw _) => apply preserves_throw
  | |- preserves _ (gets _) => apply preserves_gets
  | |- preserves _ (modify _) => apply preserves_modify; intros ?; reflexivity
  | |- preserves _ (tryCatch _ _) => apply preserves_tryCatch; [|intros ?]
  | |- preserves _ (traverse _ _) => apply preserves_traverse; intros ?
  | |- preserves _ (forEachFrom _ _ _ _) =>
      apply preserves_forEachFrom; intros ? ? ?
  | |- preserves _ (match ?x with _ => _ end) => destruct x
  end.

Ltac returns_step :=
  match goal with
  | |- returns (bind _ _) => apply returns_bind; [|intros ?]
  | |- returns (ret _) => apply returns_ret
  | |- returns (gets _) => apply returns_gets
  | |- returns (modify _) => apply returns_modify
  | |- returns (tryCatch _ _) => apply returns_tryCatch; intros ?
  | |- returns (forEachFrom _ _ _ _) => apply returns_forEachFrom; intros ? ? ?
  | |- returns (match ?x with _ => _ end) => destruct x
  end.

Section Registration.

Implicit Types (s : State) (model : IFCModel) (camera : Three.Camera).

Lemma clone_preserves {V} (f : State -> V) o :
  (forall n s, f (setNextId n s) = f s) -> preserves f (clone o).
Proof.
  intros H s. unfold after, clone.
  destruct (Three.clone o (nextId s)) as [o' next]. apply H.
Qed.

Lemma createLODLevel_lodObjects originalMesh level levelIndex :
  preserves lodObjects (createLODLevel originalMesh level levelIndex).
Proof.
  unfold createLODLevel, createLODLevelBody, simplifyGeometry, adjustMaterial,
    simplifyChild, adjustChild, decimateVertices, replacePositions.
  repeat first [preserves_step | by apply clone_preserves].
Qed.

Lemma createLODLevel_returns originalMesh level levelIndex :
  returns (createLODLevel originalMesh level levelIndex).
Proof. unfold createLODLevel. repeat returns_step. Qed.

Lemma newLOD_preserves {V} (f : State -> V) :
  (forall n s, f (setNextId n s) = f s) -> preserves f newLOD.
Proof. intros H s. apply H. Qed.

Lemma newLOD_returns : returns newLOD.
Proof. intros s. by eexists. Qed.

Lemma buildLOD_lodObjects model : preserves lodObjects (buildLOD model).
Proof.
  unfold buildLOD, addLevel, add, addTo, removeFromParent.
  repeat first [preserves_step
               | by apply newLOD_preserves
               | apply createLODLevel_lodObjects].
Qed.

Lemma buildLOD_returns model : returns (buildLOD model).
Proof.
  unfold buildLOD, addLevel, add, addTo, removeFromParent.
  repeat first [returns_step | apply newLOD_returns
               | apply createLODLevel_returns].
Qed.

Lemma createLODForModel_build model camera s :
  createLODForModel model camera s
  = (let* managed := gets (fun s => lodObjects s !! modelID model) in
     let* _ :=
       if managed is Some _ then removeLODForModel (modelID model) else ret tt in
     let* lodObject := buildLOD model in
     modify (fun s =>
       setLodObjects (<[modelID model := lodObject]> (lodObjects s)) s)) s.
Proof.
  unfold createLODForModel, buildLOD.
  apply bind_ext. intros managed s1. apply bind_ext. intros _ s2.
  repeat (rewrite bind_assoc; apply bind_ext; intros ? ?).
  done.
Qed.

Lemma removeLODForModel_run modelID s :
  exists s1,
    removeLODForModel modelID s = (Return tt, s1) /\
    lodObjects s1 = delete modelID (lodObjects s).
Proof.
  unfold removeLODForModel, bind, gets, modify, ret. simpl.
  destruct (lodObjects s !! modelID) as [lodObject|] eqn:Hl; simpl.
  - by eexists.
  - exists s. by rewrite delete_id.
Qed.

(** A registration returns, and what it leaves in the registry is the
    registry it found, without the entry of the model, plus one entry
    for the model. *)
Lemma createLODForModel_run model camera s :
  exists lodObject s2,
    createLODForModel model camera s
    = (Return tt,
       setLodObjects
         (<[modelID model := lodObject]> (delete (modelID model) (lodObjects s)))
         s2).
Proof.
  rewrite createLODForModel_build. unfold bind at 1. unfold gets at 1.
  assert (Hrm : exists s1,
    (if lodObjects s !! modelID model is Some _
     then removeLODForModel (modelID model) else ret tt) s = (Return tt, s1) /\
    lodObjects s1 = delete (modelID model) (lodObjects s)).
  { destruct (lodObjects s !! modelID model) eqn:Hl.
    - apply removeLODForModel_run.
    - exists s. by rewrite delete_id. }
  destruct Hrm as (s1 & Hrm & Hreg). unfold bind at 1. rewrite Hrm.
  pose proof (buildLOD_lodObjects model s1) as Hkeep.
  destruct (buildLOD_returns model s1) as (lodObject & Hret).
  unfold bind, after in *.
  destruct (buildLOD model s1) as [out s2]. simpl in *. subst out.
  exists lodObject, s2. unfold modify. by rewrite Hkeep, Hreg.
Qed.

End Registration.

Section Levels.

Implicit Types (s : State) (o originalMesh : Three.Object3D) (lod : Three.LOD).

Lemma insertLevel_length d object (ls : list (Q * nat)) :
  length (Three.insertLevel d object ls) = S (length ls).
Proof.
  induction ls as [|l rest IH]; simpl; [done|].
  destruct (Num.ltb d l.1); simpl; by rewrite ?IH.
Qed.

Lemma filter_other_ids (children : list Three.Object3D) (i : nat) :
  Forall (fun c => Three.id c <> i) children ->
  filter (fun c => Three.id c <> i) children = children.
Proof.
  induction 1 as [|c l Hc _ IH]; [done|].
  by rewrite filter_cons_True, IH.
Qed.

Lemma filter_same_ids (children : list Three.Object3D) (i : nat) :
  Forall (fun c => Three.id c = i) children ->
  filter (fun c => Three.id c <> i) children = [].
Proof.
  induction 1 as [|c l Hc _ IH]; [done|].
  by rewrite filter_cons_False by (intros H; by apply H).
Qed.

(** [addLevel] of an object other than the LOD node itself. *)
Lemma addLevel_run lod object d s :
  Three.id object <> Three.lodId lod ->
  exists kept,
    addLevel lod object d s
    = (Return (Three.mkLOD (Three.lodId lod) (Three.lodPosition lod)
                 (Three.insertLevel (Qabs d) (Three.id object) (Three.levels lod))
                 (kept ++ [object])),
       setParents (<[Three.id object := Three.lodId lod]> (parents s)) s) /\
    (kept = Three.lodChildren lod \/
     (parents s !! Three.id object = Some (Three.lodId lod) /\
      kept = filter (fun c => Three.id c <> Three.id object) (Three.lodChildren lod))).
Proof.
  intros Hne. unfold addLevel, add. simpl.
  destruct (Nat.eqb_spec (Three.id object) (Three.lodId lod)) as [|_]; [done|].
  unfold bind, gets, modify, ret. simpl.
  destruct (parents s !! Three.id object) as [p|] eqn:Hp.
  - destruct (Nat.eqb_spec p (Three.lodId lod)) as [->|_].
    + eexists. split; [done|]. by right.
    + eexists. split; [done|]. by left.
  - eexists. split; [done|]. by left.
Qed.

Lemma reduces_index level index : reduces level index = true -> index <> O.
Proof.
  unfold reduces. intros H. apply andb_true_iff in H as [_ H].
  apply Nat.ltb_lt in H. lia.
Qed.

(** A level of a mesh without material arrays: a clone under the next
    free id, or nothing, and a warning, where the decimator is called. *)
Lemma createLODLevel_no_array originalMesh level index s :
  hasMaterialArray originalMesh = false ->
  exists result s1,
    createLODLevel originalMesh level index s = (Return result, s1) /\
    (nextId s <= nextId s1)%nat /\
    parents s1 = parents s /\
    geometries s1 = geometries s /\
    console s1
    = console s ++ warningsFrom originalMesh (geometries s) index [level] /\
    if builds originalMesh (geometries s) level index
    then exists levelMesh,
           result = Some levelMesh /\
           (nextId s < nextId s1)%nat /\
           Three.id levelMesh = nextId s /\
           levelInstanceOf originalMesh levelMesh
    else result = None.
Proof.
  intros Hno.
  pose proof (createLODLevel_run originalMesh level index s) as Hrun.
  destruct (createLODLevelBody_run originalMesh level index s) as [Hnext _].
  simpl in Hrun, Hnext. unfold builds. simpl.
  destruct (visible level); simpl.
  - unfold levelError in *. rewrite Hno in *.
    destruct (reduces level index
              && needsDecimation (simplificationRatio level) (geometries s)
                   originalMesh) eqn:Hfail.
    + apply andb_true_iff in Hfail as [Hred _].
      apply reduces_index in Hred.
      replace (index =? 0)%nat with false in Hrun
        by (symmetry; by apply Nat.eqb_neq).
      do 2 eexists. split; [exact Hrun|]. simpl.
      repeat split; try done. lia.
    + destruct Hrun as (levelMesh & Hrun & Hid & Hinst).
      do 2 eexists. split; [exact Hrun|]. simpl. rewrite ?app_nil_r.
      repeat split; try done; [lia|]. by exists levelMesh.
  - exists None, s. rewrite Hrun, app_nil_r. by repeat split.
Qed.

(** A level of a mesh with a material array: the fallback. *)
Lemma createLODLevel_falls_back originalMesh level levelIndex s :
  visible level = true -> hasMaterialArray originalMesh = true ->
  exists s1,
    createLODLevel originalMesh level levelIndex s
    = (Return (if (levelIndex =? 0)%nat then Some originalMesh else None), s1) /\
    parents s1 = parents s.
Proof.
  intros Hvis Hhas.
  pose proof (createLODLevel_run originalMesh level levelIndex s) as Hrun.
  simpl in Hrun. rewrite Hvis in Hrun. unfold levelError in Hrun.
  rewrite Hhas in Hrun.
  destruct (reduces level levelIndex && _); by eexists.
Qed.

(** The levels of a mesh without material arrays, one after the other:
    every level that is built appends its instance, a clone with a new
    id, and takes its place among the levels of the LOD node; a level
    that is not built changes neither. *)
Lemma forEach_builds originalMesh :
  hasMaterialArray originalMesh = false ->
  forall levels index lod s,
    (Three.lodId lod < nextId s)%nat ->
    Forall (fun c => (Three.id c < nextId s)%nat) (Three.lodChildren lod) ->
    exists lod1 s1 news,
      forEachFrom (registerLevel originalMesh) index levels lod s = (Return lod1, s1) /\
      Three.lodId lod1 = Three.lodId lod /\
      Three.lodPosition lod1 = Three.lodPosition lod /\
      (nextId s <= nextId s1)%nat /\
      (forall i, (i < nextId s)%nat -> parents s1 !! i = parents s !! i) /\
      geometries s1 = geometries s /\
      console s1
      = console s ++ warningsFrom originalMesh (geometries s) index levels /\
      Three.lodChildren lod1 = Three.lodChildren lod ++ news /\
      Forall2 (fun level c => levelInstanceOf originalMesh c)
        (builtFrom originalMesh (geometries s) index levels) news /\
      Forall (fun c => (nextId s <= Three.id c < nextId s1)%nat) news /\
      Three.levels lod1
      = levelsAdded
          (zip (builtFrom originalMesh (geometries s) index levels) news)
          (Three.levels lod).
Proof.
  intros Hno levels. induction levels as [|level rest IH]; intros index lod s Hlod Hkids.
  - exists lod, s, []. simpl. rewrite !app_nil_r.
    repeat split; try done; by constructor.
  - cbn [forEachFrom]. unfold bind at 1. unfold registerLevel at 1.
    destruct (createLODLevel_no_array originalMesh level index s Hno)
      as (result & s1 & Hrun & Hnext & Hpar & Hgeo & Hlog & Hresult).
    unfold bind at 1. rewrite Hrun.
    cbn [builtFrom warningsFrom]. simpl in Hlog. rewrite app_nil_r in Hlog.
    destruct (builds originalMesh (geometries s) level index).
    + destruct Hresult as (m & -> & Hnext' & Hid & Hinst).
      destruct (addLevel_run lod m (distance level) s1) as (kept & Hadd & Hkept);
        [lia|].
      rewrite Hadd.
      assert (Hkept' : kept = Three.lodChildren lod).
      { destruct Hkept as [->|[_ ->]]; [done|]. apply filter_other_ids.
        eapply Forall_impl; [exact Hkids|]. simpl. intros c Hc. lia. }
      subst kept.
      match goal with |- context [forEachFrom _ _ rest ?l ?st] =>
        destruct (IH (S index) l st) as
          (lod2 & s2 & news & Hloop & Hlid & Hpos & Hn2 & Hp2 & Hg2 & Hc2 & Hch
           & Hnews & Hids & Hlv)
      end.
      { simpl. lia. }
      { simpl. apply Forall_app. split.
        - eapply Forall_impl; [exact Hkids|]. simpl. intros c Hc. lia.
        - constructor; [lia|constructor]. }
      simpl in *. exists lod2, s2, (m :: news). rewrite Hloop.
      split; [done|]. split; [done|]. split; [done|]. split; [lia|].
      split.
      { intros i Hi. rewrite Hp2 by lia. rewrite lookup_insert_ne by lia.
        by rewrite Hpar. }
      split; [by rewrite Hg2|].
      split; [by rewrite Hc2, Hlog, Hgeo, <- app_assoc|].
      split; [by rewrite Hch, <- app_assoc|].
      rewrite Hgeo in *.
      split; [by constructor|]. split.
      { constructor; [lia|].
        eapply Forall_impl; [exact Hids|]. simpl. intros c Hc. lia. }
      by rewrite Hlv.
    + subst result. unfold ret at 1.
      destruct (IH (S index) lod s1) as
        (lod2 & s2 & news & Hloop & Hlid & Hpos & Hn2 & Hp2 & Hg2 & Hc2 & Hch
         & Hnews & Hids & Hlv).
      { lia. }
      { eapply Forall_impl; [exact Hkids|]. simpl. intros c Hc. lia. }
      exists lod2, s2, news. rewrite Hloop. rewrite Hgeo in *.
      split; [done|]. split; [done|]. split; [done|]. split; [lia|].
      split; [intros i Hi; rewrite Hp2 by lia; by rewrite Hpar|].
      split; [by rewrite Hg2|].
      split; [by rewrite Hc2, Hlog, <- app_assoc|].
      split; [done|]. split; [done|]. split; [|done].
      eapply Forall_impl; [exact Hids|]. simpl. intros c Hc. lia.
Qed.

(** The levels of a mesh with a material array: the LOD node has no
    children but copies of the reference to the original mesh. *)
Lemma forEach_falls_back originalMesh :
  hasMaterialArray originalMesh = true ->
  forall levels index lod s,
    (Three.lodChildren lod = [] \/
     (Forall (fun c => Three.id c = Three.id originalMesh) (Three.lodChildren lod) /\
      parents s !! Three.id originalMesh = Some (Three.lodId lod))) ->
    exists lod1 s1,
      forEachFrom (registerLevel originalMesh) index levels lod s = (Return lod1, s1) /\
      Three.lodId lod1 = Three.lodId lod /\
      (Three.lodChildren lod1 = [] \/
       (Forall (fun c => Three.id c = Three.id originalMesh) (Three.lodChildren lod1) /\
        parents s1 !! Three.id originalMesh = Some (Three.lodId lod1))).
Proof.
  intros Hhas levels. induction levels as [|level rest IH]; intros index lod s Hinv.
  - by exists lod, s.
  - cbn [forEachFrom]. unfold bind at 1. unfold registerLevel at 1.
    destruct (visible level) eqn:Hvis.
    + destruct (createLODLevel_falls_back originalMesh level index s Hvis Hhas)
        as (s1 & Hrun & Hpar).
      unfold bind at 1. rewrite Hrun.
      destruct (index =? 0)%nat.
      * destruct (decide (Three.id originalMesh = Three.lodId lod)) as [Heq|Hne].
        -- unfold addLevel, add. simpl.
           rewrite (proj2 (Nat.eqb_eq _ _) Heq).
           unfold bind at 1. unfold modify, ret. simpl.
           match goal with |- context [forEachFrom _ _ rest ?l ?st] =>
             destruct (IH (S index) l st) as (lod2 & s2 & Hloop & Hlid & Hinv2)
           end.
           { simpl. by rewrite Hpar. }
           exists lod2, s2. by rewrite Hloop.
        -- destruct (addLevel_run lod originalMesh (distance level) s1 Hne)
             as (kept & Hadd & Hkept).
           rewrite Hadd.
           match goal with |- context [forEachFrom _ _ rest ?l ?st] =>
             destruct (IH (S index) l st) as (lod2 & s2 & Hloop & Hlid & Hinv2)
           end.
           { right. simpl. split; [|by rewrite lookup_insert_eq].
             apply Forall_app. split; [|by repeat constructor].
             destruct Hinv as [Hnil|[Hall _]].
             - destruct Hkept as [->|[_ ->]]; rewrite Hnil; constructor.
             - destruct Hkept as [->|[_ ->]]; [done|].
               rewrite Forall_forall in Hall. apply Forall_forall.
               intros c Hc. apply list_elem_of_filter in Hc as [_ Hc].
               by apply Hall. }
           exists lod2, s2. by rewrite Hloop.
      * unfold ret at 1.
        destruct (IH (S index) lod s1) as (lod2 & s2 & Hloop & Hlid & Hinv2);
          [by rewrite Hpar|].
        exists lod2, s2. by rewrite Hloop.
    + unfold bind at 1. rewrite (createLODLevel_disabled _ _ _ _ Hvis).
      unfold ret at 1.
      destruct (IH (S index) lod s Hinv) as (lod2 & s2 & Hloop & Hlid & Hinv2).
      exists lod2, s2. by rewrite Hloop.
Qed.

End Levels.

Section Placement.

Implicit Types (s : State) (originalMesh : Three.Object3D) (lod : Three.LOD).

Lemma placeInScene_run originalMesh lod s :
  exists lod1 s1,
    placeInScene originalMesh lod s = (Return lod1, s1) /\
    Three.lodId lod1 = Three.lodId lod /\
    Three.lodPosition lod1 = Three.lodPosition lod /\
    Three.levels lod1 = Three.levels lod /\
    parents s1 !! Three.id originalMesh = None /\
    lodObjects s1 = lodObjects s /\
    Three.lodChildren lod1
    = (if bool_decide (parents s !! Three.id originalMesh = Some (Three.lodId lod))
       then filter (fun c => Three.id c <> Three.id originalMesh) (Three.lodChildren lod)
       else Three.lodChildren lod) /\
    (forall p,
       parents s !! Three.id originalMesh = Some p ->
       p <> Three.lodId lod -> Three.id originalMesh <> Three.lodId lod ->
       parents s1 !! Three.lodId lod = Some p).
Proof.
  unfold placeInScene, addTo, removeFromParent, bind, gets, modify, ret. simpl.
  destruct (parents s !! Three.id originalMesh) as [p|] eqn:Hp; simpl.
  - destruct (Nat.eqb_spec (Three.lodId lod) p) as [<-|Hne]; simpl.
    + rewrite Hp. simpl. rewrite Nat.eqb_refl. simpl.
      do 2 eexists. split; [done|]. simpl.
      rewrite lookup_delete_eq, bool_decide_eq_true_2 by done.
      repeat split; try done. intros p [= ->]. done.
    + rewrite bool_decide_eq_false_2 by congruence.
      destruct (decide (Three.id originalMesh = Three.lodId lod)) as [Heq|Hne'].
      * rewrite Heq, lookup_insert_eq. simpl.
        destruct (Nat.eqb_spec p (Three.lodId lod)) as [->|_]; [done|].
        do 2 eexists. split; [done|]. simpl. rewrite lookup_delete_eq.
        repeat split; try done; intros; congruence.
      * rewrite lookup_insert_ne, Hp by done. simpl.
        destruct (Nat.eqb_spec p (Three.lodId lod)) as [->|_]; [done|].
        do 2 eexists. split; [done|]. simpl. rewrite lookup_delete_eq.
        repeat split; try done.
        intros p' [= <-] _ _.
        rewrite (lookup_delete_ne _ _ _ Hne'). apply lookup_insert_eq.
  - rewrite Hp. simpl. do 2 eexists. split; [done|]. repeat split; done.
Qed.

Lemma placeInScene_geometries originalMesh lod s :
  geometries (after (placeInScene originalMesh lod) s) = geometries s.
Proof.
  unfold after, placeInScene, addTo, removeFromParent, bind, gets, modify, ret.
  simpl.
  destruct (parents s !! Three.id originalMesh) as [p|] eqn:Hp; simpl; [|by rewrite Hp].
  destruct (Three.lodId lod =? p)%nat; simpl.
  - rewrite Hp. simpl. by destruct (p =? Three.lodId lod)%nat.
  - destruct (decide (Three.lodId lod = Three.id originalMesh)) as [->|Hne].
    + rewrite lookup_insert_eq. simpl. by destruct (p =? _)%nat.
    + rewrite lookup_insert_ne, Hp by done. simpl. by destruct (p =? _)%nat.
Qed.

Lemma buildLOD_steps model s :
  buildLOD model s
  = (let* lodObject :=
       forEachFrom (registerLevel (mesh model)) 0 (levels (config s))
         (Three.mkLOD (nextId s) (Three.mkVector3 0 0 0) [] []) in
     placeInScene (mesh model) lodObject) (setNextId (S (nextId s)) s).
Proof.
  unfold buildLOD, newLOD. unfold bind at 1. unfold bind at 1.
  unfold gets at 1. simpl. unfold placeInScene, registerLevel. done.
Qed.

(** The LOD node of a mesh without material arrays. *)
Lemma buildLOD_builds model s :
  hasMaterialArray (mesh model) = false ->
  (Three.id (mesh model) < nextId s)%nat ->
  let built := builtFrom (mesh model) (geometries s) 0 (levels (config s)) in
  exists lod s1,
    buildLOD model s = (Return lod, s1) /\
    Three.lodId lod = nextId s /\
    Three.lodPosition lod = Three.mkVector3 0 0 0 /\
    Forall2 (fun level c => levelInstanceOf (mesh model) c)
      built (Three.lodChildren lod) /\
    Forall (fun c => (nextId s < Three.id c)%nat) (Three.lodChildren lod) /\
    Three.levels lod = levelsAdded (zip built (Three.lodChildren lod)) [] /\
    geometries s1 = geometries s /\
    parents s1 !! Three.id (mesh model) = None /\
    (forall p, parents s !! Three.id (mesh model) = Some p -> p <> nextId s ->
               parents s1 !! nextId s = Some p).
Proof.
  intros Hno Hid. simpl. rewrite buildLOD_steps.
  destruct (forEach_builds (mesh model) Hno (levels (config s)) 0
              (Three.mkLOD (nextId s) (Three.mkVector3 0 0 0) [] [])
              (setNextId (S (nextId s)) s))
    as (lod1 & s1 & news & Hloop & Hlid & Hpos & Hn & Hp & Hgeo & _ & Hch
        & Hnews & Hids & Hlv);
    [simpl; lia|constructor|].
  simpl in *. unfold bind. rewrite Hloop.
  destruct (placeInScene_run (mesh model) lod1 s1)
    as (lod2 & s2 & Hplace & Hlid2 & Hpos2 & Hlv2 & Hgone & _ & Hch2 & Hpar).
  pose proof (placeInScene_geometries (mesh model) lod1 s1) as Hgeo2.
  unfold after in Hgeo2. rewrite Hplace in *. simpl in Hgeo2.
  exists lod2, s2. split; [done|].
  assert (Hkept : Three.lodChildren lod2 = news).
  { rewrite Hch2, Hch. destruct (bool_decide _); [|done].
    apply filter_other_ids. eapply Forall_impl; [exact Hids|].
    simpl. intros c Hc. lia. }
  split; [by rewrite Hlid2|]. split; [by rewrite Hpos2|].
  split; [by rewrite Hkept|].
  split.
  { rewrite Hkept. eapply Forall_impl; [exact Hids|]. simpl. intros c Hc. lia. }
  split; [by rewrite Hkept, Hlv2, Hlv|].
  split; [by rewrite Hgeo2|].
  split; [done|].
  intros p Hp0 Hne. rewrite <- Hlid. apply Hpar; rewrite ?Hlid; [|done|lia].
  by rewrite Hp by lia.
Qed.

(** The LOD node of a mesh with a material array. *)
Lemma buildLOD_falls_back model s :
  hasMaterialArray (mesh model) = true ->
  exists lod s1,
    buildLOD model s = (Return lod, s1) /\
    Three.lodChildren lod = [] /\
    parents s1 !! Three.id (mesh model) = None.
Proof.
  intros Hhas. rewrite buildLOD_steps.
  destruct (forEach_falls_back (mesh model) Hhas (levels (config s)) 0
              (Three.mkLOD (nextId s) (Three.mkVector3 0 0 0) [] [])
              (setNextId (S (nextId s)) s))
    as (lod1 & s1 & Hloop & Hlid & Hinv); [by left|].
  unfold bind. rewrite Hloop.
  destruct (placeInScene_run (mesh model) lod1 s1)
    as (lod2 & s2 & Hplace & _ & _ & _ & Hgone & _ & Hch2 & _).
  rewrite Hplace. exists lod2, s2. split; [done|]. split; [|done].
  rewrite Hch2. destruct Hinv as [Hnil|[Hall Hpar]].
  - rewrite Hnil. by destruct (bool_decide _).
  - rewrite bool_decide_eq_true_2 by done. by apply filter_same_ids.
Qed.

End Placement.

Section RegistrationSteps.

Implicit Types (s : State) (model : IFCModel) (camera : Three.Camera).

(** The removal that opens [createLODForModel]. *)
Lemma removal_step (modelID : Z) s :
  exists s0,
    (if lodObjects s !! modelID is Some _
     then removeLODForModel modelID else ret tt) s = (Return tt, s0) /\
    lodObjects s0 = delete modelID (lodObjects s) /\
    geometries s0 = geometries s /\
    nextId s0 = nextId s /\
    config s0 = config s /\
    (lodObjects s !! modelID = None -> s0 = s).
Proof.
  destruct (lodObjects s !! modelID) as [lod|] eqn:Hl.
  - unfold removeLODForModel, bind, gets, modify, ret. simpl. rewrite Hl. simpl.
    eexists. split; [done|]. by repeat split.
  - exists s. repeat split; try done. by rewrite delete_id.
Qed.

(** A registration in three steps: the removal, the building of the LOD
    node, the entry in the registry. *)
Lemma createLODForModel_steps model camera s :
  exists s0 lod s1,
    lodObjects s0 = delete (modelID model) (lodObjects s) /\
    geometries s0 = geometries s /\
    nextId s0 = nextId s /\
    config s0 = config s /\
    (lodObjects s !! modelID model = None -> s0 = s) /\
    buildLOD model s0 = (Return lod, s1) /\
    createLODForModel model camera s
    = (Return tt, setLodObjects (<[modelID model := lod]> (lodObjects s1)) s1).
Proof.
  destruct (removal_step (modelID model) s) as (s0 & Hrm & Hreg & Hgeo & Hn & Hc & Hsame).
  destruct (buildLOD_returns model s0) as (lod & Hret).
  destruct (buildLOD model s0) as [out s1] eqn:Hbuild. simpl in Hret. subst out.
  exists s0, lod, s1. repeat split; try done.
  rewrite createLODForModel_build, bind_gets.
  rewrite (bind_returned _ _ s tt s0 Hrm).
  by rewrite (bind_returned _ _ s0 lod s1 Hbuild).
Qed.

Lemma buildLOD_detaches model s lod s1 :
  buildLOD model s = (Return lod, s1) ->
  parents s1 !! Three.id (mesh model) = None.
Proof.
  rewrite buildLOD_steps. unfold bind.
  destruct (forEachFrom _ _ _ _ _) as [[lod1|e] s2]; [|done].
  destruct (placeInScene_run (mesh model) lod1 s2)
    as (lod2 & s3 & -> & _ & _ & _ & Hgone & _).
  by intros [= <- <-].
Qed.

End RegistrationSteps.

(** ** Failures of level synthesis *)

Section LevelsAdded.

Implicit Types (ls : list (Q * nat)) (entries : list (LODLevel * Three.Object3D)).

Lemma insertLevel_Permutation (d : Q) (object : nat) ls :
  Three.insertLevel d object ls ≡ₚ (d, object) :: ls.
Proof.
  induction ls as [|l rest IH]; simpl; [done|].
  destruct (Num.ltb d l.1); [done|].
  rewrite IH. apply Permutation_swap.
Qed.

Lemma insertLevel_sorted (d : Q) (object : nat) ls :
  StronglySorted (fun a b => (a.1 <= b.1)%Q) ls ->
  StronglySorted (fun a b => (a.1 <= b.1)%Q) (Three.insertLevel d object ls).
Proof.
  induction 1 as [|l rest Hsorted IH Hall]; simpl.
  - repeat constructor.
  - destruct (Num.ltb d l.1) eqn:Hlt.
    + assert (Hd : (d <= l.1)%Q).
      { unfold Num.ltb in Hlt. apply negb_true_iff in Hlt.
        destruct (Qlt_le_dec d l.1) as [H|H]; [by apply Qlt_le_weak|].
        apply Qle_bool_iff in H. congruence. }
      constructor; [by constructor|]. constructor; [done|].
      eapply Forall_impl; [exact Hall|]. simpl. intros b Hb.
      by apply Qle_trans with l.1.
    + constructor; [done|].
      rewrite insertLevel_Permutation. constructor; [|done]. simpl.
      unfold Num.ltb in Hlt. apply negb_false_iff in Hlt.
      by apply Qle_bool_iff.
Qed.

(** The levels of an LOD node are the pairs that were added, by
    ascending distance. *)
Lemma levelsAdded_sorted entries ls :
  StronglySorted (fun a b => (a.1 <= b.1)%Q) ls ->
  levelsAdded entries ls
  ≡ₚ ls ++ map (fun entry => (Qabs (distance entry.1), Three.id entry.2)) entries /\
  StronglySorted (fun a b => (a.1 <= b.1)%Q) (levelsAdded entries ls).
Proof.
  unfold levelsAdded. revert ls.
  induction entries as [|entry entries IH]; intros ls Hsorted; simpl.
  - by rewrite app_nil_r.
  - destruct (IH _ (insertLevel_sorted (Qabs (distance entry.1))
                      (Three.id entry.2) ls Hsorted)) as [Hperm Hs].
    split; [|done]. rewrite Hperm, insertLevel_Permutation.
    simpl. apply Permutation_middle.
Qed.

End LevelsAdded.

(** C6: when the [try] block of an enabled level throws, the level
    yields the original mesh itself at index 0 and null at any other
    index, a warning is logged and no geometry has been touched; the
    block returns exactly when the level has no error to end with;
    [createLODLevel] never throws.  The registration goes on with the
    levels that remain: for a mesh without material arrays the LOD node
    that is registered has one child for every enabled level whose
    [try] block returns, in their order, whatever levels failed in
    between, and its levels are these children, each at the distance of
    its level, by ascending distance.  And [createLODForModel] returns
    with the model registered for every model. *)
Theorem synthesis_failure_is_caught :
  (forall originalMesh level levelIndex s e s1,
     visible level = true ->
     createLODLevelBody originalMesh level levelIndex s = (Throw e, s1) ->
     createLODLevel originalMesh level levelIndex s
     = (Return (if (levelIndex =? 0)%nat then Some originalMesh else None),
        logEntry (WarnLevelFailed levelIndex e) s1) /\
     geometries s1 = geometries s) /\
  (forall originalMesh level levelIndex s,
     levelError originalMesh (geometries s) level levelIndex = None <->
     exists levelMesh s1,
       createLODLevelBody originalMesh level levelIndex s
       = (Return (Some levelMesh), s1)) /\
  (forall originalMesh level levelIndex,
     returns (createLODLevel originalMesh level levelIndex)) /\
  (forall model camera s,
     hasMaterialArray (mesh model) = false ->
     (Three.id (mesh model) < nextId s)%nat ->
     let built := builtFrom (mesh model) (geometries s) 0 (levels (config s)) in
     exists lodObject s1,
       createLODForModel model camera s = (Return tt, s1) /\
       lodObjects s1 !! modelID model = Some lodObject /\
       Forall2 (fun level child => levelInstanceOf (mesh model) child)
         built (Three.lodChildren lodObject) /\
       Three.levels lodObject
       ≡ₚ map (fun entry => (Qabs (distance entry.1), Three.id entry.2))
            (zip built (Three.lodChildren lodObject)) /\
       StronglySorted (fun a b => (a.1 <= b.1)%Q) (Three.levels lodObject)) /\
  (forall model camera s,
     exists s1,
       createLODForModel model camera s = (Return tt, s1) /\
       is_Some (lodObjects s1 !! modelID model)).
Proof.
  split; [|split; [|split; [|split]]].
  - intros originalMesh level levelIndex s e s1 Hvis Hbody. split.
    + unfold createLODLevel. rewrite Hvis. simpl. unfold tryCatch.
      by rewrite Hbody.
    + destruct (createLODLevelBody_run originalMesh level levelIndex s) as [_ Hrun].
      destruct (levelError _ _ _ _) as [error|].
      * rewrite Hrun in Hbody. by injection Hbody as _ <-.
      * destruct Hrun as (levelMesh & Hrun & _). congruence.
  - intros originalMesh level levelIndex s.
    destruct (createLODLevelBody_run originalMesh level levelIndex s) as [_ Hrun].
    destruct (levelError _ _ _ _) as [error|].
    + split; [done|]. intros (levelMesh & s1 & Hbody). congruence.
    + split; [|done]. intros _.
      destruct Hrun as (levelMesh & Hrun & _). by eexists _, _.
  - apply createLODLevel_returns.
  - intros model camera s Hno Hid. simpl.
    destruct (createLODForModel_steps model camera s)
      as (s0 & lod & s1 & _ & Hgeo & Hn & Hc & _ & Hbuild & Hrun).
    destruct (buildLOD_builds model s0 Hno) as
      (lod' & s1' & Hbuild' & _ & _ & Hch & _ & Hlv & _); [lia|].
    rewrite Hbuild in Hbuild'. injection Hbuild' as <- <-.
    rewrite Hgeo, Hc in Hch, Hlv.
    exists lod. eexists. split; [exact Hrun|]. simpl.
    split; [apply lookup_insert_eq|]. split; [done|].
    rewrite Hlv. apply (levelsAdded_sorted _ []). constructor.
  - intros model camera s.
    destruct (createLODForModel_run model camera s) as (lodObject & s2 & Hrun).
    eexists. split; [done|]. simpl. rewrite lookup_insert_eq. by eexists.
Qed.

Lemma synthesis_failure_is_caught_witness :
  exists lodObject s1,
    createLODForModel exampleModel (cameraAt 0) gapState = (Return tt, s1) /\
    lodObjects s1 !! modelID exampleModel = Some lodObject /\
    Forall2 (fun level child => levelInstanceOf (mesh exampleModel) child)
      (builtFrom (mesh exampleModel) (geometries gapState) 0 (levels (config gapState)))
      (Three.lodChildren lodObject) /\
    Three.levels lodObject
    ≡ₚ map (fun entry => (Qabs (distance entry.1), Three.id entry.2))
         (zip (builtFrom (mesh exampleModel) (geometries gapState) 0
                 (levels (config gapState)))
            (Three.lodChildren lodObject)) /\
    StronglySorted (fun a b => (a.1 <= b.1)%Q) (Three.levels lodObject).
Proof.
  apply (proj1 (proj2 (proj2 (proj2 synthesis_failure_is_caught)))
           exampleModel (cameraAt 0) gapState); [reflexivity|simpl; lia].
Defined.

(** Three enabled levels of which the one in the middle fails: the
    levels on either side of it are built and registered. *)
Example registration_past_a_failed_level :
  let s1 := after (createLODForModel exampleModel (cameraAt 0)) gapState in
  builtFrom exampleMesh (geometries gapState) 0 (levels (config gapState))
  = [mkLODLevel 0 1 true; mkLODLevel 200 1 true] /\
  console s1 = [WarnLevelFailed 1 ThreeNotDefined] /\
  (fun lodObject => map Three.id (Three.lodChildren lodObject))
    <$> lodObjects s1 !! 42 = Some [101%nat; 103%nat] /\
  Three.levels <$> lodObjects s1 !! 42 = Some [(0%Q, 101%nat); (200%Q, 103%nat)].
Proof. by vm_compute. Qed.

(** A mesh with a material array fails at every level: three warnings,
    one for each enabled level, and the registration still completes. *)
Example multiMaterial_registration :
  let s1 := after (createLODForModel multiMaterialModel (cameraAt 0)) sceneState in
  (createLODForModel multiMaterialModel (cameraAt 0) sceneState).1 = Return tt /\
  console s1
  = [WarnLevelFailed 0 NotAFunction; WarnLevelFailed 1 ThreeNotDefined;
     WarnLevelFailed 2 ThreeNotDefined; ErrorAddToItself] /\
  Three.levels <$> (lodObjects s1 !! 42) = Some [(0%Q, 1%nat)].
Proof. by vm_compute. Qed.

(** ** Sharing of geometry *)

(** C4, at the failing input: after the registration of the example
    model its one level instance, that of level 0, refers to the
    geometry of the source mesh, object [7] of the store, so that a
    position buffer put in place through the level instance is the
    buffer of the source mesh.  Levels 1 and 2 were dropped, each with
    a warning, and the buffer still holds its twelve points. *)
Theorem levels_share_source_geometry :
  Three.geometry (mesh exampleModel) = Some 7%nat /\
  geometries sceneState !! 7%nat ≫= Three.position = Some (diagonal 12) /\
  (fun lodObject => map Three.geometry (Three.lodChildren lodObject))
    <$> lodObjects registeredState !! 42
  = Some [Some 7%nat] /\
  match Three.lodChildren <$> lodObjects registeredState !! 42 with
  | Some [levelMesh] =>
      match Three.geometry levelMesh with
      | Some g =>
          forall buffer,
            geometries (after (replacePositions g buffer) registeredState)
              !! 7%nat ≫= Three.position
            = Some buffer
      | None => False
      end
  | _ => False
  end /\
  console registeredState
  = [WarnLevelFailed 1 ThreeNotDefined; WarnLevelFailed 2 ThreeNotDefined] /\
  geometries registeredState !! 7%nat ≫= Three.position = Some (diagonal 12).
Proof.
  split; [done|]. split; [done|]. split; [by vm_compute|].
  split; [|by vm_compute].
  vm_compute. intros buffer. reflexivity.
Qed.

(** ** The registry *)

Section Registry.

Implicit Types (s : State) (modelID : Z).

Lemma filter_key_None (m : gmap Z Three.LOD) modelID :
  m !! modelID = None ->
  filter (fun entry : Z * Three.LOD => entry.1 = modelID) (map_to_list m) = [].
Proof.
  intros Hl.
  destruct (filter _ _) as [|[k v] l] eqn:E; [done|].
  assert (Hin : (k, v) ∈ filter (fun entry : Z * Three.LOD => entry.1 = modelID)
                  (map_to_list m))
    by (rewrite E; apply list_elem_of_here).
  apply list_elem_of_filter in Hin as [Hk Hin]. simpl in Hk. subst k.
  apply elem_of_map_to_list in Hin. congruence.
Qed.

Lemma entriesFor_None modelID s :
  lodObjects s !! modelID = None -> entriesFor modelID s = O.
Proof. intros Hl. unfold entriesFor. by rewrite filter_key_None. Qed.

Lemma entriesFor_Some modelID s lodObject :
  lodObjects s !! modelID = Some lodObject -> entriesFor modelID s = 1%nat.
Proof.
  intros Hl. unfold entriesFor.
  pose proof (map_to_list_delete _ _ _ Hl) as Hperm.
  apply (filter_Permutation (fun entry : Z * Three.LOD => entry.1 = modelID))
    in Hperm.
  apply Permutation_length in Hperm. rewrite <- Hperm.
  rewrite filter_cons_True by done.
  by rewrite filter_key_None by apply lookup_delete_eq.
Qed.

Lemma entriesFor_le_1 modelID s : (entriesFor modelID s <= 1)%nat.
Proof.
  destruct (lodObjects s !! modelID) as [lodObject|] eqn:Hl.
  - rewrite (entriesFor_Some _ _ _ Hl). lia.
  - rewrite (entriesFor_None _ _ Hl). lia.
Qed.

Lemma delete_insert_delete (m : gmap Z Three.LOD) modelID lodObject :
  delete modelID (<[modelID := lodObject]> (delete modelID m)) = delete modelID m.
Proof. rewrite delete_insert_eq. apply delete_id, lookup_delete_eq. Qed.

Lemma createLODForModel_after_removal model camera s :
  createLODForModel model camera s
  = createLODForModel model camera (after (removeLODForModel (modelID model)) s).
Proof.
  destruct (removeLODForModel_run (modelID model) s) as (removed & Hrm & Hreg).
  unfold after. rewrite Hrm. simpl.
  destruct (lodObjects s !! modelID model) eqn:Hl.
  - rewrite !createLODForModel_build, !bind_gets.
    rewrite Hreg, lookup_delete_eq, Hl.
    by rewrite (bind_returned _ _ s tt removed Hrm), bind_ret.
  - unfold removeLODForModel, bind, gets, ret in Hrm.
    rewrite Hl in Hrm. simpl in Hrm. by injection Hrm as <-.
Qed.

End Registry.

(** C8: whatever registrations and removals have run, the registry holds
    at most one entry for an identifier.  A registration leaves exactly
    one entry for the model and the entries of the other models as they
    were, and registering a managed model is registering it after its
    removal, which leaves no entry for it and its LOD node without
    parent. *)
Theorem registration_single_entry :
  (forall ops s modelID, (entriesFor modelID (runOperations ops s) <= 1)%nat) /\
  (forall model camera s,
     let s1 := after (createLODForModel model camera) s in
     let removed := after (removeLODForModel (modelID model)) s in
     entriesFor (modelID model) s1 = 1%nat /\
     delete (modelID model) (lodObjects s1) = delete (modelID model) (lodObjects s) /\
     entriesFor (modelID model) removed = O /\
     match lodObjects s !! modelID model with
     | Some prior => parents removed !! Three.lodId prior = None
     | None => removed = s
     end /\
     createLODForModel model camera s = createLODForModel model camera removed).
Proof.
  split; [intros; apply entriesFor_le_1|].
  intros model camera s. simpl.
  destruct (createLODForModel_run model camera s) as (lodObject & s2 & Hrun).
  destruct (removeLODForModel_run (modelID model) s) as (removed & Hrm & Hreg).
  unfold after. rewrite Hrun, Hrm. simpl. repeat split.
  - apply entriesFor_Some with lodObject. simpl. apply lookup_insert_eq.
  - apply delete_insert_delete.
  - apply entriesFor_None. rewrite Hreg. apply lookup_delete_eq.
  - clear Hrun. unfold removeLODForModel, bind, gets, modify, ret in Hrm.
    destruct (lodObjects s !! modelID model) as [prior|]; simpl in Hrm;
      injection Hrm as <-; [|done].
    simpl. apply lookup_delete_eq.
  - rewrite <- Hrun, (createLODForModel_after_removal model camera s).
    unfold after. by rewrite Hrm.
Qed.

(** ** Teardown *)


(** * Further properties of the methods *)

(** ** The decimator on any buffer *)

Section DecimateAnyBuffer.

Context {A : Type}.
Implicit Types (positions acc : list A) (n s i fuel : nat).

Lemma points_length_div positions :
  length (points positions) = (length positions / 3)%nat.
Proof.
  remember (length positions) as m eqn:Hm. revert positions Hm.
  induction (lt_wf m) as [m _ IH]. intros positions Hm.
  destruct positions as [|x [|y [|z rest]]]; subst m; try done.
  cbn [points length].
  rewrite (IH (length rest)) by (simpl; lia || done).
  replace (S (S (S (length rest)))) with (length rest + 1 * 3)%nat by lia.
  rewrite Nat.div_add by lia. lia.
Qed.

Lemma points_bounds positions :
  (3 * length (points positions) <= length positions
   < 3 * length (points positions) + 3)%nat.
Proof.
  rewrite points_length_div.
  pose proof (Nat.div_mod_eq (length positions) 3).
  pose proof (Nat.mod_upper_bound (length positions) 3). lia.
Qed.

Lemma points_cons_inv positions (p : A * A * A) ps :
  points positions = p :: ps ->
  exists rest,
    positions = p.1.1 :: p.1.2 :: p.2 :: rest /\ points rest = ps.
Proof.
  destruct positions as [|x [|y [|z rest]]]; simpl; try done.
  intros [= <- <-]. by exists rest.
Qed.

(** The loop on any buffer: the point at [i] is pushed when it is whole,
    and the stray coordinates after the last whole point never are. *)
Lemma decimateLoop_whole positions s :
  (1 <= s)%nat ->
  forall fuel i acc,
    (length positions < 3 * i + fuel)%nat -> (1 <= fuel)%nat ->
    decimateLoop fuel positions (Some s) i acc
    = Some (acc ++ unpoints (strideFrom s 0 (drop i (points positions)))).
Proof.
  intros Hs. pose proof (points_bounds positions) as Hn.
  induction fuel as [|fuel IH]; intros i acc Hlen Hfuel; [lia|].
  simpl. rewrite ltb_originalCount.
  destruct (le_lt_dec (length (points positions)) i) as [Hout|Hin].
  - rewrite (drop_ge (points positions) i) by done.
    cbn [strideFrom unpoints flat_map]. rewrite app_nil_r.
    assert (Hg : (i * 3 + 2 <? length positions)%nat = false)
      by (apply Nat.ltb_ge; lia).
    rewrite Hg.
    destruct (3 * i <? length positions)%nat eqn:E; [|done].
    apply Nat.ltb_lt in E. rewrite IH by lia.
    rewrite (drop_ge (points positions)) by lia.
    cbn [strideFrom unpoints flat_map]. by rewrite app_nil_r.
  - assert (E : (3 * i <? length positions)%nat = true)
      by (apply Nat.ltb_lt; lia).
    assert (Hg : (i * 3 + 2 <? length positions)%nat = true)
      by (apply Nat.ltb_lt; lia).
    rewrite E, Hg, IH by lia. f_equal. rewrite <- app_assoc. f_equal.
    replace (i * 3)%nat with (3 * i)%nat by lia.
    destruct (drop i (points positions)) as [|p ps] eqn:Hd.
    { apply (f_equal length) in Hd. rewrite length_drop in Hd. simpl in Hd. lia. }
    rewrite <- points_drop in Hd.
    destruct (points_cons_inv _ _ _ Hd) as (rest & Hrest & Hps).
    rewrite Hrest. simpl. rewrite (strideFrom_skip s (s - 1)).
    do 2 f_equal.
    replace (i + s)%nat with (S i + (s - 1))%nat by lia.
    rewrite <- drop_drop. f_equal.
    replace (S i) with (i + 1)%nat by lia.
    rewrite <- drop_drop, <- points_drop, Hrest. simpl. by rewrite Hps.
Qed.

Lemma floor_originalCount_nonzero positions (t : Z) :
  t <> 0 ->
  Qfloor (originalCount positions / inject_Z t)
  = Z.of_nat (length positions) / (3 * t).
Proof.
  intros Ht. rewrite Zdiv_Qdiv. apply Qfloor_comp.
  unfold originalCount, Num.ofNat. rewrite inject_Z_mult.
  field. intros H. apply (inject_Z_injective t 0) in H. lia.
Qed.

Lemma decimateStep_whole positions (t : Z) :
  0 < t ->
  decimateStep positions t
  = Some (Z.to_nat (stride (length (points positions)) t)).
Proof.
  intros Ht. rewrite decimateStep_pos by done. unfold stride.
  rewrite points_length_div, Nat2Z.inj_div. change (Z.of_nat 3) with 3.
  by rewrite Z.div_div by lia.
Qed.

Lemma newPositions_whole positions (t : Z) :
  0 < t ->
  newPositions positions t
  = Some (unpoints (strideFrom (Z.to_nat (stride (length (points positions)) t)) 0
                      (points positions))).
Proof.
  intros Ht. unfold newPositions. rewrite decimateStep_whole by done.
  rewrite decimateLoop_whole by (unfold stride; lia). done.
Qed.

Lemma wholePoints_length positions :
  (length (wholePoints positions) <= length positions)%nat.
Proof.
  unfold wholePoints. rewrite unpoints_length.
  pose proof (points_bounds positions). lia.
Qed.

(** X1: on any buffer, whole points or not, and for any
    [targetCount >= 1], the loop of [decimateVertices] ends and has
    collected whole points only: what it collects on the buffer cut back
    to its whole points, a subsequence of the points of the input, never
    longer than the input.  The method then throws at
    [new THREE.BufferAttribute] and returns nothing. *)
Theorem decimateVertices_drops_stray_coordinates
    positions (targetCount : Z) (s : State) :
  1 <= targetCount ->
  (exists out,
     newPositions positions targetCount = Some out /\
     newPositions (wholePoints positions) targetCount = Some out /\
     out = wholePoints out /\
     sublist (points out) (points positions) /\
     (length out <= length positions)%nat) /\
  decimateVertices positions targetCount s = (Throw ThreeNotDefined, s).
Proof.
  intros Ht. split; [|apply decimateVertices_throws].
  eexists. split; [apply newPositions_whole; lia|].
  rewrite newPositions_whole by lia.
  unfold wholePoints. rewrite !points_unpoints. split; [done|].
  split; [done|]. split; [apply strideFrom_sublist|].
  rewrite unpoints_length.
  pose proof (sublist_length _ _
    (strideFrom_sublist (Z.to_nat (stride (length (points positions)) targetCount))
       0 (points positions))).
  pose proof (points_bounds positions). lia.
Qed.

Lemma decimateStep_negative positions (t : Z) :
  t < 0 -> decimateStep positions t = Some 1%nat.
Proof.
  intros Ht. unfold decimateStep.
  destruct (Z.eqb_spec t 0) as [->|_]; [lia|].
  rewrite floor_originalCount_nonzero by lia. do 2 f_equal.
  assert (Z.of_nat (length positions) / (3 * t) <= 0); [|lia].
  pose proof (Z.div_mod (Z.of_nat (length positions)) (3 * t) ltac:(lia)).
  pose proof (Z.mod_neg_bound (Z.of_nat (length positions)) (3 * t) ltac:(lia)).
  nia.
Qed.

(** X2: a [targetCount] that is not positive.  Dividing by a negative
    count gives a stride of 1, and the loop collects all the whole
    points; dividing by [0] gives an infinite stride, and the loop
    collects the first whole point alone.  The method then throws at
    [new THREE.BufferAttribute] and returns nothing. *)
Theorem decimateVertices_nonpositive_target
    positions (targetCount : Z) (s : State) :
  targetCount <= 0 ->
  newPositions positions targetCount
  = Some (if targetCount =? 0
          then unpoints (take 1 (points positions))
          else wholePoints positions) /\
  decimateVertices positions targetCount s = (Throw ThreeNotDefined, s).
Proof.
  intros Ht. split; [|apply decimateVertices_throws].
  destruct (Z.eqb_spec targetCount 0) as [->|Hne].
  - unfold newPositions, decimateStep. simpl decimateLoop.
    rewrite ltb_originalCount.
    destruct positions as [|x [|y [|z rest]]]; try done.
  - unfold newPositions. rewrite decimateStep_negative by lia.
    rewrite decimateLoop_whole by lia.
    by rewrite drop_0, strideFrom_one.
Qed.

End DecimateAnyBuffer.

Lemma decimateVertices_drops_stray_coordinates_witness :
  (exists out,
     newPositions [1; 2; 3; 4; 5; 6; 7; 8] 2 = Some out /\
     newPositions (wholePoints [1; 2; 3; 4; 5; 6; 7; 8]) 2 = Some out /\
     out = wholePoints out /\
     sublist (points out) (points [1; 2; 3; 4; 5; 6; 7; 8]) /\
     (length out <= length [1; 2; 3; 4; 5; 6; 7; 8])%nat) /\
  decimateVertices [1; 2; 3; 4; 5; 6; 7; 8] 2 sceneState
  = (Throw ThreeNotDefined, sceneState).
Proof.
  apply (decimateVertices_drops_stray_coordinates [1; 2; 3; 4; 5; 6; 7; 8] 2
           sceneState). lia.
Defined.

Lemma decimateVertices_nonpositive_target_witness :
  newPositions [1; 2; 3; 4; 5; 6; 7] 0 = Some [1; 2; 3] /\
  decimateVertices [1; 2; 3; 4; 5; 6; 7] 0 sceneState
  = (Throw ThreeNotDefined, sceneState).
Proof.
  apply (decimateVertices_nonpositive_target [1; 2; 3; 4; 5; 6; 7] 0 sceneState).
  lia.
Defined.

(** ** What the simplification does *)

Lemma ltb_target_originalCount (positions : list Q) (t : Z) :
  Num.ltb (inject_Z t) (originalCount positions)
  = (3 * t <? Z.of_nat (length positions)).
Proof.
  unfold Num.ltb, Num.ofNat, originalCount.
  destruct (3 * t <? Z.of_nat (length positions)) eqn:E.
  - apply Z.ltb_lt in E. apply negb_true_iff.
    destruct (Qle_bool _ _) eqn:F; [|done].
    apply Qle_bool_iff in F. unfold Qle, Qdiv, Qmult, Qinv in F. simpl in F. lia.
  - apply Z.ltb_ge in E. apply negb_false_iff.
    apply Qle_bool_iff. unfold Qle, Qdiv, Qmult, Qinv. simpl. lia.
Qed.

(** X3: [simplifyGeometry] never replaces a buffer.  It throws the error
    of the decimator exactly when a mesh of the tree has a geometry
    whose position buffer holds more than [targetCount] points, that is
    more than [3 * targetCount] numbers; otherwise it returns; either
    way it leaves the state as it found it. *)
Theorem simplifyGeometry_throws_or_leaves
    (mesh : Three.Object3D) (ratio : Q) (s : State) :
  simplifyGeometry mesh ratio s
  = (if needsDecimation ratio (geometries s) mesh
     then Throw ThreeNotDefined else Return tt, s) /\
  (needsDecimation ratio (geometries s) mesh = true <->
   exists child g before positions,
     child ∈ Three.nodes mesh /\
     Three.isMesh child = true /\
     Three.geometry child = Some g /\
     geometries s !! g = Some before /\
     Three.position before = Some positions /\
     3 * targetCountOf positions ratio < Z.of_nat (length positions)).
Proof.
  split; [apply simplifyGeometry_run|].
  unfold needsDecimation. rewrite existsb_exists. split.
  - intros (child & Hin & Hdec). apply list_elem_of_In in Hin.
    unfold decimates, meshGeometry in Hdec.
    destruct (Three.isMesh child) eqn:Hmesh; [|done].
    destruct (Three.geometry child) as [g|] eqn:Hg; [|done].
    destruct (geometries s !! g) as [before|] eqn:Hb; [|done]. simpl in Hdec.
    destruct (Three.position before) as [positions|] eqn:Hp; [|done].
    rewrite ltb_target_originalCount in Hdec. apply Z.ltb_lt in Hdec.
    by exists child, g, before, positions.
  - intros (child & g & before & positions & Hin & Hmesh & Hg & Hb & Hp & Hlt).
    exists child. split; [by apply list_elem_of_In|].
    unfold decimates, meshGeometry. rewrite Hmesh, Hg, Hb. simpl. rewrite Hp.
    rewrite ltb_target_originalCount. by apply Z.ltb_lt.
Qed.

(** ** Materials of a level *)



(** X4: [adjustMaterial] throws exactly when some mesh of the tree
    carries an array of materials, on which [child.material.clone] is
    not a function; in every other case it returns. *)
Theorem adjustMaterial_throws_on_material_array
    (mesh : Three.Object3D) (levelIndex : nat) (s : State) :
  ((adjustMaterial mesh levelIndex s).1 = Throw NotAFunction <->
   exists child materials,
     child ∈ Three.nodes mesh /\
     Three.isMesh child = true /\
     Three.material child = Three.MaterialArray materials) /\
  ((adjustMaterial mesh levelIndex s).1 = Throw NotAFunction \/
   exists mesh', (adjustMaterial mesh levelIndex s).1 = Return mesh').
Proof.
  pose proof (adjustMaterial_run mesh levelIndex s) as Hrun.
  assert (Harr : hasMaterialArray mesh = true <->
    exists child materials,
      child ∈ Three.nodes mesh /\
      Three.isMesh child = true /\
      Three.material child = Three.MaterialArray materials).
  { unfold hasMaterialArray. rewrite existsb_exists. split.
    - intros (child & Hin & Hc). apply list_elem_of_In in Hin.
      apply andb_true_iff in Hc as [Hmesh Hmat].
      destruct (Three.material child) as [| |materials] eqn:E; try done.
      by exists child, materials.
    - intros (child & materials & Hin & Hmesh & Hmat).
      exists child. split; [by apply list_elem_of_In|].
      by rewrite Hmesh, Hmat. }
  destruct (hasMaterialArray mesh).
  - rewrite Hrun. simpl. split; [|by left].
    split; [intros _; by apply Harr|done].
  - destruct Hrun as (mesh' & -> & _). simpl. split; [|right; by exists mesh'].
    split; [done|]. intros H. apply Harr in H. done.
Qed.

(** X5: on a tree without material arrays [adjustMaterial] returns a
    tree with the same nodes in the same order.  Every node keeps its
    id, its kind, its visibility and its geometry; the Lambert material
    of a mesh becomes transparent from level 1 on, gets the opacity
    [max(0.3, 1 - 0.2 * levelIndex)] and is drawn as a wireframe from
    level 3 on; any other material is kept. *)
Theorem adjustMaterial_adjusts_every_mesh
    (mesh : Three.Object3D) (levelIndex : nat) (s : State) :
  hasMaterialArray mesh = false ->
  exists mesh',
    adjustMaterial mesh levelIndex s = (Return mesh', s) /\
    Forall2 (adjustedNode levelIndex) (Three.nodes mesh) (Three.nodes mesh').
Proof.
  intros Hno. pose proof (adjustMaterial_run mesh levelIndex s) as Hrun.
  by rewrite Hno in Hrun.
Qed.

Lemma adjustMaterial_adjusts_every_mesh_witness :
  exists mesh',
    adjustMaterial exampleMesh 3 sceneState = (Return mesh', sceneState) /\
    Forall2 (adjustedNode 3) (Three.nodes exampleMesh) (Three.nodes mesh').
Proof.
  apply (adjustMaterial_adjusts_every_mesh exampleMesh 3 sceneState). reflexivity.
Defined.

(** X6: the opacity [adjustMaterial] gives the Lambert material of a
    mesh fades with the level: it is at most 1 and at least 0.3, the
    one of a higher level is at most the one of a lower level, and from
    level 4 on it is 0.3. *)
Theorem adjustMaterial_opacity_fades
    (i j : nat) (child : Three.Object3D) (m : Three.Material) (s : State) :
  Three.isMesh child = true ->
  Three.material child = Three.OneMaterial m ->
  Three.isMeshLambertMaterial m = true ->
  (i <= j)%nat ->
  exists mi mj,
    adjustChild i child s
    = (Return (Three.setMaterial (Three.OneMaterial mi) child), s) /\
    adjustChild j child s
    = (Return (Three.setMaterial (Three.OneMaterial mj) child), s) /\
    (3 # 10 <= Three.opacity mj)%Q /\
    (Three.opacity mj <= Three.opacity mi)%Q /\
    (Three.opacity mi <= 1)%Q /\
    ((4 <= j)%nat -> Three.opacity mj = 3 # 10).
Proof.
  intros Hmesh Hmat Hl Hij. unfold adjustChild. rewrite Hmesh, Hmat, Hl.
  do 2 eexists. split; [done|]. split; [done|]. simpl.
  unfold Num.max, Num.ofNat.
  assert (Hq : (inject_Z (Z.of_nat i) <= inject_Z (Z.of_nat j))%Q)
    by (rewrite <- Zle_Qle; lia).
  assert (Hi : (0 <= inject_Z (Z.of_nat i))%Q)
    by (change 0%Q with (inject_Z 0); rewrite <- Zle_Qle; lia).
  destruct (Qle_bool (3 # 10) (1 - inject_Z (Z.of_nat j) * (2 # 10))) eqn:Ej;
    destruct (Qle_bool (3 # 10) (1 - inject_Z (Z.of_nat i) * (2 # 10))) eqn:Ei.
  all: try (apply Qle_bool_iff in Ej).
  all: try (apply Qle_bool_iff in Ei).
  all: try (assert (Ej' : ~ (3 # 10 <= 1 - inject_Z (Z.of_nat j) * (2 # 10))%Q)
              by (rewrite <- Qle_bool_iff; congruence)).
  all: try (assert (Ei' : ~ (3 # 10 <= 1 - inject_Z (Z.of_nat i) * (2 # 10))%Q)
              by (rewrite <- Qle_bool_iff; congruence)).
  all: repeat split; try lra; try done.
  all: intros H4; exfalso.
  all: assert (H4q : (inject_Z 4 <= inject_Z (Z.of_nat j))%Q)
         by (rewrite <- Zle_Qle; lia).
  all: change (inject_Z 4) with 4%Q in H4q; lra.
Qed.

Lemma adjustMaterial_opacity_fades_witness :
  exists mi mj,
    adjustChild 1 exampleMesh sceneState
    = (Return (Three.setMaterial (Three.OneMaterial mi) exampleMesh), sceneState) /\
    adjustChild 5 exampleMesh sceneState
    = (Return (Three.setMaterial (Three.OneMaterial mj) exampleMesh), sceneState) /\
    (3 # 10 <= Three.opacity mj)%Q /\
    (Three.opacity mj <= Three.opacity mi)%Q /\
    (Three.opacity mi <= 1)%Q /\
    ((4 <= 5)%nat -> Three.opacity mj = 3 # 10).
Proof.
  apply (adjustMaterial_opacity_fades 1 5 exampleMesh lambert sceneState);
    [reflexivity|reflexivity|reflexivity|lia].
Defined.

(** ** The LOD node of a registered model *)

Section BuiltLevels.

Lemma builtFrom_enabled originalMesh store index (ls : list LODLevel) :
  (length (builtFrom originalMesh store index ls) <= enabledCount ls)%nat.
Proof.
  unfold enabledCount. revert index.
  induction ls as [|level rest IH]; intros index; simpl; [done|].
  specialize (IH (S index)).
  rewrite filter_cons. unfold builds.
  destruct (visible level); simpl.
  - destruct (bool_decide _); simpl; lia.
  - done.
Qed.

Lemma levelsAdded_length (entries : list (LODLevel * Three.Object3D)) :
  length (levelsAdded entries []) = length entries.
Proof.
  destruct (levelsAdded_sorted entries []) as [Hperm _]; [constructor|].
  rewrite Hperm. simpl. by rewrite length_map.
Qed.

End BuiltLevels.

(** X7: registering a model whose meshes carry no material array gives
    its LOD node, a new node at the origin, one child and one level for
    every level of the configuration that is built: enabled, and not
    one whose simplification reaches the decimator.  These are at most
    the enabled levels.  Every child is a new object, node for node the
    tree of the original mesh, and every one of its nodes refers to the
    very geometry of the node it was made from. *)
Theorem createLODForModel_one_instance_per_built_level
    (model : IFCModel) (camera : Three.Camera) (s : State) :
  hasMaterialArray (mesh model) = false ->
  (Three.id (mesh model) < nextId s)%nat ->
  let built := builtFrom (mesh model) (geometries s) 0 (levels (config s)) in
  exists lodObject,
    lodObjects (after (createLODForModel model camera) s) !! modelID model
    = Some lodObject /\
    Three.lodId lodObject = nextId s /\
    Three.lodPosition lodObject = Three.mkVector3 0 0 0 /\
    length (Three.lodChildren lodObject) = length built /\
    length (Three.levels lodObject) = length built /\
    (length built <= enabledCount (levels (config s)))%nat /\
    Forall (fun child => (nextId s < Three.id child)%nat /\
                         levelInstanceOf (mesh model) child)
      (Three.lodChildren lodObject).
Proof.
  intros Hno Hid. simpl.
  destruct (createLODForModel_steps model camera s)
    as (s0 & lod & s1 & _ & Hgeo & Hn & Hc & _ & Hbuild & Hrun).
  destruct (buildLOD_builds model s0 Hno) as
    (lod' & s1' & Hbuild' & Hlid & Hpos & Hinst & Hids & Hlv & _); [lia|].
  rewrite Hbuild in Hbuild'. injection Hbuild' as <- <-.
  rewrite Hgeo, Hc, Hn in *.
  unfold after. rewrite Hrun. simpl. rewrite lookup_insert_eq.
  exists lod.
  pose proof (Forall2_length _ _ _ Hinst) as Hlen.
  split; [done|]. split; [done|]. split; [done|]. split; [done|].
  split.
  { rewrite Hlv, levelsAdded_length, length_zip. lia. }
  split; [apply builtFrom_enabled|].
  apply Forall_forall. intros child Hin. split.
  - by eapply (proj1 (Forall_forall _ _) Hids).
  - apply list_elem_of_lookup in Hin as [i Hi].
    destruct (Forall2_lookup_r _ _ _ _ _ Hinst Hi) as (level & _ & H). done.
Qed.

Lemma createLODForModel_one_instance_per_built_level_witness :
  exists lodObject,
    lodObjects (after (createLODForModel exampleModel (cameraAt 0)) gapState)
      !! modelID exampleModel = Some lodObject /\
    Three.lodId lodObject = nextId gapState /\
    Three.lodPosition lodObject = Three.mkVector3 0 0 0 /\
    length (Three.lodChildren lodObject)
    = length (builtFrom (mesh exampleModel) (geometries gapState) 0
                (levels (config gapState))) /\
    length (Three.levels lodObject)
    = length (builtFrom (mesh exampleModel) (geometries gapState) 0
                (levels (config gapState))) /\
    (length (builtFrom (mesh exampleModel) (geometries gapState) 0
               (levels (config gapState)))
     <= enabledCount (levels (config gapState)))%nat /\
    Forall (fun child => (nextId gapState < Three.id child)%nat /\
                         levelInstanceOf (mesh exampleModel) child)
      (Three.lodChildren lodObject).
Proof.
  apply (createLODForModel_one_instance_per_built_level
           exampleModel (cameraAt 0) gapState); [reflexivity|].
  unfold exampleModel, exampleMesh, gapState, sceneState. simpl. lia.
Defined.

(** At [gapState] two of the three enabled levels are built. *)
Example gapState_built :
  length (builtFrom (mesh exampleModel) (geometries gapState) 0
            (levels (config gapState))) = 2%nat /\
  enabledCount (levels (config gapState)) = 3%nat.
Proof. by vm_compute. Qed.

(** X8: registering a model of which some mesh carries a material array
    leaves it without any level instance: the LOD node that is
    registered has no children, and the original mesh has no parent. *)
Theorem createLODForModel_material_array_leaves_no_level
    (model : IFCModel) (camera : Three.Camera) (s : State) :
  hasMaterialArray (mesh model) = true ->
  let s1 := after (createLODForModel model camera) s in
  exists lodObject,
    lodObjects s1 !! modelID model = Some lodObject /\
    Three.lodChildren lodObject = [] /\
    parents s1 !! Three.id (mesh model) = None.
Proof.
  intros Hhas. simpl.
  destruct (createLODForModel_steps model camera s)
    as (s0 & lod & s1 & _ & _ & _ & _ & _ & Hbuild & Hrun).
  destruct (buildLOD_falls_back model s0 Hhas) as (lod' & s1' & Hbuild' & Hnil & Hgone).
  rewrite Hbuild in Hbuild'. injection Hbuild' as <- <-.
  unfold after. rewrite Hrun. simpl. rewrite lookup_insert_eq.
  by exists lod.
Qed.

Lemma createLODForModel_material_array_leaves_no_level_witness :
  exists lodObject,
    lodObjects (after (createLODForModel multiMaterialModel (cameraAt 0)) sceneState)
      !! modelID multiMaterialModel = Some lodObject /\
    Three.lodChildren lodObject = [] /\
    parents (after (createLODForModel multiMaterialModel (cameraAt 0)) sceneState)
      !! Three.id (mesh multiMaterialModel) = None.
Proof.
  apply (createLODForModel_material_array_leaves_no_level
           multiMaterialModel (cameraAt 0) sceneState). reflexivity.
Defined.

(** X9: the first registration of a model, none of whose meshes carries
    a material array, puts the LOD node where the original mesh was: the
    LOD node gets the parent of the mesh, and the mesh is left without
    parent. *)
Theorem createLODForModel_takes_the_place_of_the_mesh
    (model : IFCModel) (camera : Three.Camera) (s : State) (p : nat) :
  lodObjects s !! modelID model = None ->
  hasMaterialArray (mesh model) = false ->
  (Three.id (mesh model) < nextId s)%nat ->
  parents s !! Three.id (mesh model) = Some p ->
  p <> nextId s ->
  let s1 := after (createLODForModel model camera) s in
  parents s1 !! nextId s = Some p /\
  parents s1 !! Three.id (mesh model) = None.
Proof.
  intros Hnew Hno Hid Hp Hne. simpl.
  destruct (createLODForModel_steps model camera s)
    as (s0 & lod & s1 & _ & _ & _ & _ & Hsame & Hbuild & Hrun).
  rewrite (Hsame Hnew) in Hbuild.
  destruct (buildLOD_builds model s Hno Hid) as
    (lod' & s1' & Hbuild' & _ & _ & _ & _ & _ & _ & Hgone & Hpar).
  rewrite Hbuild in Hbuild'. injection Hbuild' as <- <-.
  unfold after. rewrite Hrun. simpl. split; [by apply Hpar|done].
Qed.

Lemma createLODForModel_takes_the_place_of_the_mesh_witness :
  parents (after (createLODForModel exampleModel (cameraAt 0)) sceneState)
    !! nextId sceneState = Some 0%nat /\
  parents (after (createLODForModel exampleModel (cameraAt 0)) sceneState)
    !! Three.id (mesh exampleModel) = None.
Proof.
  apply (createLODForModel_takes_the_place_of_the_mesh
           exampleModel (cameraAt 0) sceneState 0%nat);
    [reflexivity|reflexivity|simpl; lia|reflexivity|simpl; lia].
Defined.

(** X10: removing a model after its registration deletes its entry, so
    that the registry is the one before the registration without an
    entry for the model, and takes the LOD node out of its parent; it
    gives the original mesh no parent back and touches no geometry. *)
Theorem removeLODForModel_after_registration
    (model : IFCModel) (camera : Three.Camera) (s : State) :
  let s1 := after (createLODForModel model camera) s in
  let s2 := after (removeLODForModel (modelID model)) s1 in
  lodObjects s2 = delete (modelID model) (lodObjects s) /\
  parents s2 !! Three.id (mesh model) = None /\
  match lodObjects s1 !! modelID model with
  | Some lodObject => parents s2 !! Three.lodId lodObject = None
  | None => False
  end /\
  geometries s2 = geometries s1 /\
  disposed s2 = disposed s1.
Proof.
  simpl.
  destruct (createLODForModel_steps model camera s)
    as (s0 & lod & s1 & Hreg & _ & _ & _ & _ & Hbuild & Hrun).
  pose proof (buildLOD_detaches model s0 lod s1 Hbuild) as Hgone.
  pose proof (buildLOD_lodObjects model s0) as Hkeep.
  unfold after in *. rewrite Hbuild in Hkeep. simpl in Hkeep.
  rewrite Hrun. simpl.
  unfold removeLODForModel, bind, gets, modify, ret. simpl.
  rewrite lookup_insert_eq. simpl.
  split; [by rewrite delete_insert_eq, Hkeep, Hreg, delete_delete_eq|].
  split.
  { destruct (decide (Three.lodId lod = Three.id (mesh model))) as [->|Hne].
    - apply lookup_delete_eq.
    - by rewrite lookup_delete_ne. }
  split; [apply lookup_delete_eq|done].
Qed.

(** ** The result of a level *)

(** X11: what [createLODLevel] gives, case by case.  It never throws.
    It gives null exactly for a disabled level and for an enabled level
    above 0 whose [try] block ends with an error: that of the
    decimator, which the simplification reaches, or that of a material
    array.  An enabled level 0 whose [try] block ends with an error,
    which is then that of a material array, is the original mesh
    itself; and any other enabled level is a new object, node for node
    the original mesh and referring to its geometries.  A warning with
    the error is logged exactly when the level is enabled and its [try]
    block ends with an error, and no geometry changes. *)
Theorem createLODLevel_result
    (originalMesh : Three.Object3D) (level : LODLevel) (levelIndex : nat)
    (s : State) :
  exists result s1,
    createLODLevel originalMesh level levelIndex s = (Return result, s1) /\
    match result with
    | None =>
        visible level = false \/
        (levelIndex <> O /\
         exists error,
           levelError originalMesh (geometries s) level levelIndex = Some error)
    | Some levelMesh =>
        visible level = true /\
        match levelError originalMesh (geometries s) level levelIndex with
        | Some error =>
            levelIndex = O /\ levelMesh = originalMesh /\ error = NotAFunction
        | None =>
            Three.id levelMesh = nextId s /\
            levelInstanceOf originalMesh levelMesh
        end
    end /\
    console s1
    = console s ++
      (if visible level then
         match levelError originalMesh (geometries s) level levelIndex with
         | Some error => [WarnLevelFailed levelIndex error]
         | None => []
         end
       else []) /\
    geometries s1 = geometries s.
Proof.
  pose proof (createLODLevel_run originalMesh level levelIndex s) as Hrun.
  simpl in Hrun.
  destruct (visible level) eqn:Hvis.
  - destruct (levelError originalMesh (geometries s) level levelIndex)
      as [error|] eqn:Herr.
    + do 2 eexists. split; [exact Hrun|]. simpl.
      split; [|done].
      destruct levelIndex as [|index]; simpl.
      * split; [done|]. split; [done|]. split; [done|].
        unfold levelError, reduces in Herr. simpl in Herr.
        rewrite andb_false_r in Herr. simpl in Herr.
        destruct (hasMaterialArray originalMesh); congruence.
      * right. split; [done|]. by exists error.
    + destruct Hrun as (levelMesh & Hrun & Hid & Hinst).
      do 2 eexists. split; [exact Hrun|]. simpl. rewrite app_nil_r.
      by repeat split.
  - exists None, s. split; [done|]. rewrite app_nil_r.
    split; [by left|done].
Qed.

(** ** The level in use, by distance *)

Lemma qualifies_farther levels (d d' : Q) j :
  (d <= d')%Q -> qualifies false levels d j -> qualifies false levels d' j.
Proof.
  intros Hle (level & Hl & Hd & Hen). exists level.
  split; [done|]. split; [|done]. by apply Qle_trans with d.
Qed.

Lemma scanLevels_monotone levels (d d' : Q) :
  (d <= d')%Q ->
  (scanLevels levels d (length levels)
   <= scanLevels levels d' (length levels))%nat.
Proof.
  intros Hle.
  destruct (scanLevels_all levels d) as [[Hq _]|[-> _]]; [|lia].
  apply (qualifies_farther levels d d' _ Hle) in Hq.
  destruct (scanLevels_all levels d') as [[_ Hmax]|[_ Hnone]].
  - apply Nat.nlt_ge. intros Hlt. by apply (Hmax _ Hlt).
  - by destruct (Hnone _ Hq).
Qed.

Lemma scanLevels_bound levels (d : Q) i :
  (scanLevels levels d i < i)%nat \/ (scanLevels levels d i = O).
Proof.
  destruct (scanLevels_highest levels d i) as [(Hr & _)|[Hr _]]; [by left|by right].
Qed.

(** X12: the level answered for a managed model does not go down when the
    camera moves away: of two cameras, the one at the greater distance
    from the LOD node gets a level at least as high.  Either answer is an
    index of a configured level, or 0 when there is none, and the query
    changes nothing. *)
Theorem getCurrentLODLevel_monotone
    (distanceTo : Three.Vector3 -> Three.Vector3 -> Q)
    (modelID : Z) (near far : Three.Camera) (s : State) (lodObject : Three.LOD) :
  lodObjects s !! modelID = Some lodObject ->
  (distanceTo (Three.cameraPosition near) (Three.lodPosition lodObject)
   <= distanceTo (Three.cameraPosition far) (Three.lodPosition lodObject))%Q ->
  exists a b,
    getCurrentLODLevel distanceTo modelID near s = (Return a, s) /\
    getCurrentLODLevel distanceTo modelID far s = (Return b, s) /\
    (a <= b)%nat /\
    ((b < length (levels (config s)))%nat \/ (b = O)).
Proof.
  intros Hl Hle. unfold getCurrentLODLevel, bind, gets, ret. rewrite Hl.
  eexists _, _. split; [done|]. split; [done|].
  split; [by apply scanLevels_monotone|apply scanLevels_bound].
Qed.

Lemma getCurrentLODLevel_monotone_witness :
  exists a b,
    getCurrentLODLevel exampleDistanceTo 42 (cameraAt 60) managedState
    = (Return a, managedState) /\
    getCurrentLODLevel exampleDistanceTo 42 (cameraAt 300) managedState
    = (Return b, managedState) /\
    (a <= b)%nat /\
    ((b < length (levels (config managedState)))%nat \/ (b = O)).
Proof.
  apply (getCurrentLODLevel_monotone exampleDistanceTo 42 (cameraAt 60)
           (cameraAt 300) managedState
           exampleLOD).
  - reflexivity.
  - vm_compute. discriminate.
Defined.

(** ** Overrides in sequence *)

Section Override.

Implicit Types (modelID level : Z) (s : State) (children : list Three.Object3D).

Lemma imap_setVisible_twice (f g : nat -> bool) children :
  imap (fun index child => Three.setVisible (g index) child)
    (imap (fun index child => Three.setVisible (f index) child) children)
  = imap (fun index child => Three.setVisible (g index) child) children.
Proof.
  revert f g. induction children as [|c cs IH]; intros f g; [done|].
  simpl. f_equal. apply (IH (f ∘ S) (g ∘ S)).
Qed.

Lemma sameButVisible_refl (a : Three.Object3D) : sameButVisible a a.
Proof. by destruct a. Qed.

Lemma imap_setVisible_sameButVisible (f : nat -> bool) children :
  Forall2 sameButVisible children
    (imap (fun index child => Three.setVisible (f index) child) children).
Proof.
  revert f. induction children as [|c cs IH]; intros f; simpl; constructor.
  - done.
  - apply (IH (f ∘ S)).
Qed.

Lemma elementAt_in_range {T} (array : list T) (level : Q) :
  Num.geb level 0 = true -> Num.ltb level (Num.ofNat (length array)) = true ->
  Num.isInteger level = true ->
  is_Some (elementAt array level).
Proof.
  intros H0 H1 Hint. unfold elementAt. rewrite Hint, H0. simpl.
  apply lookup_lt_is_Some_2.
  unfold Num.geb in H0. apply Qle_bool_iff in H0.
  unfold Num.ltb, Num.ofNat in H1. apply negb_true_iff in H1.
  assert (Hlt : (level < inject_Z (Z.of_nat (length array)))%Q).
  { destruct (Qlt_le_dec level (inject_Z (Z.of_nat (length array)))) as [H|H];
      [done|]. apply Qle_bool_iff in H. congruence. }
  assert (Hlow : 0 <= Qfloor level).
  { change 0 with (Qfloor 0). by apply Qfloor_resp_le. }
  assert (Hhigh : Qfloor level < Z.of_nat (length array)).
  { rewrite Zlt_Qlt. eapply Qle_lt_trans; [apply Qfloor_le|done]. }
  lia.
Qed.

(** [setLODLevel], case by case. *)
Lemma setLODLevel_run modelID (level : Q) s :
  setLODLevel modelID level s
  = match lodObjects s !! modelID with
    | None => (Return tt, s)
    | Some lodObject =>
        if Num.geb level 0
           && Num.ltb level (Num.ofNat (length (levels (config s))))
        then
          if Num.isInteger level
          then (Return tt,
                setLodObjects
                  (<[modelID :=
                       Three.setLodChildren
                         (imap (fun index child =>
                                  Three.setVisible
                                    (Qeq_bool (Num.ofNat index) level) child)
                            (Three.lodChildren lodObject)) lodObject]>
                     (lodObjects s)) s)
          else (Throw UndefinedLevel, s)
        else (Return tt, s)
    end.
Proof.
  unfold setLODLevel, bind, gets, ret, modify, throw. simpl.
  destruct (lodObjects s !! modelID) as [lodObject|]; [|done]. simpl.
  destruct (Num.geb level 0) eqn:H0; [|done].
  destruct (Num.ltb level _) eqn:H1; [|done]. simpl.
  destruct (Num.isInteger level) eqn:Hint.
  - by destruct (elementAt_in_range (levels (config s)) level H0 H1 Hint) as [l ->].
  - unfold elementAt. by rewrite Hint.
Qed.

End Override.

(** X13: of two overrides for the same model the later one decides: when
    the later level is an index of the configuration, the two calls in a
    row leave exactly what the later call alone leaves, whatever the
    earlier level was, a number that is no index included. *)
Theorem setLODLevel_last_call_wins
    (modelID : Z) (earlier : Q) (later : Z) (s : State) :
  0 <= later < Z.of_nat (length (levels (config s))) ->
  setLODLevel modelID (inject_Z later) (after (setLODLevel modelID earlier) s)
  = setLODLevel modelID (inject_Z later) s.
Proof.
  intros Hlater. unfold after.
  rewrite (setLODLevel_run modelID earlier s).
  destruct (lodObjects s !! modelID) as [lodObject|] eqn:Hl; [|done].
  destruct (Num.geb earlier 0 && _); [|done].
  destruct (Num.isInteger earlier); [|done].
  simpl. rewrite !setLODLevel_integer. simpl.
  rewrite lookup_insert_eq, Hl.
  replace (0 <=? later) with true by lia.
  replace (later <? Z.of_nat (length (levels (config s)))) with true by lia.
  simpl. rewrite insert_insert_eq. unfold Three.setLodChildren. simpl.
  by rewrite imap_setVisible_twice.
Qed.

Lemma setLODLevel_last_call_wins_witness :
  setLODLevel 42 (inject_Z 1) (after (setLODLevel 42 (inject_Z 2)) managedState)
  = setLODLevel 42 (inject_Z 1) managedState.
Proof.
  apply (setLODLevel_last_call_wins 42 (inject_Z 2) 1 managedState). simpl. lia.
Defined.

(** The level [1/2] is within the range of the four configured levels
    and no index: the read of [levels[level].distance] throws. *)
Example setLODLevel_half :
  setLODLevel 42 (1 # 2) managedState = (Throw UndefinedLevel, managedState).
Proof. by vm_compute. Qed.

(** X14: an override throws exactly for a managed model and a level
    that is within the range of the configured levels and not an
    integer, of which [levels[level]] is undefined; it then leaves the
    state as it was.  In every other case it returns, and in all cases
    it changes nothing but [visible] flags of the children of the LOD
    node of its model: every other entry of the registry, and everything
    outside the registry, is as before, and the LOD node keeps its id,
    its position, its levels and its children in their order, each the
    same but for the flag. *)
Theorem setLODLevel_changes_flags_only (modelID : Z) (level : Q) (s : State) :
  let s1 := after (setLODLevel modelID level) s in
  ((setLODLevel modelID level s).1 = Throw UndefinedLevel <->
   is_Some (lodObjects s !! modelID) /\
   (0 <= level)%Q /\
   (level < Num.ofNat (length (levels (config s))))%Q /\
   Num.isInteger level = false) /\
  ((setLODLevel modelID level s).1 = Return tt \/
   setLODLevel modelID level s = (Throw UndefinedLevel, s)) /\
  s1 = setLodObjects (lodObjects s1) s /\
  (forall other, other <> modelID ->
     lodObjects s1 !! other = lodObjects s !! other) /\
  option_Forall2
    (fun before after' =>
       Three.lodId after' = Three.lodId before /\
       Three.lodPosition after' = Three.lodPosition before /\
       Three.levels after' = Three.levels before /\
       Forall2 sameButVisible
         (Three.lodChildren before) (Three.lodChildren after'))
    (lodObjects s !! modelID) (lodObjects s1 !! modelID).
Proof.
  simpl. unfold after. rewrite (setLODLevel_run modelID level s).
  assert (Hsame : forall lodObject : Three.LOD,
    Forall2 sameButVisible (Three.lodChildren lodObject) (Three.lodChildren lodObject)).
  { intros lodObject. apply Forall_Forall2_diag, Forall_forall.
    intros c _. apply sameButVisible_refl. }
  assert (Hgeb : Num.geb level 0 = true <-> (0 <= level)%Q).
  { unfold Num.geb. apply Qle_bool_iff. }
  assert (Hltb : forall n, Num.ltb level (Num.ofNat n) = true
                           <-> (level < Num.ofNat n)%Q).
  { intros n. unfold Num.ltb. rewrite negb_true_iff. split.
    - intros H. destruct (Qlt_le_dec level (Num.ofNat n)) as [?|Hle]; [done|].
      apply Qle_bool_iff in Hle. congruence.
    - intros H. destruct (Qle_bool _ _) eqn:E; [|done].
      apply Qle_bool_iff in E. by apply Qle_not_lt in E. }
  destruct (lodObjects s !! modelID) as [lodObject|] eqn:Hl.
  - destruct (Num.geb level 0) eqn:H0; simpl.
    + destruct (Num.ltb level _) eqn:H1; simpl.
      * destruct (Num.isInteger level) eqn:Hint; simpl.
        -- split; [split; [done|by intros (_ & _ & _ & ?)]|].
           split; [by left|]. split; [done|].
           split; [intros other Hne; by rewrite lookup_insert_ne|].
           rewrite lookup_insert_eq. constructor. simpl.
           repeat split. apply imap_setVisible_sameButVisible.
        -- split.
           { split; [intros _|done]. split; [done|].
             split; [by apply Hgeb|]. split; [by apply Hltb|done]. }
           split; [by right|]. split; [by destruct s|]. split; [done|].
           rewrite Hl. constructor. by repeat split.
      * split.
        { split; [done|]. intros (_ & _ & Hlt & _).
          apply Hltb in Hlt. congruence. }
        split; [by left|]. split; [by destruct s|]. split; [done|].
        rewrite Hl. constructor. by repeat split.
    + split.
      { split; [done|]. intros (_ & Hle & _). apply Hgeb in Hle. congruence. }
      split; [by left|]. split; [by destruct s|]. split; [done|].
      rewrite Hl. constructor. by repeat split.
  - split; [split; [done|by intros ([? ?] & _)]|].
    split; [by left|]. split; [by destruct s|]. split; [done|].
    simpl. rewrite Hl. constructor.
Qed.

(** ** The memory report *)

Section Memory.

Implicit Types (byLevel : list Z) (store : gmap nat Three.BufferGeometry).

Lemma byteLength_nonneg geometry : 0 <= byteLength geometry.
Proof. unfold byteLength. destruct (geometry ≫= Three.position); lia. Qed.

Lemma addAt_in_range (index : nat) (memory : Z) byLevel :
  (index < length byLevel)%nat ->
  addAt index memory (Some <$> byLevel)
  = Some <$> alter (fun b => b + memory) index byLevel.
Proof.
  intros Hlt. unfold addAt. rewrite length_fmap.
  replace (index <? length byLevel)%nat with true
    by (symmetry; by apply Nat.ltb_lt).
  symmetry. apply list_fmap_alter. by apply Forall_forall.
Qed.

Lemma sumList_alter (index : nat) (memory : Z) byLevel :
  (index < length byLevel)%nat ->
  sumList (alter (fun b => b + memory) index byLevel) = sumList byLevel + memory.
Proof.
  unfold sumList.
  revert index. induction byLevel as [|b bl IH]; intros [|index] Hlt;
    simpl in *; try lia.
  specialize (IH index). unfold alter in IH. rewrite IH by lia. lia.
Qed.

Lemma memoryOfChildren_balanced n store children index acc :
  (index + length children <= n)%nat ->
  balanced n acc ->
  balanced n (memoryOfChildren store children index acc).
Proof.
  revert index acc. induction children as [|child rest IH];
    intros index acc Hle Hacc; simpl in *; [done|].
  apply IH; [lia|].
  destruct (Three.isMesh child); [|done].
  destruct (Three.geometry child) as [g|]; [|done].
  destruct Hacc as (byLevel & -> & Hlen & Hpos). simpl.
  exists (alter (fun b => b + byteLength (store !! g)) index byLevel).
  rewrite addAt_in_range, sumList_alter by lia.
  split; [done|]. split; [by rewrite length_alter|].
  apply Forall_alter; [done|]. intros b _ Hb.
  pose proof (byteLength_nonneg (store !! g)). lia.
Qed.

End Memory.

(** X15: as long as no LOD node has more children than the
    configuration has levels, the report of [getMemoryUsage] adds up:
    [byLevel] has one number for every configured level, none of them
    negative, and [total] is their sum.  The call changes nothing. *)
Theorem getMemoryUsage_total_is_sum (s : State) :
  (forall modelID lodObject,
     lodObjects s !! modelID = Some lodObject ->
     (length (Three.lodChildren lodObject) <= length (levels (config s)))%nat) ->
  exists total byLevel,
    getMemoryUsage s = (Return (total, Some <$> byLevel), s) /\
    length byLevel = length (levels (config s)) /\
    Forall (fun b => 0 <= b) byLevel /\
    total = sumList byLevel.
Proof.
  intros Hfit. unfold getMemoryUsage, gets.
  cut (balanced (length (levels (config s)))
         (map_fold
            (fun _ lodObject acc =>
               memoryOfChildren (geometries s) (Three.lodChildren lodObject) 0 acc)
            (0, replicate (length (levels (config s))) (Some 0))
            (lodObjects s))).
  { intros (byLevel & -> & Hlen & Hpos). by exists (sumList byLevel), byLevel. }
  revert Hfit. generalize (lodObjects s) as registry.
  intros registry. set (n := length (levels (config s))).
  apply (map_fold_weak_ind
           (fun acc (m : gmap Z Three.LOD) =>
              (forall modelID lodObject,
                 m !! modelID = Some lodObject ->
                 (length (Three.lodChildren lodObject) <= n)%nat) ->
              balanced n acc)).
  - intros _. exists (replicate n 0). split.
    + f_equal; [|by rewrite fmap_replicate].
      clear. induction n as [|n IH]; simpl; [done|]. by rewrite <- IH.
    + split; [by rewrite length_replicate|]. by apply Forall_replicate.
  - intros i lodObject m acc Hi IH Hfit.
    apply memoryOfChildren_balanced.
    + simpl. apply (Hfit i). apply lookup_insert_eq.
    + apply IH. intros j lod Hj. apply (Hfit j).
      rewrite lookup_insert_ne; [done|]. intros ->. congruence.
Qed.

Lemma getMemoryUsage_total_is_sum_witness :
  exists total byLevel,
    getMemoryUsage managedState = (Return (total, Some <$> byLevel), managedState) /\
    length byLevel = length (levels (config managedState)) /\
    Forall (fun b => 0 <= b) byLevel /\
    total = sumList byLevel.
Proof.
  apply (getMemoryUsage_total_is_sum managedState).
  intros modelID lodObject Hl. unfold managedState in Hl. simpl in Hl.
  apply lookup_singleton_Some in Hl as [_ <-]. simpl. lia.
Defined.

(** ** Disposal and removal *)

Section Disposal.

Implicit Types (s : State) (registry : gmap Z Three.LOD) (g : nat).

Lemma disposeLOD_disposed lodObject s g :
  g ∈ disposed (disposeLOD lodObject s) <->
  g ∈ disposed s \/
  exists child,
    child ∈ Three.lodChildren lodObject /\ meshGeometry child = Some g.
Proof.
  unfold disposeLOD, detach. simpl. rewrite elem_of_union, elem_of_list_to_set.
  rewrite list_elem_of_In, in_flat_map.
  split.
  - intros [(child & Hin & Hg)|?]; [|by left]. right. exists child.
    rewrite list_elem_of_In. split; [done|]. unfold meshGeometry.
    destruct (Three.isMesh child); [|by destruct Hg].
    destruct (Three.geometry child); simpl in Hg; [|done].
    destruct Hg as [->|[]]. done.
  - intros [?|(child & Hin & Hg)]; [by right|]. left. exists child.
    rewrite list_elem_of_In in Hin. split; [done|]. unfold meshGeometry in Hg.
    destruct (Three.isMesh child); [|done]. rewrite Hg. by left.
Qed.

(** What the [forEach] of [dispose] has done when it has visited the
    LOD nodes of [registry]. *)
Lemma dispose_fold s registry :
  let s1 := map_fold (fun _ => disposeLOD) s registry in
  (forall g,
     g ∈ disposed s1 <->
     g ∈ disposed s \/
     exists modelID lodObject child,
       registry !! modelID = Some lodObject /\
       child ∈ Three.lodChildren lodObject /\
       meshGeometry child = Some g) /\
  (forall modelID lodObject,
     registry !! modelID = Some lodObject ->
     parents s1 !! Three.lodId lodObject = None) /\
  (forall object,
     (forall modelID lodObject,
        registry !! modelID = Some lodObject -> Three.lodId lodObject <> object) ->
     parents s1 !! object = parents s !! object) /\
  (forall object, parents s !! object = None -> parents s1 !! object = None) /\
  setParents (parents s) (setDisposed (disposed s) s1) = s.
Proof.
  simpl.
  apply (map_fold_weak_ind
    (fun s1 registry =>
       (forall g,
          g ∈ disposed s1 <->
          g ∈ disposed s \/
          exists modelID lodObject child,
            registry !! modelID = Some lodObject /\
            child ∈ Three.lodChildren lodObject /\
            meshGeometry child = Some g) /\
       (forall modelID lodObject,
          registry !! modelID = Some lodObject ->
          parents s1 !! Three.lodId lodObject = None) /\
       (forall object,
          (forall modelID lodObject,
             registry !! modelID = Some lodObject ->
             Three.lodId lodObject <> object) ->
          parents s1 !! object = parents s !! object) /\
       (forall object, parents s !! object = None -> parents s1 !! object = None) /\
       setParents (parents s) (setDisposed (disposed s) s1) = s)).
  - split; [|split; [|split; [|split]]]; try done.
    + intros g. split; [by left|]. intros [?|(? & ? & ? & ? & _)]; done.
    + by destruct s.
  - intros i lodObject m r Hi (Hdisp & Hgone & Hkept & Hnone & Hrest).
    split; [|split; [|split; [|split]]].
    + intros g. rewrite disposeLOD_disposed, Hdisp. split.
      * intros [[?|(j & lod & child & Hj & Hin & Hg)]|(child & Hin & Hg)].
        -- by left.
        -- right. exists j, lod, child. split; [|done].
           rewrite lookup_insert_ne; [done|]. intros ->. congruence.
        -- right. exists i, lodObject, child. by rewrite lookup_insert_eq.
      * intros [?|(j & lod & child & Hj & Hin & Hg)]; [by left; left|].
        destruct (decide (i = j)) as [->|Hne].
        -- rewrite lookup_insert_eq in Hj. injection Hj as <-. right. by exists child.
        -- rewrite lookup_insert_ne in Hj by done. left. right. by exists j, lod, child.
    + intros j lod Hj. unfold disposeLOD, detach. simpl.
      destruct (decide (i = j)) as [->|Hne].
      * rewrite lookup_insert_eq in Hj. injection Hj as <-. apply lookup_delete_eq.
      * rewrite lookup_insert_ne in Hj by done.
        destruct (decide (Three.lodId lodObject = Three.lodId lod)) as [->|Hne'].
        -- apply lookup_delete_eq.
        -- rewrite lookup_delete_ne by done. by apply (Hgone j).
    + intros object Hfree. unfold disposeLOD, detach. simpl.
      rewrite lookup_delete_ne.
      * apply Hkept. intros j lod Hj. apply (Hfree j).
        rewrite lookup_insert_ne; [done|]. intros ->. congruence.
      * apply (Hfree i). apply lookup_insert_eq.
    + intros object Hfree. unfold disposeLOD, detach. simpl.
      destruct (decide (Three.lodId lodObject = object)) as [->|Hne].
      * apply lookup_delete_eq.
      * rewrite lookup_delete_ne by done. by apply Hnone.
    + rewrite <- Hrest at 2. unfold disposeLOD, detach. by destruct r.
Qed.

End Disposal.

(** X16: what [dispose] releases.  A geometry has received [dispose()]
    afterwards exactly when it had before or it is the geometry of a
    mesh that is a child of a registered LOD node; the geometry of a
    mesh further down in a level is not released.  Every registered LOD
    node is left without parent, and so is no other object.  The
    buffers in the geometry store, the configuration and the object
    counter are what they were. *)
Theorem dispose_releases_level_geometries (s : State) :
  let s1 := after dispose s in
  (forall g,
     g ∈ disposed s1 <->
     g ∈ disposed s \/
     exists modelID lodObject child,
       lodObjects s !! modelID = Some lodObject /\
       child ∈ Three.lodChildren lodObject /\
       meshGeometry child = Some g) /\
  (forall modelID lodObject,
     lodObjects s !! modelID = Some lodObject ->
     parents s1 !! Three.lodId lodObject = None) /\
  (forall object,
     (forall modelID lodObject,
        lodObjects s !! modelID = Some lodObject ->
        Three.lodId lodObject <> object) ->
     parents s1 !! object = parents s !! object) /\
  geometries s1 = geometries s /\
  config s1 = config s /\
  nextId s1 = nextId s.
Proof.
  simpl. unfold after, dispose, modify. simpl.
  destruct (dispose_fold s (lodObjects s)) as (Hdisp & Hgone & Hkept & _ & Hrest).
  split; [exact Hdisp|]. split; [exact Hgone|]. split; [exact Hkept|].
  clear Hdisp Hgone Hkept.
  destruct (map_fold _ _ _). destruct s. simpl in *. by injection Hrest.
Qed.

Lemma levelInstanceOf_meshGeometry originalMesh levelMesh :
  levelInstanceOf originalMesh levelMesh ->
  meshGeometry levelMesh = meshGeometry originalMesh.
Proof.
  unfold levelInstanceOf, meshGeometry.
  destruct originalMesh, levelMesh. simpl.
  intros H. inversion H as [|? ? ? ? (Hm & _ & Hg) _]; subst.
  simpl in *. by rewrite Hm, Hg.
Qed.

(** The first configured level of a mesh without material array is
    built as soon as it is enabled: level 0 never takes the
    simplification step. *)
Lemma builtFrom_first_level originalMesh store level rest :
  hasMaterialArray originalMesh = false -> visible level = true ->
  builtFrom originalMesh store 0 (level :: rest) <> [].
Proof.
  intros Hno Hvis. simpl. unfold builds, levelError, reduces.
  rewrite Hvis, Hno, andb_false_r. done.
Qed.

(** X17: disposing of the manager after a registration releases the
    geometry of the model itself: when the mesh has no material array
    and at least one level is built for it, that is, enabled and not one
    whose simplification reaches the decimator, the geometry of the
    original mesh has received [dispose()], the original mesh is still
    without parent, and the registry is empty. *)
Theorem dispose_releases_source_geometry
    (model : IFCModel) (camera : Three.Camera) (s : State) (g : nat) :
  hasMaterialArray (mesh model) = false ->
  (Three.id (mesh model) < nextId s)%nat ->
  builtFrom (mesh model) (geometries s) 0 (levels (config s)) <> [] ->
  meshGeometry (mesh model) = Some g ->
  let s2 := after dispose (after (createLODForModel model camera) s) in
  g ∈ disposed s2 /\
  parents s2 !! Three.id (mesh model) = None /\
  lodObjects s2 = ∅.
Proof.
  intros Hno Hid Hbuilt Hg. simpl.
  destruct (createLODForModel_steps model camera s)
    as (s0 & lod & s1 & _ & Hgeo & Hn & Hc & _ & Hbuild & Hrun).
  destruct (buildLOD_builds model s0 Hno) as
    (lod' & s1' & Hbuild' & _ & _ & Hinst & _ & _ & _ & Hgone & _); [lia|].
  rewrite Hbuild in Hbuild'. injection Hbuild' as <- <-.
  rewrite Hgeo, Hc in Hinst.
  unfold after. rewrite Hrun. cbn [snd].
  set (s1' := setLodObjects (<[modelID model:=lod]> (lodObjects s1)) s1).
  unfold dispose, modify. cbn [snd].
  change (lodObjects (setLodObjects ∅ ?x)) with (∅ : gmap Z Three.LOD).
  change (disposed (setLodObjects ?m ?x)) with (disposed x).
  change (parents (setLodObjects ?m ?x)) with (parents x).
  destruct (dispose_fold s1' (lodObjects s1')) as (Hdisp & _ & _ & Hnone & _).
  split; [|split; [by apply Hnone|done]].
  apply Hdisp. right.
  inversion Hinst as [Hb|level child built children Hchild _ Hb Hch];
    [by rewrite <- Hb in Hbuilt|].
  exists (modelID model), lod, child. split; [apply lookup_insert_eq|].
  split; [rewrite <- Hch; by left|].
  by rewrite (levelInstanceOf_meshGeometry _ _ Hchild).
Qed.

Lemma dispose_releases_source_geometry_witness :
  7%nat ∈ disposed
    (after dispose (after (createLODForModel exampleModel (cameraAt 0)) sceneState)) /\
  parents
    (after dispose (after (createLODForModel exampleModel (cameraAt 0)) sceneState))
    !! Three.id (mesh exampleModel) = None /\
  lodObjects
    (after dispose (after (createLODForModel exampleModel (cameraAt 0)) sceneState))
  = ∅.
Proof.
  apply (dispose_releases_source_geometry exampleModel (cameraAt 0) sceneState 7%nat);
    [reflexivity|simpl; lia|by vm_compute|reflexivity].
Defined.

(** With level 0 disabled and every other level halving the twelve
    points, no level is built, and the geometry of the model is not
    released. *)
Example dispose_without_a_built_level :
  let s := setConfigField
             (mkLODConfig [mkLODLevel 0 1 false; mkLODLevel 50 (1 # 2) true]
                true 1000) sceneState in
  enabledCount (levels (config s)) = 1%nat /\
  disposed (after dispose (after (createLODForModel exampleModel (cameraAt 0)) s))
  = ∅.
Proof. by vm_compute. Qed.

(** X18: a removal never throws and is idempotent; it does nothing for a
    model that is not managed; for a managed model it deletes the entry
    and takes the LOD node out of its parent, and that is all: no
    geometry receives [dispose()], and every other entry stays. *)
Theorem removeLODForModel_idempotent (modelID : Z) (s : State) :
  let s1 := after (removeLODForModel modelID) s in
  (removeLODForModel modelID s).1 = Return tt /\
  removeLODForModel modelID s1 = (Return tt, s1) /\
  lodObjects s1 = delete modelID (lodObjects s) /\
  match lodObjects s !! modelID with
  | Some lodObject =>
      s1 = setLodObjects (delete modelID (lodObjects s))
             (setParents (delete (Three.lodId lodObject) (parents s)) s)
  | None => s1 = s
  end.
Proof.
  simpl. unfold after, removeLODForModel, bind, gets, modify, ret. simpl.
  destruct (lodObjects s !! modelID) as [lodObject|] eqn:Hl; simpl.
  - rewrite lookup_delete_eq. by repeat split.
  - rewrite Hl. repeat split. by rewrite delete_id.
Qed.

(** ** The memory report beyond the configured levels *)

Section MemoryBeyondLevels.

Implicit Types (byLevel : list (option Z)) (store : gmap nat Three.BufferGeometry).

Lemma addAt_length index memory byLevel :
  (length byLevel <= length (addAt index memory byLevel))%nat /\
  (index < length (addAt index memory byLevel))%nat.
Proof.
  unfold addAt. destruct (index <? length byLevel)%nat eqn:Hlt.
  - apply Nat.ltb_lt in Hlt. rewrite length_alter. lia.
  - apply Nat.ltb_ge in Hlt.
    rewrite !length_app, length_replicate. simpl. lia.
Qed.

Lemma addAt_notNumbersFrom n index memory byLevel :
  notNumbersFrom n byLevel -> notNumbersFrom n (addAt index memory byLevel).
Proof.
  intros Htail i Hn Hi. unfold addAt in *.
  destruct (index <? length byLevel)%nat eqn:Hlt.
  - rewrite length_alter in Hi.
    destruct (decide (i = index)) as [->|Hne].
    + rewrite list_lookup_alter_eq, (Htail index Hn Hi). done.
    + rewrite list_lookup_alter_ne by done. by apply Htail.
  - apply Nat.ltb_ge in Hlt.
    destruct (le_lt_dec (length byLevel) i) as [Hout|Hin].
    + rewrite lookup_app_r by done.
      rewrite !length_app, length_replicate in Hi. simpl in Hi.
      destruct (le_lt_dec (index - length byLevel) (i - length byLevel))
        as [Hlast|Hhole].
      * rewrite lookup_app_r by (rewrite length_replicate; lia).
        rewrite length_replicate.
        replace (i - length byLevel - (index - length byLevel))%nat with O by lia.
        done.
      * rewrite lookup_app_l by (rewrite length_replicate; lia).
        by apply lookup_replicate_2.
    + rewrite lookup_app_l by done. by apply Htail.
Qed.

Lemma memoryOfChildren_beyond n store children index acc :
  notNumbersFrom n acc.2 ->
  let r := memoryOfChildren store children index acc in
  notNumbersFrom n r.2 /\
  (length acc.2 <= length r.2)%nat /\
  forall k child g,
    children !! k = Some child -> meshGeometry child = Some g ->
    (index + k < length r.2)%nat.
Proof.
  revert index acc. induction children as [|child rest IH];
    intros index acc Htail; simpl.
  - by repeat split.
  - set (acc' := if Three.isMesh child then
                   match Three.geometry child with
                   | Some g =>
                       (acc.1 + byteLength (store !! g),
                        addAt index (byteLength (store !! g)) acc.2)
                   | None => acc
                   end
                 else acc).
    assert (Hacc' : notNumbersFrom n acc'.2 /\
                    (length acc.2 <= length acc'.2)%nat /\
                    forall g, meshGeometry child = Some g ->
                              (index < length acc'.2)%nat).
    { unfold acc', meshGeometry. destruct (Three.isMesh child); [|done].
      destruct (Three.geometry child) as [g|]; [|done]. simpl.
      split; [by apply addAt_notNumbersFrom|].
      destruct (addAt_length index (byteLength (store !! g)) acc.2). by split. }
    destruct Hacc' as (Htail' & Hlen' & Hhere).
    destruct (IH (S index) acc' Htail') as (Htail2 & Hlen2 & Hrest).
    split; [done|]. split; [lia|].
    intros [|k] c g Hc Hg; simpl in Hc.
    + injection Hc as <-. specialize (Hhere g Hg). lia.
    + specialize (Hrest k c g Hc Hg). lia.
Qed.

End MemoryBeyondLevels.

(** X19: where an LOD node has more children than the configuration has
    levels, the report of [getMemoryUsage] is no longer made of numbers:
    for a mesh child with a geometry at an index that is no index of a
    configured level, the entry of [byLevel] at that index is [NaN]. *)
Theorem getMemoryUsage_not_a_number_beyond_levels
    (s : State) (modelID : Z) (lodObject : Three.LOD) (index : nat)
    (child : Three.Object3D) (g : nat) :
  lodObjects s !! modelID = Some lodObject ->
  Three.lodChildren lodObject !! index = Some child ->
  meshGeometry child = Some g ->
  (length (levels (config s)) <= index)%nat ->
  exists total byLevel,
    getMemoryUsage s = (Return (total, byLevel), s) /\
    byLevel !! index = Some None.
Proof.
  intros Hl Hchild Hg Hout. unfold getMemoryUsage, gets.
  set (n := length (levels (config s))) in *.
  cut (let r := map_fold
                  (fun _ lodObject acc =>
                     memoryOfChildren (geometries s) (Three.lodChildren lodObject) 0 acc)
                  (0, replicate n (Some 0)) (lodObjects s) in
       notNumbersFrom n r.2 /\
       forall modelID lodObject k child g,
         lodObjects s !! modelID = Some lodObject ->
         Three.lodChildren lodObject !! k = Some child ->
         meshGeometry child = Some g ->
         (k < length r.2)%nat).
  { simpl. intros [Htail Hlen].
    destruct (map_fold _ _ _) as [total byLevel]. simpl in *.
    exists total, byLevel. split; [done|].
    apply Htail; [done|]. by apply (Hlen modelID lodObject index child g). }
  simpl. clear Hl Hchild Hg Hout modelID lodObject index child g.
  generalize (lodObjects s) as registry. intros registry.
  apply (map_fold_weak_ind
    (fun r (m : gmap Z Three.LOD) =>
       notNumbersFrom n r.2 /\
       forall modelID lodObject k child g,
         m !! modelID = Some lodObject ->
         Three.lodChildren lodObject !! k = Some child ->
         meshGeometry child = Some g ->
         (k < length r.2)%nat)).
  - simpl. split; [|done]. intros i Hn Hi. rewrite length_replicate in Hi. lia.
  - intros i lod m r Hi [Htail Hlen].
    destruct (memoryOfChildren_beyond n (geometries s) (Three.lodChildren lod) 0 r Htail)
      as (Htail' & Hlen' & Hhere).
    split; [done|]. intros j lod' k child g Hj Hk Hg.
    destruct (decide (i = j)) as [->|Hne].
    + rewrite lookup_insert_eq in Hj. injection Hj as <-.
      apply (Hhere k child g Hk Hg).
    + rewrite lookup_insert_ne in Hj by done.
      specialize (Hlen j lod' k child g Hj Hk Hg). lia.
Qed.

Lemma getMemoryUsage_not_a_number_beyond_levels_witness :
  exists total byLevel,
    getMemoryUsage oneLevelState = (Return (total, byLevel), oneLevelState) /\
    byLevel !! 1%nat = Some None.
Proof.
  apply (getMemoryUsage_not_a_number_beyond_levels oneLevelState 42 exampleLOD 1%nat
           (Three.mkObject3D 102 true true (Some 7%nat) (Three.OneMaterial lambert) [])
           7%nat);
    [reflexivity|reflexivity|reflexivity|simpl; lia].
Defined.

(** ** Configuration *)

Lemma mergeConfig_twice (base : LODConfig) (update : PartialLODConfig) :
  mergeConfig (mergeConfig base update) update = mergeConfig base update.
Proof.
  unfold mergeConfig. simpl.
  by destruct (levels_opt update), (autoSwitch_opt update),
    (distanceThreshold_opt update).
Qed.

(** X20: [setConfig] is a shallow merge that touches the configuration
    only: the registered LOD nodes, built for the earlier levels, stay
    as they are; the same update applied twice is the update applied
    once; [getConfig] then reads the merged configuration and changes
    nothing; and a manager constructed with an update is a manager
    constructed without one to which the update is applied, with an
    empty registry. *)
Theorem setConfig_is_shallow_merge (update : PartialLODConfig) (s : State) :
  let s1 := after (setConfig update) s in
  s1 = setConfigField (config s1) s /\
  after (setConfig update) s1 = s1 /\
  getConfig s1 = (Return (mergeConfig (config s) update), s1) /\
  constructor (Some update) s = after (setConfig update) (constructor None s) /\
  lodObjects (constructor (Some update) s) = ∅ /\
  config (constructor None s) = defaultConfig.
Proof.
  simpl. unfold after, setConfig, getConfig, modify, gets, constructor. simpl.
  split; [done|]. split; [|done].
  unfold setConfigField. simpl. by rewrite mergeConfig_twice.
Qed.

(** ** The geometry store after a registration *)

Section Store.

Implicit Types (s : State) (model : IFCModel) (camera : Three.Camera).

Lemma createLODLevel_store originalMesh level levelIndex :
  preserves geometries (createLODLevel originalMesh level levelIndex).
Proof. intros s. apply createLODLevel_geometries. Qed.

Lemma createLODLevel_disposed originalMesh level levelIndex :
  preserves disposed (createLODLevel originalMesh level levelIndex).
Proof.
  unfold createLODLevel, createLODLevelBody, simplifyGeometry, adjustMaterial,
    simplifyChild, adjustChild, decimateVertices, replacePositions.
  repeat first [preserves_step | by apply clone_preserves].
Qed.

Lemma createLODLevel_config originalMesh level levelIndex :
  preserves config (createLODLevel originalMesh level levelIndex).
Proof.
  unfold createLODLevel, createLODLevelBody, simplifyGeometry, adjustMaterial,
    simplifyChild, adjustChild, decimateVertices, replacePositions.
  repeat first [preserves_step | by apply clone_preserves].
Qed.

Lemma createLODForModel_store model camera :
  preserves geometries (createLODForModel model camera).
Proof.
  unfold createLODForModel, removeLODForModel, addLevel, add, addTo,
    removeFromParent.
  repeat first [preserves_step
               | by apply newLOD_preserves
               | apply createLODLevel_store].
Qed.

Lemma createLODForModel_disposed model camera :
  preserves disposed (createLODForModel model camera).
Proof.
  unfold createLODForModel, removeLODForModel, addLevel, add, addTo,
    removeFromParent.
  repeat first [preserves_step
               | by apply newLOD_preserves
               | apply createLODLevel_disposed].
Qed.

Lemma createLODForModel_config model camera :
  preserves config (createLODForModel model camera).
Proof.
  unfold createLODForModel, removeLODForModel, addLevel, add, addTo,
    removeFromParent.
  repeat first [preserves_step
               | by apply newLOD_preserves
               | apply createLODLevel_config].
Qed.

End Store.

(** X21: a registration leaves every geometry as it found it, whether
    or not the level instances could be made: the level instances refer
    to the geometries of the model, and a level whose simplification
    reaches the decimator fails before a buffer is put in place.  So the
    store of geometries after the registration is the store before it,
    a second registration of the same model finds the buffers of the
    first, no geometry has received [dispose()], and the configuration
    is the same. *)
Theorem createLODForModel_leaves_geometries
    (model : IFCModel) (camera : Three.Camera) (s : State) :
  let s1 := after (createLODForModel model camera) s in
  geometries s1 = geometries s /\
  geometries (after (createLODForModel model camera) s1) = geometries s /\
  disposed s1 = disposed s /\
  config s1 = config s.
Proof.
  simpl. rewrite !createLODForModel_store.
  by rewrite createLODForModel_disposed, createLODForModel_config.
Qed.

(** The twelve points of the example are still there after the
    registration, which logs the failure of the two levels that were to
    thin them out. *)
Example registration_keeps_twelve_points :
  geometries registeredState !! 7%nat ≫= Three.position = Some (diagonal 12) /\
  console registeredState
  = [WarnLevelFailed 1 ThreeNotDefined; WarnLevelFailed 2 ThreeNotDefined].
Proof. by vm_compute. Qed.

